(** * Agent-Checkout: invoices, delegation policies, settlement matching

    A shallow embedding of the TypeScript sources of the repository
    (shared/rateLimit.ts, shared/invoice.ts, sdk/merchant.ts, agent.ts,
    merchant/server.ts, guardian/server.ts and the serverless handlers
    under api/), with the properties of its specification stated and
    proved over the embedded functions.

    Conventions of the embedding.
    - A JavaScript string is a [string]: one [ascii] per UTF-16 code unit,
      for code units below 256.  Where the source encodes a string as
      UTF-8 the code units are made explicit ([Utf8]).
    - A JavaScript number is modelled by its integer value in [Z]
      (timestamps, chain ids, counters and quantities are integers in
      every flow of the program); a [bigint] is a [Z].
    - A [Map] is a [gmap]; a thrown exception is the left summand of a
      sum, or [None] where the caller only tests for failure.
    - The clock, the ledger client, the invoice signer and the checksum
      function of the address library are inputs of the functions that
      consult them; a handler that reads the clock more than once takes
      one input per reading.
    - The write of a state file is taken to succeed. *)

From Stdlib Require Import ZArith Ascii Bool Lia Permutation Sorted.
From Stdlib Require OrderedTypeEx.
From stdpp Require Import gmap strings list fin_maps.

Local Open Scope Z_scope.

(** ** Host primitives *)

Module Js.

Definition code (c : ascii) : Z := Z.of_N (N_of_ascii c).

Definition inRange (lo hi : Z) (c : ascii) : bool :=
  (lo <=? code c) && (code c <=? hi).

Definition isDigit (c : ascii) : bool := inRange 48 57 c.

Definition isUpperHexLetter (c : ascii) : bool := inRange 65 70 c.
Definition isLowerHexLetter (c : ascii) : bool := inRange 97 102 c.

(** One character of the class [[a-fA-F0-9]]. *)
Definition isHexDigit (c : ascii) : bool :=
  isDigit c || isUpperHexLetter c || isLowerHexLetter c.

Fixpoint chars (s : string) : list ascii :=
  match s with
  | EmptyString => []
  | String c rest => c :: chars rest
  end.

Fixpoint ofChars (l : list ascii) : string :=
  match l with
  | [] => EmptyString
  | c :: rest => String c (ofChars rest)
  end.

Definition strlen (s : string) : Z := Z.of_nat (String.length s).

(** [String.prototype.toLowerCase] on code units below 256: the ASCII
    capitals and the Latin-1 capitals (U+00C0 to U+00DE except the
    multiplication sign U+00D7) move up by 32, every other unit stays. *)
Definition lowerChar (c : ascii) : ascii :=
  if inRange 65 90 c || (inRange 192 222 c && negb (code c =? 215))
  then ascii_of_N (Z.to_N (code c + 32))
  else c.

Fixpoint toLowerCase (s : string) : string :=
  match s with
  | EmptyString => EmptyString
  | String c rest => String (lowerChar c) (toLowerCase rest)
  end.

(** Strict equality [===] of two strings. *)
Definition strEq (a b : string) : bool := bool_decide (a = b).

(** The test [/^[0-9]+$/.test(s)]. *)
Definition isDigits (s : string) : bool :=
  negb (bool_decide (s = EmptyString)) && forallb isDigit (chars s).

(** The test [/^0x[a-fA-F0-9]{n}$/.test(s)]. *)
Definition isHexOfLength (n : nat) (s : string) : bool :=
  match s with
  | String c0 (String c1 rest) =>
      (code c0 =? 48) && (code c1 =? 120)
      && (String.length rest =? n)%nat && forallb isHexDigit (chars rest)
  | _ => false
  end.

(** White space and line terminators below 256, as [trim] and the
    numeric string grammar strip them. *)
Definition isWhiteSpace (c : ascii) : bool :=
  inRange 9 13 c || (code c =? 32) || (code c =? 160).

Fixpoint trimStart (s : string) : string :=
  match s with
  | EmptyString => EmptyString
  | String c rest => if isWhiteSpace c then trimStart rest else s
  end.

Fixpoint trimEndChars (l : list ascii) : list ascii :=
  match l with
  | [] => []
  | c :: rest =>
      match trimEndChars rest with
      | [] => if isWhiteSpace c then [] else [c]
      | kept => c :: kept
      end
  end.

Definition trim (s : string) : string :=
  ofChars (trimEndChars (chars (trimStart s))).

(** Value of a digit in a radix, when the character is one. *)
Definition digitValue (radix : Z) (c : ascii) : option Z :=
  let v :=
    if isDigit c then code c - 48
    else if inRange 97 122 c then code c - 87
    else if inRange 65 90 c then code c - 55
    else 99 in
  if v <? radix then Some v else None.

Fixpoint digitsValue (radix : Z) (acc : Z) (l : list ascii) : option Z :=
  match l with
  | [] => Some acc
  | c :: rest =>
      match digitValue radix c with
      | Some v => digitsValue radix (radix * acc + v) rest
      | None => None
      end
  end.

(** A non-empty run of digits of the radix. *)
Definition parseDigits (radix : Z) (l : list ascii) : option Z :=
  match l with
  | [] => None
  | _ => digitsValue radix 0 l
  end.

(** [BigInt(s)] for a string argument (StringToBigInt): surrounding
    white space is dropped; the empty string is [0n]; then either a
    decimal literal with an optional sign, or an unsigned literal with a
    [0x], [0o] or [0b] prefix.  [None] stands for the [SyntaxError]. *)
Definition BigInt (s : string) : option Z :=
  match chars (trim s) with
  | [] => Some 0
  | c0 :: rest =>
      if code c0 =? 43 then parseDigits 10 rest
      else if code c0 =? 45 then Z.opp <$> parseDigits 10 rest
      else
        match rest with
        | c1 :: digits =>
            if (code c0 =? 48) && ((code c1 =? 120) || (code c1 =? 88))
            then parseDigits 16 digits
            else if (code c0 =? 48) && ((code c1 =? 111) || (code c1 =? 79))
            then parseDigits 8 digits
            else if (code c0 =? 48) && ((code c1 =? 98) || (code c1 =? 66))
            then parseDigits 2 digits
            else parseDigits 10 (c0 :: rest)
        | [] => parseDigits 10 [c0]
        end
  end.

(** Truthiness of a string and of an optional string. *)
Definition truthy (s : string) : bool := negb (bool_decide (s = EmptyString)).

Definition truthyOpt (o : option string) : bool :=
  match o with
  | Some s => truthy s
  | None => false
  end.

(** [Math.ceil(x / 1000)] for an integer [x]. *)
Definition ceilDiv1000 (x : Z) : Z := - ((- x) / 1000).

Example toLowerCase_ex : toLowerCase "0xAbCdEf" = "0xabcdef".
Proof. reflexivity. Qed.

Example BigInt_ex :
  BigInt "285000000" = Some 285000000 /\ BigInt "007" = Some 7
  /\ BigInt "0x1f" = Some 31 /\ BigInt "-12" = Some (-12)
  /\ BigInt " 5 " = Some 5 /\ BigInt "" = Some 0
  /\ BigInt "12a" = None /\ BigInt "1.5" = None /\ BigInt "-0x1" = None.
Proof. repeat split; reflexivity. Qed.

End Js.

(** ** The fixed-window rate limiter (class [InMemoryRateLimiter]) *)

Module RateLimit.

Record RateLimitResult := {
  allowed : bool;
  retryAfterSeconds : Z
}.

Record WindowState := {
  count : Z;
  resetAt : Z
}.

(** The object: its two options and the private map of windows. *)
Record InMemoryRateLimiter := {
  maxRequests : Z;
  windowMs : Z;
  windows : gmap string WindowState
}.

Definition create (maxRequests0 windowMs0 : Z) : InMemoryRateLimiter :=
  {| maxRequests := maxRequests0; windowMs := windowMs0; windows := ∅ |}.

Definition setWindows (self : InMemoryRateLimiter) (w : gmap string WindowState)
  : InMemoryRateLimiter :=
  {| maxRequests := maxRequests self; windowMs := windowMs self; windows := w |}.

(** [check(key, now)]: the result and the limiter after the call (the
    method replaces the window, or increments its counter in place). *)
Definition check (self : InMemoryRateLimiter) (key : string) (now : Z)
  : RateLimitResult * InMemoryRateLimiter :=
  let fresh :=
    ({| allowed := true; retryAfterSeconds := 0 |},
     setWindows self
       (<[key := {| count := 1; resetAt := now + windowMs self |}]> (windows self))) in
  match windows self !! key with
  | None => fresh
  | Some existing =>
      if resetAt existing <=? now then fresh
      else if maxRequests self <=? count existing then
        let retryAfterMs := Z.max (resetAt existing - now) 0 in
        ({| allowed := false; retryAfterSeconds := Js.ceilDiv1000 retryAfterMs |}, self)
      else
        ({| allowed := true; retryAfterSeconds := 0 |},
         setWindows self
           (<[key := {| count := count existing + 1; resetAt := resetAt existing |}]>
              (windows self)))
  end.

(** The condition under which [check] opens a window. *)
Definition noLiveWindow (self : InMemoryRateLimiter) (key : string) (now : Z) : Prop :=
  windows self !! key = None
  \/ exists w, windows self !! key = Some w /\ resetAt w <= now.

(** The test of the repository: quota 2 per 1000 ms. *)
Example check_quota_then_reset :
  let l0 := create 2 1000 in
  let '(r1, l1) := check l0 "k" 0 in
  let '(r2, l2) := check l1 "k" 10 in
  let '(r3, l3) := check l2 "k" 20 in
  let '(r4, _) := check l3 "k" 1001 in
  (allowed r1, allowed r2, allowed r3, retryAfterSeconds r3, allowed r4)
  = (true, true, false, 1, true).
Proof. reflexivity. Qed.

Lemma check_fresh self key now :
  noLiveWindow self key now ->
  check self key now =
    ({| allowed := true; retryAfterSeconds := 0 |},
     setWindows self
       (<[key := {| count := 1; resetAt := now + windowMs self |}]> (windows self))).
Proof.
  unfold check. intros [Hnone | (w & Hw & Hle)].
  - rewrite Hnone. reflexivity.
  - rewrite Hw. apply Z.leb_le in Hle. rewrite Hle. reflexivity.
Qed.

Lemma check_allowed_retry self key now :
  allowed (check self key now).1 = true ->
  retryAfterSeconds (check self key now).1 = 0.
Proof.
  unfold check.
  destruct (windows self !! key) as [w|]; [|reflexivity].
  destruct (resetAt w <=? now); [reflexivity|].
  destruct (maxRequests self <=? count w); simpl; [discriminate | reflexivity].
Qed.

(** C10. With no window for the key, or at a time at or past the reset
    time of its window, [check] stores a fresh window with count 1 that
    ends [windowMs] later and allows the request, whatever [maxRequests]
    is (zero and negative capacities included); and every allowed
    request reports zero seconds to wait. *)
Theorem check_opens_window_and_admits :
  forall (self : InMemoryRateLimiter) (key : string) (now : Z),
    noLiveWindow self key now ->
    let '(result, after) := check self key now in
    allowed result = true
    /\ retryAfterSeconds result = 0
    /\ windows after !! key = Some {| count := 1; resetAt := now + windowMs self |}
    /\ (forall other, other <> key -> windows after !! other = windows self !! other)
    /\ maxRequests after = maxRequests self /\ windowMs after = windowMs self
    /\ (forall self' key' now',
          allowed (check self' key' now').1 = true ->
          retryAfterSeconds (check self' key' now').1 = 0).
Proof.
  intros self key now Hfresh.
  rewrite (check_fresh _ _ _ Hfresh). simpl.
  repeat split.
  - apply lookup_insert_eq.
  - intros other Hne. apply lookup_insert_ne. congruence.
  - intros self' key' now'. apply check_allowed_retry.
Qed.

(** A limiter of capacity zero: the first request of each window is let
    through, the second one of the live window is refused. *)
Lemma check_opens_window_and_admits_witness :
  noLiveWindow (create 0 1000) "k" 0
  /\ (let '(result, after) := check (create 0 1000) "k" 0 in
      allowed result = true
      /\ retryAfterSeconds result = 0
      /\ windows after !! "k" = Some {| count := 1; resetAt := 0 + 1000 |}
      /\ (forall other, other <> "k" ->
            windows after !! other = windows (create 0 1000) !! other)
      /\ maxRequests after = 0 /\ windowMs after = 1000
      /\ (forall self' key' now',
            allowed (check self' key' now').1 = true ->
            retryAfterSeconds (check self' key' now').1 = 0)).
Proof.
  split.
  - left. reflexivity.
  - apply (check_opens_window_and_admits (create 0 1000) "k" 0). left. reflexivity.
Defined.

Example check_zero_capacity :
  let '(r1, l1) := check (create 0 1000) "k" 0 in
  let '(r2, l2) := check l1 "k" 1 in
  let '(r3, _) := check l2 "k" 1000 in
  (allowed r1, allowed r2, retryAfterSeconds r2, allowed r3) = (true, false, 1, true).
Proof. reflexivity. Qed.


(** *** Live windows and the quota *)

(** X1.  In a live window whose counter has reached [maxRequests], the
    request is refused, the limiter is left as it is, and the wait
    reported is the time to the reset rounded up to whole seconds, at
    least one. *)
Theorem check_refuses_at_capacity (self : InMemoryRateLimiter) (key : string) (now : Z)
    (w : WindowState) :
  windows self !! key = Some w ->
  now < resetAt w ->
  maxRequests self <= count w ->
  exists seconds,
    check self key now = ({| allowed := false; retryAfterSeconds := seconds |}, self)
    /\ 1 <= seconds
    /\ 1000 * (seconds - 1) < resetAt w - now <= 1000 * seconds.
Proof.
  intros Hw Hlive Hfull. unfold check. rewrite Hw.
  replace (resetAt w <=? now) with false by (symmetry; apply Z.leb_gt; exact Hlive).
  replace (maxRequests self <=? count w) with true by (symmetry; apply Z.leb_le; exact Hfull).
  eexists. split; [reflexivity|].
  unfold Js.ceilDiv1000. rewrite Z.max_l by lia.
  pose proof (Z.div_mod (- (resetAt w - now)) 1000 ltac:(lia)) as Hdiv.
  pose proof (Z.mod_pos_bound (- (resetAt w - now)) 1000 ltac:(lia)) as Hmod.
  lia.
Qed.

Lemma check_refuses_at_capacity_witness :
  exists seconds,
    check (setWindows (create 2 60000) {[ "k" := {| count := 2; resetAt := 61500 |} ]})
      "k" 60000
    = ({| allowed := false; retryAfterSeconds := seconds |},
       setWindows (create 2 60000) {[ "k" := {| count := 2; resetAt := 61500 |} ]})
    /\ 1 <= seconds
    /\ 1000 * (seconds - 1) < 61500 - 60000 <= 1000 * seconds.
Proof.
  apply (check_refuses_at_capacity
           (setWindows (create 2 60000) {[ "k" := {| count := 2; resetAt := 61500 |} ]})
           "k" 60000 {| count := 2; resetAt := 61500 |}).
  - reflexivity.
  - simpl. lia.
  - simpl. lia.
Defined.

Lemma check_live_below (self : InMemoryRateLimiter) (key : string) (now : Z)
    (w : WindowState) :
  windows self !! key = Some w ->
  now < resetAt w ->
  count w < maxRequests self ->
  check self key now
  = ({| allowed := true; retryAfterSeconds := 0 |},
     setWindows self
       (<[key := {| count := count w + 1; resetAt := resetAt w |}]> (windows self))).
Proof.
  intros Hw Hlive Hbelow. unfold check. rewrite Hw.
  replace (resetAt w <=? now) with false by (symmetry; apply Z.leb_gt; exact Hlive).
  replace (maxRequests self <=? count w) with false
    by (symmetry; apply Z.leb_gt; exact Hbelow).
  reflexivity.
Qed.

Lemma check_live_full (self : InMemoryRateLimiter) (key : string) (now : Z)
    (w : WindowState) :
  windows self !! key = Some w ->
  now < resetAt w ->
  maxRequests self <= count w ->
  allowed (check self key now).1 = false /\ (check self key now).2 = self.
Proof.
  intros Hw Hlive Hfull. unfold check. rewrite Hw.
  replace (resetAt w <=? now) with false by (symmetry; apply Z.leb_gt; exact Hlive).
  replace (maxRequests self <=? count w) with true by (symmetry; apply Z.leb_le; exact Hfull).
  split; reflexivity.
Qed.

(** X2.  Whatever the call does to the window of its own key, the
    windows of all other keys and the two options are as before. *)
Theorem check_leaves_other_keys (self : InMemoryRateLimiter) (key other : string) (now : Z) :
  other <> key ->
  windows (check self key now).2 !! other = windows self !! other
  /\ maxRequests (check self key now).2 = maxRequests self
  /\ windowMs (check self key now).2 = windowMs self.
Proof.
  intros Hne. unfold check.
  destruct (windows self !! key) as [w|].
  - destruct (resetAt w <=? now); simpl.
    + repeat split. apply lookup_insert_ne. congruence.
    + destruct (maxRequests self <=? count w); simpl; repeat split.
      apply lookup_insert_ne. congruence.
  - simpl. repeat split. apply lookup_insert_ne. congruence.
Qed.

Lemma check_leaves_other_keys_witness :
  windows (check (create 2 1000) "a" 5).2 !! "b" = windows (create 2 1000) !! "b"
  /\ maxRequests (check (create 2 1000) "a" 5).2 = maxRequests (create 2 1000)
  /\ windowMs (check (create 2 1000) "a" 5).2 = windowMs (create 2 1000).
Proof.
  apply (check_leaves_other_keys (create 2 1000) "a" "b" 5). discriminate.
Defined.

(** The number of requests let through among successive calls for one
    key at the given times. *)
Fixpoint admitted (self : InMemoryRateLimiter) (key : string) (times : list Z) : Z :=
  match times with
  | [] => 0
  | now :: rest =>
      let '(result, self') := check self key now in
      (if allowed result then 1 else 0) + admitted self' key rest
  end.

Lemma admitted_live (times : list Z) :
  forall (self : InMemoryRateLimiter) (key : string) (w : WindowState),
    windows self !! key = Some w ->
    Forall (fun now => now < resetAt w) times ->
    admitted self key times
    = Z.min (Z.of_nat (length times)) (Z.max 0 (maxRequests self - count w)).
Proof.
  induction times as [|now rest IH]; intros self key w Hw Hlive.
  - simpl. lia.
  - inversion Hlive as [|? ? Hnow Hrest]; subst.
    cbn [admitted length].
    destruct (Z_lt_le_dec (count w) (maxRequests self)) as [Hbelow|Hfull].
    + rewrite (check_live_below _ _ _ _ Hw Hnow Hbelow). cbn [allowed].
      rewrite (IH _ key {| count := count w + 1; resetAt := resetAt w |}).
      * simpl. lia.
      * simpl. apply lookup_insert_eq.
      * exact Hrest.
    + destruct (check_live_full _ _ _ _ Hw Hnow Hfull) as [Hrefused Hsame].
      destruct (check self key now) as [result self'] eqn:Hcheck. simpl in Hrefused, Hsame.
      rewrite Hrefused, Hsame. rewrite (IH _ key w Hw Hrest). lia.
Qed.

(** X3.  Starting where the key has no live window, of the requests
    made during one window (the one that opens it and those before its
    reset, in any order of arrival) exactly [max(1, maxRequests)] are let
    through, or all of them when they are fewer. *)
Theorem check_admits_quota_per_window (self : InMemoryRateLimiter) (key : string)
    (start : Z) (times : list Z) :
  noLiveWindow self key start ->
  Forall (fun now => now < start + windowMs self) times ->
  admitted self key (start :: times)
  = Z.min (1 + Z.of_nat (length times)) (Z.max 1 (maxRequests self)).
Proof.
  intros Hfresh Hlive. cbn [admitted]. rewrite (check_fresh _ _ _ Hfresh). cbn [allowed].
  rewrite (admitted_live times _ key {| count := 1; resetAt := start + windowMs self |}).
  - simpl. lia.
  - simpl. apply lookup_insert_eq.
  - exact Hlive.
Qed.

Lemma check_admits_quota_per_window_witness :
  admitted (create 2 1000) "k" [0; 10; 999; 5]
  = Z.min (1 + Z.of_nat (length [10; 999; 5])) (Z.max 1 (maxRequests (create 2 1000))).
Proof.
  apply (check_admits_quota_per_window (create 2 1000) "k" 0 [10; 999; 5]).
  - left. reflexivity.
  - repeat constructor.
Defined.

(** *** The client address ([getClientIp]) *)

(** [s.split(',')[0]]: the text before the first comma. *)
Fixpoint beforeComma (s : string) : string :=
  match s with
  | EmptyString => EmptyString
  | String c rest => if Js.code c =? 44 then EmptyString else String c (beforeComma rest)
  end.

(** [getClientIp(req)], [req.header] being the lookup of a request
    header: the first hop of [x-forwarded-for] when that header is not
    empty, else [cf-connecting-ip], else [x-real-ip], else [unknown]. *)
Definition getClientIp (header : string -> option string) : string :=
  match header "x-forwarded-for" with
  | Some forwardedFor =>
      if Js.truthy forwardedFor then Js.trim (beforeComma forwardedFor)
      else
        match header "cf-connecting-ip" with
        | Some ip => ip
        | None => default "unknown" (header "x-real-ip")
        end
  | None =>
      match header "cf-connecting-ip" with
      | Some ip => ip
      | None => default "unknown" (header "x-real-ip")
      end
  end.

Example getClientIp_ex :
  getClientIp (fun name => if bool_decide (name = "x-forwarded-for")
                           then Some " 203.0.113.7 , 10.0.0.1" else None)
  = "203.0.113.7".
Proof. vm_compute. reflexivity. Qed.


Lemma chars_ofChars (l : list ascii) : Js.chars (Js.ofChars l) = l.
Proof. induction l as [|c l IH]; simpl; [reflexivity | rewrite IH; reflexivity]. Qed.

Lemma trimStart_Forall (P : ascii -> Prop) (s : string) :
  Forall P (Js.chars s) -> Forall P (Js.chars (Js.trimStart s)).
Proof.
  induction s as [|c s IH]; simpl; intros H; [constructor|].
  inversion H; subst. destruct (Js.isWhiteSpace c); [apply IH; assumption | exact H].
Qed.

Lemma trimEndChars_Forall (P : ascii -> Prop) (l : list ascii) :
  Forall P l -> Forall P (Js.trimEndChars l).
Proof.
  induction l as [|c l IH]; simpl; intros H; [constructor|].
  inversion H as [|? ? Hc Hl]; subst. specialize (IH Hl).
  destruct (Js.trimEndChars l) as [|k kept].
  - destruct (Js.isWhiteSpace c); constructor; [exact Hc | constructor].
  - constructor; [exact Hc | exact IH].
Qed.

Lemma trimStart_head (s : string) (c : ascii) (rest : list ascii) :
  Js.chars (Js.trimStart s) = c :: rest -> Js.isWhiteSpace c = false.
Proof.
  induction s as [|c0 s IH]; simpl; [discriminate|].
  destruct (Js.isWhiteSpace c0) eqn:Hc0; [exact IH|].
  simpl. intros [= <- _]. exact Hc0.
Qed.

Lemma trimEndChars_head (l : list ascii) (c : ascii) (rest : list ascii) :
  Js.trimEndChars l = c :: rest -> exists rest', l = c :: rest'.
Proof.
  destruct l as [|c0 l]; simpl; [discriminate|].
  destruct (Js.trimEndChars l).
  - destruct (Js.isWhiteSpace c0); [discriminate | intros [= <- _]; eexists; reflexivity].
  - intros [= <- _]. eexists; reflexivity.
Qed.

Lemma trimEndChars_last (l : list ascii) (c : ascii) (front : list ascii) :
  Js.trimEndChars l = front ++ [c] -> Js.isWhiteSpace c = false.
Proof.
  revert front. induction l as [|c0 l IH]; simpl; intros front.
  - destruct front; discriminate.
  - destruct (Js.trimEndChars l) as [|k kept] eqn:Hkept.
    + destruct (Js.isWhiteSpace c0) eqn:Hc0; [destruct front; discriminate|].
      destruct front as [|f front]; [intros [= <-]; exact Hc0|].
      destruct front; discriminate.
    + destruct front as [|f front]; [discriminate|].
      simpl. intros [= _ Hrest]. eapply IH. exact Hrest.
Qed.

Lemma beforeComma_no_comma (s : string) :
  Forall (fun c => Js.code c <> 44) (Js.chars (beforeComma s)).
Proof.
  induction s as [|c s IH]; simpl; [constructor|].
  destruct (Z.eqb_spec (Js.code c) 44); simpl; [constructor|].
  constructor; assumption.
Qed.

(** X4.  When the request carries a non-empty [x-forwarded-for], the
    client address is its first comma-separated entry, trimmed, whatever
    the other headers say: it holds no comma and neither starts nor ends
    with white space. *)
Theorem getClientIp_first_forwarded_hop (header : string -> option string)
    (forwardedFor : string) :
  header "x-forwarded-for" = Some forwardedFor ->
  forwardedFor <> EmptyString ->
  getClientIp header = Js.trim (beforeComma forwardedFor)
  /\ Forall (fun c => Js.code c <> 44) (Js.chars (getClientIp header))
  /\ (forall c rest, Js.chars (getClientIp header) = c :: rest -> Js.isWhiteSpace c = false)
  /\ (forall c front, Js.chars (getClientIp header) = front ++ [c] ->
        Js.isWhiteSpace c = false).
Proof.
  intros Hheader Hne.
  assert (Hip : getClientIp header = Js.trim (beforeComma forwardedFor)).
  { unfold getClientIp. rewrite Hheader. unfold Js.truthy.
    rewrite bool_decide_eq_false_2 by exact Hne. reflexivity. }
  rewrite Hip. unfold Js.trim. rewrite chars_ofChars.
  split; [reflexivity|]. split; [|split].
  - apply trimEndChars_Forall, trimStart_Forall, beforeComma_no_comma.
  - intros c rest Hchars. destruct (trimEndChars_head _ _ _ Hchars) as [rest' Hstart].
    eapply trimStart_head. exact Hstart.
  - intros c front Hchars. eapply trimEndChars_last. exact Hchars.
Qed.

Lemma getClientIp_first_forwarded_hop_witness :
  let header := fun name =>
    if bool_decide (name = "x-forwarded-for") then Some " 203.0.113.7 , 10.0.0.1"
    else Some "198.51.100.1" in
  getClientIp header = Js.trim (beforeComma " 203.0.113.7 , 10.0.0.1")
  /\ Forall (fun c => Js.code c <> 44) (Js.chars (getClientIp header))
  /\ (forall c rest, Js.chars (getClientIp header) = c :: rest -> Js.isWhiteSpace c = false)
  /\ (forall c front, Js.chars (getClientIp header) = front ++ [c] ->
        Js.isWhiteSpace c = false).
Proof.
  apply (getClientIp_first_forwarded_hop
           (fun name => if bool_decide (name = "x-forwarded-for")
                        then Some " 203.0.113.7 , 10.0.0.1" else Some "198.51.100.1")
           " 203.0.113.7 , 10.0.0.1").
  - reflexivity.
  - discriminate.
Defined.
End RateLimit.

(** ** The canonical codec ([canonicalStringify], shared and serverless copies) *)

Module Canonical.

(** JSON-like values.  [JObject] holds what [Object.entries] returns:
    the own properties in the order the object enumerates them. *)
Unset Elimination Schemes.
Inductive Json : Type :=
| JNull
| JBool (b : bool)
| JNumber (n : Z)
| JString (s : string)
| JArray (items : list Json)
| JObject (entries : list (string * Json)).
Set Elimination Schemes.

Definition dquote : string := String (ascii_of_nat 34) EmptyString.
Definition backslash : string := String (ascii_of_nat 92) EmptyString.

Definition hexChar (v : Z) : ascii :=
  ascii_of_N (Z.to_N (if v <? 10 then 48 + v else 87 + v)).

(** One code unit inside a JSON string literal (QuoteJSONString). *)
Definition quoteChar (c : ascii) : string :=
  let n := Js.code c in
  if n =? 34 then backslash +:+ dquote
  else if n =? 92 then backslash +:+ backslash
  else if n =? 8 then backslash +:+ "b"
  else if n =? 9 then backslash +:+ "t"
  else if n =? 10 then backslash +:+ "n"
  else if n =? 12 then backslash +:+ "f"
  else if n =? 13 then backslash +:+ "r"
  else if n <? 32 then
    backslash +:+ "u00" +:+ String (hexChar (n / 16)) (String (hexChar (n mod 16)) EmptyString)
  else String c EmptyString.

Fixpoint quoteChars (s : string) : string :=
  match s with
  | EmptyString => EmptyString
  | String c rest => quoteChar c +:+ quoteChars rest
  end.

(** [JSON.stringify] of a string. *)
Definition stringifyString (s : string) : string :=
  dquote +:+ quoteChars s +:+ dquote.

Fixpoint decimalDigits (fuel : nat) (n : Z) (acc : string) : string :=
  match fuel with
  | O => acc
  | S fuel' =>
      let acc' := String (ascii_of_N (Z.to_N (48 + n mod 10))) acc in
      if n <? 10 then acc' else decimalDigits fuel' (n / 10) acc'
  end.

(** [JSON.stringify] of an integral number (decimal notation, which the
    host uses for magnitudes below 10^21). *)
Definition stringifyNumber (n : Z) : string :=
  if n <? 0
  then "-" +:+ decimalDigits (S (Z.to_nat (Z.log2 (- n)))) (- n) EmptyString
  else decimalDigits (S (Z.to_nat (Z.log2 n))) n EmptyString.

(** [Array.prototype.join]. *)
Fixpoint join (sep : string) (parts : list string) : string :=
  match parts with
  | [] => EmptyString
  | [p] => p
  | p :: rest => p +:+ sep +:+ join sep rest
  end.

Section Stringify.

(** [String.prototype.localeCompare], the collation of the host: a
    negative, zero or positive number. *)
Variable localeCompare : string -> string -> Z.

(** [Array.prototype.sort] with the comparator
    [([a], [b]) => a.localeCompare(b)] on the keys: a stable sort, here
    by insertion. *)
Fixpoint insertEntry {A : Type} (e : string * A) (sorted : list (string * A))
  : list (string * A) :=
  match sorted with
  | [] => [e]
  | e' :: rest =>
      if 0 <? localeCompare e.1 e'.1
      then e' :: insertEntry e rest
      else e :: e' :: rest
  end.

Fixpoint sortEntries {A : Type} (entries : list (string * A)) : list (string * A) :=
  match entries with
  | [] => []
  | e :: rest => insertEntry e (sortEntries rest)
  end.

Definition arrayText (items : list string) : string :=
  "[" +:+ join "," items +:+ "]".

Definition entryText (e : string * string) : string :=
  stringifyString e.1 +:+ ":" +:+ e.2.

Definition objectText (entries : list (string * string)) : string :=
  "{" +:+ join "," (List.map entryText entries) +:+ "}".

(** [canonicalStringify(value)].  The values of an object are rendered
    before its entries are sorted, which keeps the recursion structural;
    the sort reads keys only, and [canonicalStringify_object] restates
    the object case in the order of the source (sort, then render). *)
Fixpoint canonicalStringify (value : Json) : string :=
  match value with
  | JArray items => arrayText (List.map canonicalStringify items)
  | JObject entries =>
      objectText
        (sortEntries
           (List.map (fun e => (e.1, canonicalStringify e.2)) entries))
  | JNull => "null"
  | JBool true => "true"
  | JBool false => "false"
  | JNumber n => stringifyNumber n
  | JString s => stringifyString s
  end.

Definition renderEntry (e : string * Json) : string * string :=
  (e.1, canonicalStringify e.2).

End Stringify.

(** Comparison of code units, position by position: the order the
    specification names (raw code-point order). *)
Definition codeUnitCompare (a b : string) : Z :=
  match String.compare a b with
  | Lt => -1
  | Eq => 0
  | Gt => 1
  end.

(** The collation of the host on strings of ASCII letters and digits
    (the default, locale-aware one): digits sort before letters, letters
    sort alphabetically whatever their case, and between two strings
    that differ in case only the first difference decides, lower case
    first.  Other characters are ranked after the letters by code. *)
Definition primaryWeight (c : ascii) : Z :=
  if Js.isDigit c then Js.code c - 48
  else if Js.inRange 97 122 c then 10 + (Js.code c - 97)
  else if Js.inRange 65 90 c then 10 + (Js.code c - 65)
  else 100 + Js.code c.

Definition tertiaryWeight (c : ascii) : Z :=
  if Js.inRange 65 90 c then 1 else 0.

Fixpoint compareWeights (w : ascii -> Z) (a b : string) : Z :=
  match a, b with
  | EmptyString, EmptyString => 0
  | EmptyString, String _ _ => -1
  | String _ _, EmptyString => 1
  | String x a', String y b' =>
      if w x <? w y then -1
      else if w y <? w x then 1
      else compareWeights w a' b'
  end.

Definition localeCompareAlnum (a b : string) : Z :=
  let primary := compareWeights primaryWeight a b in
  if primary =? 0 then compareWeights tertiaryWeight a b else primary.

Example canonicalStringify_nested :
  canonicalStringify localeCompareAlnum
    (JObject [("b", JNumber 2); ("a", JObject [("y", JNumber 2); ("x", JNumber 1)])])
  = canonicalStringify localeCompareAlnum
    (JObject [("a", JObject [("x", JNumber 1); ("y", JNumber 2)]); ("b", JNumber 2)]).
Proof. reflexivity. Qed.

Example canonicalStringify_text :
  canonicalStringify localeCompareAlnum
    (JObject [("n", JNumber (-1230)); ("l", JArray [JBool true; JNull; JString "x"])])
  = "{" +:+ dquote +:+ "l" +:+ dquote +:+ ":[true,null," +:+ dquote +:+ "x" +:+ dquote
    +:+ "]," +:+ dquote +:+ "n" +:+ dquote +:+ ":-1230}".
Proof. reflexivity. Qed.



(** *** Objects that are equal as sets of key-value pairs *)

(** A value is well formed over the keys [K] when, at every depth, the
    keys of an object are pairwise distinct (as the properties of a
    JavaScript object are) and belong to [K]. *)
Inductive wfJson (K : string -> Prop) : Json -> Prop :=
| wf_null : wfJson K JNull
| wf_bool b : wfJson K (JBool b)
| wf_number n : wfJson K (JNumber n)
| wf_string s : wfJson K (JString s)
| wf_array_nil : wfJson K (JArray [])
| wf_array_cons x items :
    wfJson K x -> wfJson K (JArray items) -> wfJson K (JArray (x :: items))
| wf_object_nil : wfJson K (JObject [])
| wf_object_cons key x entries :
    K key -> ~ List.In key (List.map fst entries) ->
    wfJson K x -> wfJson K (JObject entries) ->
    wfJson K (JObject ((key, x) :: entries)).

(** [sameKeyValues a b]: [b] is [a] with the entries of some of its
    objects, at any depth, enumerated in another order.  Arrays keep the
    order of their elements. *)
Inductive sameKeyValues : Json -> Json -> Prop :=
| skv_refl v : sameKeyValues v v
| skv_item x y items1 items2 :
    sameKeyValues x y -> sameKeyValues (JArray items1) (JArray items2) ->
    sameKeyValues (JArray (x :: items1)) (JArray (y :: items2))
| skv_entry key x y entries1 entries2 :
    sameKeyValues x y -> sameKeyValues (JObject entries1) (JObject entries2) ->
    sameKeyValues (JObject ((key, x) :: entries1)) (JObject ((key, y) :: entries2))
| skv_reorder entries1 entries2 :
    Permutation entries1 entries2 ->
    sameKeyValues (JObject entries1) (JObject entries2)
| skv_trans a b c :
    sameKeyValues a b -> sameKeyValues b c -> sameKeyValues a c.

(** What two values share before the sort of the outermost object. *)
Definition rendersAlike (localeCompare : string -> string -> Z) (a b : Json) : Prop :=
  match a, b with
  | JArray items1, JArray items2 =>
      List.map (canonicalStringify localeCompare) items1
      = List.map (canonicalStringify localeCompare) items2
  | JObject entries1, JObject entries2 =>
      Permutation (List.map (renderEntry localeCompare) entries1)
                  (List.map (renderEntry localeCompare) entries2)
  | _, _ => a = b
  end.

(** The keys of the serialized object, in the order of the output. *)
Definition outputKeys (localeCompare : string -> string -> Z)
    (entries : list (string * Json)) : list string :=
  List.map fst (sortEntries localeCompare entries).
(** *** Facts about the sort *)

Section SortFacts.

Variable localeCompare : string -> string -> Z.

Lemma insertEntry_perm {A : Type} (e : string * A) (l : list (string * A)) :
  Permutation (insertEntry localeCompare e l) (e :: l).
Proof.
  induction l as [|e' rest IH]; simpl.
  - apply Permutation_refl.
  - destruct (0 <? localeCompare e.1 e'.1).
    + eapply Permutation_trans; [apply perm_skip, IH | apply perm_swap].
    + apply Permutation_refl.
Qed.

Lemma sortEntries_perm {A : Type} (l : list (string * A)) :
  Permutation (sortEntries localeCompare l) l.
Proof.
  induction l as [|e rest IH]; simpl.
  - apply perm_nil.
  - eapply Permutation_trans; [apply insertEntry_perm | apply perm_skip, IH].
Qed.

(** The sort reads keys only: it commutes with a change of the values. *)
Lemma insertEntry_map {A B : Type} (f : A -> B) (e : string * A) (l : list (string * A)) :
  insertEntry localeCompare (e.1, f e.2) (List.map (fun x => (x.1, f x.2)) l)
  = List.map (fun x => (x.1, f x.2)) (insertEntry localeCompare e l).
Proof.
  induction l as [|e' rest IH]; simpl; [reflexivity|].
  destruct (0 <? localeCompare e.1 e'.1); simpl; [|reflexivity].
  f_equal. exact IH.
Qed.

Lemma sortEntries_map {A B : Type} (f : A -> B) (l : list (string * A)) :
  sortEntries localeCompare (List.map (fun x => (x.1, f x.2)) l)
  = List.map (fun x => (x.1, f x.2)) (sortEntries localeCompare l).
Proof.
  induction l as [|e rest IH]; simpl; [reflexivity|].
  rewrite IH. apply insertEntry_map.
Qed.

(** The object case as the source writes it: sort the entries, render
    each one, join. *)
Lemma canonicalStringify_object (entries : list (string * Json)) :
  canonicalStringify localeCompare (JObject entries)
  = "{" +:+ join ","
      (List.map (fun e => stringifyString e.1 +:+ ":" +:+ canonicalStringify localeCompare e.2)
         (sortEntries localeCompare entries)) +:+ "}".
Proof.
  simpl. unfold objectText. do 3 f_equal.
  transitivity
    (List.map entryText
       (sortEntries localeCompare
          (List.map (fun x => (x.1, canonicalStringify localeCompare x.2)) entries))).
  - reflexivity.
  - rewrite sortEntries_map, List.map_map. reflexivity.
Qed.

Lemma canonicalStringify_array (items : list Json) :
  canonicalStringify localeCompare (JArray items)
  = "[" +:+ join "," (List.map (canonicalStringify localeCompare) items) +:+ "]".
Proof. reflexivity. Qed.

(** *** Sorted output, and its independence of the insertion order *)

(** [K] holds of the keys in use; on them the comparator is required to
    be a total order (no two distinct keys compare equal). *)
Variable K : string -> Prop.

Definition keyLe {A : Type} (a b : string * A) : Prop :=
  localeCompare a.1 b.1 <= 0.

Hypothesis compare_total :
  forall a b, K a -> K b -> localeCompare a b <= 0 \/ localeCompare b a <= 0.
Hypothesis compare_trans :
  forall a b c, K a -> K b -> K c ->
    localeCompare a b <= 0 -> localeCompare b c <= 0 -> localeCompare a c <= 0.
Hypothesis compare_antisym :
  forall a b, K a -> K b ->
    localeCompare a b <= 0 -> localeCompare b a <= 0 -> a = b.

Definition keysIn {A : Type} (l : list (string * A)) : Prop :=
  List.Forall (fun e => K e.1) l.

Lemma insertEntry_sorted {A : Type} (e : string * A) (l : list (string * A)) :
  K e.1 -> keysIn l ->
  StronglySorted keyLe l -> StronglySorted keyLe (insertEntry localeCompare e l).
Proof.
  intros He. induction l as [|e' rest IH]; intros Hk Hs; simpl.
  - constructor; constructor.
  - apply List.Forall_cons_iff in Hk as [He' Hrest].
    apply StronglySorted_inv in Hs as [Hs Hall].
    destruct (0 <? localeCompare e.1 e'.1) eqn:Hcmp.
    + apply Z.ltb_lt in Hcmp.
      constructor; [apply IH; assumption|].
      apply List.Forall_forall. intros x Hx.
      apply (Permutation_in _ (insertEntry_perm e rest)) in Hx.
      destruct Hx as [<- | Hx].
      * destruct (compare_total e.1 e'.1 He He') as [Hle | Hle]; [lia | exact Hle].
      * rewrite List.Forall_forall in Hall. apply Hall, Hx.
    + apply Z.ltb_ge in Hcmp.
      constructor; [constructor; assumption|].
      constructor; [exact Hcmp|].
      rewrite List.Forall_forall in Hall, Hrest |- *. intros x Hx.
      apply (compare_trans e.1 e'.1 x.1); auto. apply Hall, Hx.
Qed.

Lemma sortEntries_sorted {A : Type} (l : list (string * A)) :
  keysIn l -> StronglySorted keyLe (sortEntries localeCompare l).
Proof.
  induction l as [|e rest IH]; intros Hk; simpl.
  - constructor.
  - apply List.Forall_cons_iff in Hk as [He Hrest].
    apply insertEntry_sorted; auto.
    unfold keysIn in *. rewrite List.Forall_forall in Hrest |- *.
    intros x Hx. apply Hrest. eapply Permutation_in; [apply sortEntries_perm | exact Hx].
Qed.

Lemma sorted_perm_eq {A : Type} (l1 l2 : list (string * A)) :
  keysIn l1 -> List.NoDup (List.map fst l1) ->
  StronglySorted keyLe l1 -> StronglySorted keyLe l2 ->
  Permutation l1 l2 -> l1 = l2.
Proof.
  revert l2. induction l1 as [|a l1 IH]; intros l2 Hk Hnd Hs1 Hs2 Hp.
  - apply Permutation_nil in Hp. congruence.
  - destruct l2 as [|b l2]; [apply Permutation_sym, Permutation_nil in Hp; discriminate|].
    apply List.Forall_cons_iff in Hk as [Ha Hk].
    apply List.NoDup_cons_iff in Hnd as [Hnotin Hnd].
    apply StronglySorted_inv in Hs1 as [Hs1 Hall1].
    apply StronglySorted_inv in Hs2 as [Hs2 Hall2].
    assert (Hab : a = b).
    { assert (Hina : List.In a (b :: l2))
        by (eapply Permutation_in; [exact Hp | left; reflexivity]).
      destruct Hina as [Heq | Hina]; [congruence|].
      assert (Hinb : List.In b (a :: l1))
        by (eapply Permutation_in; [apply Permutation_sym, Hp | left; reflexivity]).
      destruct Hinb as [Heq | Hinb]; [congruence|].
      exfalso. apply Hnotin.
      rewrite List.Forall_forall in Hall1, Hall2, Hk.
      assert (Hkeys : a.1 = b.1).
      { apply compare_antisym; auto.
        - apply (Hall1 b Hinb).
        - apply (Hall2 a Hina). }
      rewrite Hkeys. apply List.in_map, Hinb. }
    subst b. f_equal.
    apply IH; auto. eapply Permutation_cons_inv, Hp.
Qed.

(** Two lists of entries with the same distinct keys in use sort to the
    same list, whatever order they come in. *)
Lemma sortEntries_perm_eq {A : Type} (l1 l2 : list (string * A)) :
  keysIn l1 -> List.NoDup (List.map fst l1) -> Permutation l1 l2 ->
  sortEntries localeCompare l1 = sortEntries localeCompare l2.
Proof.
  intros Hk Hnd Hp.
  assert (Hk2 : keysIn l2).
  { unfold keysIn in *. rewrite List.Forall_forall in Hk |- *.
    intros x Hx. apply Hk. eapply Permutation_in; [apply Permutation_sym, Hp | exact Hx]. }
  apply sorted_perm_eq.
  - unfold keysIn in *. rewrite List.Forall_forall in Hk |- *.
    intros x Hx. apply Hk. eapply Permutation_in; [apply sortEntries_perm | exact Hx].
  - eapply Permutation_NoDup; [|exact Hnd].
    apply Permutation_map, Permutation_sym, sortEntries_perm.
  - apply sortEntries_sorted, Hk.
  - apply sortEntries_sorted, Hk2.
  - eapply Permutation_trans; [apply sortEntries_perm|].
    eapply Permutation_trans; [exact Hp | apply Permutation_sym, sortEntries_perm].
Qed.


Lemma wf_object_inv (entries : list (string * Json)) :
  wfJson K (JObject entries) ->
  keysIn entries /\ List.NoDup (List.map fst entries)
  /\ List.Forall (fun e => wfJson K e.2) entries.
Proof.
  induction entries as [|[k v] rest IH]; intros Hwf.
  - repeat split; constructor.
  - inversion Hwf as [| | | | | | |k' v' rest' Hk Hnotin Hv Hrest]; subst.
    destruct (IH Hrest) as (Hkeys & Hnd & Hall).
    repeat split; constructor; assumption.
Qed.

Lemma wf_object_intro (entries : list (string * Json)) :
  keysIn entries -> List.NoDup (List.map fst entries) ->
  List.Forall (fun e => wfJson K e.2) entries ->
  wfJson K (JObject entries).
Proof.
  induction entries as [|[k v] rest IH]; intros Hkeys Hnd Hall.
  - constructor.
  - apply List.Forall_cons_iff in Hkeys as [Hk Hkeys].
    apply List.NoDup_cons_iff in Hnd as [Hnotin Hnd].
    apply List.Forall_cons_iff in Hall as [Hv Hall].
    constructor; auto.
Qed.

Lemma wf_object_perm (entries1 entries2 : list (string * Json)) :
  Permutation entries1 entries2 ->
  wfJson K (JObject entries1) -> wfJson K (JObject entries2).
Proof.
  intros Hp Hwf. apply wf_object_inv in Hwf as (Hkeys & Hnd & Hall).
  apply wf_object_intro.
  - unfold keysIn in *. eapply Permutation_Forall; eassumption.
  - eapply Permutation_NoDup; [apply Permutation_map, Hp | exact Hnd].
  - eapply Permutation_Forall; eassumption.
Qed.

Lemma renderEntry_keys (entries : list (string * Json)) :
  List.map fst (List.map (renderEntry localeCompare) entries) = List.map fst entries.
Proof. rewrite List.map_map. reflexivity. Qed.

Lemma rendersAlike_refl (v : Json) : rendersAlike localeCompare v v.
Proof. destruct v; simpl; reflexivity. Qed.

Lemma rendersAlike_trans (a b c : Json) :
  rendersAlike localeCompare a b -> rendersAlike localeCompare b c ->
  rendersAlike localeCompare a c.
Proof.
  destruct a, b, c; simpl; intros H1 H2;
    try discriminate; try congruence.
  eapply Permutation_trans; eassumption.
Qed.

(** Objects whose rendered entries are rearrangements of one another
    serialize to the same text. *)
Lemma object_text_eq (entries1 entries2 : list (string * Json)) :
  wfJson K (JObject entries1) ->
  Permutation (List.map (renderEntry localeCompare) entries1)
              (List.map (renderEntry localeCompare) entries2) ->
  canonicalStringify localeCompare (JObject entries1)
  = canonicalStringify localeCompare (JObject entries2).
Proof.
  intros Hwf Hp. apply wf_object_inv in Hwf as (Hkeys & Hnd & _).
  simpl. f_equal.
  change (sortEntries localeCompare (List.map (renderEntry localeCompare) entries1)
          = sortEntries localeCompare (List.map (renderEntry localeCompare) entries2)).
  apply sortEntries_perm_eq; [| |exact Hp].
  - unfold keysIn in *. rewrite List.Forall_forall in Hkeys |- *.
    intros x Hx. apply List.in_map_iff in Hx as (e & <- & He). apply (Hkeys e He).
  - rewrite renderEntry_keys. exact Hnd.
Qed.

Lemma sameKeyValues_invariant (a b : Json) :
  sameKeyValues a b ->
  wfJson K a ->
  wfJson K b
  /\ canonicalStringify localeCompare a = canonicalStringify localeCompare b
  /\ rendersAlike localeCompare a b.
Proof.
  induction 1 as [v
                 |x y items1 items2 Hxy IHxy Hrest IHrest
                 |key x y entries1 entries2 Hxy IHxy Hrest IHrest
                 |entries1 entries2 Hp
                 |a b c Hab IHab Hbc IHbc]; intros Hwf.
  - split; [exact Hwf|]. split; [reflexivity | apply rendersAlike_refl].
  - inversion Hwf as [| | | | |x' items' Hx Hitems| |]; subst.
    destruct (IHxy Hx) as (Hy & Heq & _).
    destruct (IHrest Hitems) as (Hitems2 & _ & Hmap). simpl in Hmap.
    split; [constructor; assumption|].
    assert (Hmaps : List.map (canonicalStringify localeCompare) (x :: items1)
                    = List.map (canonicalStringify localeCompare) (y :: items2))
      by (simpl; congruence).
    split; [|exact Hmaps].
    change (arrayText (List.map (canonicalStringify localeCompare) (x :: items1))
            = arrayText (List.map (canonicalStringify localeCompare) (y :: items2))).
    f_equal. exact Hmaps.
  - inversion Hwf as [| | | | | | |key' x' entries' Hk Hnotin Hx Hentries]; subst.
    destruct (IHxy Hx) as (Hy & Heq & _).
    destruct (IHrest Hentries) as (Hentries2 & _ & Hperm). simpl in Hperm.
    assert (Hperm' :
      Permutation (List.map (renderEntry localeCompare) ((key, x) :: entries1))
                  (List.map (renderEntry localeCompare) ((key, y) :: entries2))).
    { simpl. unfold renderEntry at 1 3. simpl. rewrite Heq. apply perm_skip, Hperm. }
    split.
    + constructor; auto.
      intros Hin. apply Hnotin.
      rewrite <- (renderEntry_keys entries1).
      rewrite <- (renderEntry_keys entries2) in Hin.
      eapply Permutation_in; [apply Permutation_map, Permutation_sym, Hperm | exact Hin].
    + split; [|exact Hperm'].
      apply object_text_eq; [exact Hwf | exact Hperm'].
  - assert (Hperm : Permutation (List.map (renderEntry localeCompare) entries1)
                                (List.map (renderEntry localeCompare) entries2))
      by (apply Permutation_map, Hp).
    split; [eapply wf_object_perm; eassumption|].
    split; [apply object_text_eq; assumption | exact Hperm].
  - destruct (IHab Hwf) as (Hb & Heq1 & Hq1).
    destruct (IHbc Hb) as (Hc & Heq2 & Hq2).
    split; [exact Hc|]. split; [congruence | eapply rendersAlike_trans; eassumption].
Qed.

(** The keys of the output are in the order of the comparator. *)
Lemma outputKeys_sorted (entries : list (string * Json)) :
  keysIn entries ->
  StronglySorted (fun a b => localeCompare a b <= 0) (outputKeys localeCompare entries).
Proof.
  intros Hk. pose proof (sortEntries_sorted entries Hk) as Hs.
  unfold outputKeys. induction Hs as [|e rest Hs IH Hall]; simpl.
  - constructor.
  - constructor; [exact IH|].
    rewrite List.Forall_forall in Hall |- *.
    intros k Hin. apply List.in_map_iff in Hin as (e' & <- & He'). apply (Hall e' He').
Qed.

End SortFacts.

(** *** The comparison of code units is a total order *)

Lemma codeUnitCompare_le (a b : string) :
  codeUnitCompare a b <= 0 <-> String.compare a b <> Gt.
Proof.
  unfold codeUnitCompare. destruct (String.compare a b); split; intros; try lia; congruence.
Qed.

Lemma codeUnitCompare_total (a b : string) :
  codeUnitCompare a b <= 0 \/ codeUnitCompare b a <= 0.
Proof.
  rewrite !codeUnitCompare_le, (String.compare_antisym a b).
  destruct (String.compare b a); simpl; [left | right | left]; congruence.
Qed.

Lemma codeUnitCompare_antisym (a b : string) :
  codeUnitCompare a b <= 0 -> codeUnitCompare b a <= 0 -> a = b.
Proof.
  rewrite !codeUnitCompare_le, (String.compare_antisym a b).
  intros H1 H2. apply String.compare_eq_iff.
  rewrite (String.compare_antisym a b).
  destruct (String.compare b a); simpl in *; congruence.
Qed.

Lemma codeUnitCompare_trans (a b c : string) :
  codeUnitCompare a b <= 0 -> codeUnitCompare b c <= 0 -> codeUnitCompare a c <= 0.
Proof.
  rewrite !codeUnitCompare_le. intros Hab Hbc.
  destruct (String.compare a b) eqn:Eab; [| |congruence].
  - apply String.compare_eq_iff in Eab. subst. exact Hbc.
  - destruct (String.compare b c) eqn:Ebc; [| |congruence].
    + apply String.compare_eq_iff in Ebc. subst. rewrite Eab. congruence.
    + apply OrderedTypeEx.String_as_OT.cmp_lt in Eab, Ebc.
      pose proof (OrderedTypeEx.String_as_OT.lt_trans _ _ _ Eab Ebc) as Hac.
      apply OrderedTypeEx.String_as_OT.cmp_lt in Hac.
      unfold OrderedTypeEx.String_as_OT.cmp in Hac. rewrite Hac. congruence.
Qed.

(** *** The specification of the codec *)

(** C5, as the code has it.  For a comparator that is a total order on
    the keys in use, [canonicalStringify] writes the entries of every
    object in the order of that comparator, [localeCompare], whatever
    order the object enumerates them in; an array keeps the order of its
    elements; and two values that are equal as sets of key-value pairs,
    at every depth, have the same canonical text. *)
Theorem canonicalStringify_order_invariant :
  forall (localeCompare : string -> string -> Z) (K : string -> Prop),
    (forall a b, K a -> K b -> localeCompare a b <= 0 \/ localeCompare b a <= 0) ->
    (forall a b c, K a -> K b -> K c ->
       localeCompare a b <= 0 -> localeCompare b c <= 0 -> localeCompare a c <= 0) ->
    (forall a b, K a -> K b ->
       localeCompare a b <= 0 -> localeCompare b a <= 0 -> a = b) ->
    (forall entries : list (string * Json),
       keysIn K entries ->
       canonicalStringify localeCompare (JObject entries)
       = "{" +:+ join ","
           (List.map
              (fun e => stringifyString e.1 +:+ ":" +:+ canonicalStringify localeCompare e.2)
              (sortEntries localeCompare entries)) +:+ "}"
       /\ Permutation (sortEntries localeCompare entries) entries
       /\ StronglySorted (fun a b => localeCompare a b <= 0)
            (outputKeys localeCompare entries))
    /\ (forall items : list Json,
          canonicalStringify localeCompare (JArray items)
          = "[" +:+ join "," (List.map (canonicalStringify localeCompare) items) +:+ "]")
    /\ (forall a b : Json,
          wfJson K a -> sameKeyValues a b ->
          canonicalStringify localeCompare a = canonicalStringify localeCompare b).
Proof.
  intros localeCompare K Htotal Htrans Hantisym. split; [|split].
  - intros entries Hk. split; [apply canonicalStringify_object|].
    split; [apply sortEntries_perm|].
    apply (outputKeys_sorted localeCompare K Htotal Htrans entries Hk).
  - intros items. apply canonicalStringify_array.
  - intros a b Hwf Hskv.
    apply (sameKeyValues_invariant localeCompare K Htotal Htrans Hantisym a b Hskv Hwf).
Qed.

(** The objects of the test of the repository, [{b: 2, a: {y: 2, x: 1}}]
    and [{a: {x: 1, y: 2}, b: 2}], under the comparison of code units. *)
Definition reorderedA : Json :=
  JObject [("b", JNumber 2); ("a", JObject [("y", JNumber 2); ("x", JNumber 1)])].
Definition reorderedB : Json :=
  JObject [("a", JObject [("x", JNumber 1); ("y", JNumber 2)]); ("b", JNumber 2)].

Lemma reorderedA_wf : wfJson (fun _ => True) reorderedA.
Proof.
  unfold reorderedA.
  repeat (constructor; simpl; try tauto; try (intros [H|H]; [discriminate H | tauto])).
Qed.

Lemma reordered_sameKeyValues : sameKeyValues reorderedA reorderedB.
Proof.
  unfold reorderedA, reorderedB.
  eapply skv_trans; [apply skv_reorder, perm_swap|].
  apply skv_entry; [|apply skv_refl].
  apply skv_reorder, perm_swap.
Qed.

Lemma canonicalStringify_order_invariant_witness :
  canonicalStringify codeUnitCompare reorderedA
  = canonicalStringify codeUnitCompare reorderedB.
Proof.
  exact (proj2 (proj2
           (canonicalStringify_order_invariant codeUnitCompare (fun _ => True)
              (fun a b _ _ => codeUnitCompare_total a b)
              (fun a b c _ _ _ => codeUnitCompare_trans a b c)
              (fun a b _ _ => codeUnitCompare_antisym a b)))
           reorderedA reorderedB reorderedA_wf reordered_sameKeyValues).
Defined.

(** C5 (the claim as stated fails).  The object [{B: 2, a: 1}]: the
    collation of the host puts [a] before [B], the order of code points
    puts [B] (66) before [a] (97). *)
Lemma canonicalStringify_not_code_point_order :
  canonicalStringify localeCompareAlnum (JObject [("B", JNumber 2); ("a", JNumber 1)])
  = "{" +:+ dquote +:+ "a" +:+ dquote +:+ ":1," +:+ dquote +:+ "B" +:+ dquote +:+ ":2}"
  /\ outputKeys localeCompareAlnum [("B", JNumber 2); ("a", JNumber 1)] = ["a"; "B"]
  /\ ~ StronglySorted (fun a b => codeUnitCompare a b <= 0) ["a"; "B"].
Proof.
  split; [reflexivity|]. split; [reflexivity|].
  intros Hs. apply StronglySorted_inv in Hs as [_ Hall].
  apply List.Forall_cons_iff in Hall as [Hle _].
  vm_compute in Hle. apply Hle. reflexivity.
Qed.

End Canonical.

(** ** UTF-8 encoding of a JavaScript string *)

Module Utf8.

(** A string in full: its UTF-16 code units. *)
Definition units (s : string) : list Z := List.map Js.code (Js.chars s).

Definition isHighSurrogate (u : Z) : bool := (55296 <=? u) && (u <=? 56319).
Definition isLowSurrogate (u : Z) : bool := (56320 <=? u) && (u <=? 57343).

Definition encodeCodePoint (cp : Z) : list Z :=
  if cp <? 128 then [cp]
  else if cp <? 2048 then [192 + cp / 64; 128 + cp mod 64]
  else if cp <? 65536 then
    [224 + cp / 4096; 128 + (cp / 64) mod 64; 128 + cp mod 64]
  else
    [240 + cp / 262144; 128 + (cp / 4096) mod 64; 128 + (cp / 64) mod 64;
     128 + cp mod 64].

(** The replacement character U+FFFD, written for a lone surrogate. *)
Definition replacement : list Z := [239; 191; 189].

(** [new TextEncoder().encode(s)], which is also
    [Buffer.from(s, 'utf8')]: surrogate pairs are combined, lone
    surrogates are replaced. *)
Fixpoint encode (s : list Z) : list Z :=
  match s with
  | [] => []
  | u :: rest =>
      if isHighSurrogate u then
        match rest with
        | v :: rest' =>
            if isLowSurrogate v
            then encodeCodePoint (65536 + (u - 55296) * 1024 + (v - 56320)) ++ encode rest'
            else replacement ++ encode rest
        | [] => replacement
        end
      else if isLowSurrogate u then replacement ++ encode rest
      else encodeCodePoint u ++ encode rest
  end.

(** Two lower-case hexadecimal digits per byte. *)
Definition hexOfByte (b : Z) : list ascii :=
  [Canonical.hexChar (b / 16); Canonical.hexChar (b mod 16)].

Definition hexOfBytes (bytes : list Z) : list ascii :=
  List.concat (List.map hexOfByte bytes).

Example encode_ex :
  encode (units "A") = [65]
  /\ encode [233] = [195; 169]
  /\ encode [8364] = [226; 130; 172]
  /\ encode [55357; 56832] = [240; 159; 152; 128]
  /\ encode [55357] = replacement.
Proof. repeat split; reflexivity. Qed.


(** *** Bytes and hexadecimal digits *)

Definition isByte (b : Z) : Prop := 0 <= b < 256.
Definition isCodeUnit (u : Z) : Prop := 0 <= u < 65536.

Lemma encodeCodePoint_bytes (cp : Z) :
  0 <= cp < 1114112 -> Forall isByte (encodeCodePoint cp).
Proof.
  intros Hcp. unfold encodeCodePoint, isByte.
  destruct (Z.ltb_spec cp 128); [repeat constructor; lia|].
  destruct (Z.ltb_spec cp 2048).
  { pose proof (Z.div_lt_upper_bound cp 64 32 ltac:(lia) ltac:(lia)).
    pose proof (Z.div_pos cp 64 ltac:(lia) ltac:(lia)).
    pose proof (Z.mod_pos_bound cp 64 ltac:(lia)).
    repeat constructor; lia. }
  destruct (Z.ltb_spec cp 65536).
  { pose proof (Z.div_lt_upper_bound cp 4096 16 ltac:(lia) ltac:(lia)).
    pose proof (Z.div_pos cp 4096 ltac:(lia) ltac:(lia)).
    pose proof (Z.mod_pos_bound (cp / 64) 64 ltac:(lia)).
    pose proof (Z.mod_pos_bound cp 64 ltac:(lia)).
    repeat constructor; lia. }
  pose proof (Z.div_lt_upper_bound cp 262144 5 ltac:(lia) ltac:(lia)).
  pose proof (Z.div_pos cp 262144 ltac:(lia) ltac:(lia)).
  pose proof (Z.mod_pos_bound (cp / 4096) 64 ltac:(lia)).
  pose proof (Z.mod_pos_bound (cp / 64) 64 ltac:(lia)).
  pose proof (Z.mod_pos_bound cp 64 ltac:(lia)).
  repeat constructor; lia.
Qed.

Lemma replacement_bytes : Forall isByte replacement.
Proof. unfold replacement, isByte. repeat constructor; lia. Qed.

Lemma encode_bytes_bounded (n : nat) :
  forall s, (length s <= n)%nat -> Forall isCodeUnit s -> Forall isByte (encode s).
Proof.
  induction n as [|n IH]; intros s Hlen Hunits.
  - destruct s; [constructor | simpl in Hlen; lia].
  - destruct s as [|u rest]; [constructor|].
    inversion Hunits as [|? ? Hu Hrest]; subst. simpl in Hlen.
    cbn [encode]. unfold isHighSurrogate, isLowSurrogate.
    destruct ((55296 <=? u) && (u <=? 56319)) eqn:Hhigh.
    + apply andb_true_iff in Hhigh. rewrite !Z.leb_le in Hhigh.
      destruct rest as [|v rest']; [apply replacement_bytes|].
      inversion Hrest as [|? ? Hv Hrest']; subst.
      destruct ((56320 <=? v) && (v <=? 57343)) eqn:Hlow.
      * apply andb_true_iff in Hlow. rewrite !Z.leb_le in Hlow.
        apply Forall_app. split; [apply encodeCodePoint_bytes; lia|].
        apply IH; [simpl in Hlen; lia | exact Hrest'].
      * apply Forall_app. split; [apply replacement_bytes|].
        apply IH; [lia | exact Hrest].
    + destruct ((56320 <=? u) && (u <=? 57343)).
      * apply Forall_app. split; [apply replacement_bytes | apply IH; [lia | exact Hrest]].
      * apply Forall_app. split; [apply encodeCodePoint_bytes; unfold isCodeUnit in Hu; lia|].
        apply IH; [lia | exact Hrest].
Qed.

Lemma encode_bytes (s : list Z) : Forall isCodeUnit s -> Forall isByte (encode s).
Proof. apply (encode_bytes_bounded (length s)). reflexivity. Qed.

Lemma hexChar_hex (v : Z) :
  0 <= v < 16 ->
  Js.isHexDigit (Canonical.hexChar v) = true
  /\ Js.lowerChar (Canonical.hexChar v) = Canonical.hexChar v.
Proof.
  intros Hv.
  assert (Hcases : v = 0 \/ v = 1 \/ v = 2 \/ v = 3 \/ v = 4 \/ v = 5 \/ v = 6 \/ v = 7
                   \/ v = 8 \/ v = 9 \/ v = 10 \/ v = 11 \/ v = 12 \/ v = 13 \/ v = 14
                   \/ v = 15) by lia.
  repeat (destruct Hcases as [-> | Hcases]; [split; reflexivity|]).
  subst. split; reflexivity.
Qed.

Lemma hexOfBytes_length (bytes : list Z) :
  length (hexOfBytes bytes) = (2 * length bytes)%nat.
Proof.
  unfold hexOfBytes. induction bytes as [|b bytes IH]; simpl; [reflexivity|].
  simpl in IH. rewrite IH. lia.
Qed.

Lemma hexOfBytes_hex (bytes : list Z) :
  Forall isByte bytes -> forallb Js.isHexDigit (hexOfBytes bytes) = true.
Proof.
  unfold hexOfBytes, isByte. induction 1 as [|b bytes Hb Hbytes IH]; simpl; [reflexivity|].
  pose proof (Z.div_lt_upper_bound b 16 16 ltac:(lia) ltac:(lia)).
  pose proof (Z.div_pos b 16 ltac:(lia) ltac:(lia)).
  pose proof (Z.mod_pos_bound b 16 ltac:(lia)).
  rewrite (proj1 (hexChar_hex (b / 16) ltac:(lia))).
  rewrite (proj1 (hexChar_hex (b mod 16) ltac:(lia))).
  exact IH.
Qed.
End Utf8.

(** ** The functions of the viem library the sources call *)

Module Viem.

Section Address.

(** [checksumAddress]: the mixed-case spelling of an address that its
    Keccak-256 digest fixes.  The digest is computed by the library. *)
Variable checksumAddress : string -> string.

(** [isAddress(address)], in the strict mode it defaults to: the shape
    [/^0x[a-fA-F0-9]{40}$/]; an address without capitals passes; any
    other spelling must be its own checksum spelling. *)
Definition isAddress (address : string) : bool :=
  if negb (Js.isHexOfLength 40 address) then false
  else if Js.strEq (Js.toLowerCase address) address then true
  else Js.strEq (checksumAddress address) address.

End Address.

(** [stringToHex(value)]: the UTF-8 bytes in hexadecimal after [0x]. *)
Definition stringToHex (value : list Z) : string :=
  "0x" +:+ Js.ofChars (Utf8.hexOfBytes (Utf8.encode value)).

(** [String.prototype.padStart(n, '0')]. *)
Definition padStart0 (n : nat) (l : list ascii) : list ascii :=
  List.repeat "0"%char (n - length l) ++ l.

(** [pad(hex, {size})] on a hexadecimal string ([padHex]): with no
    direction given the zeros go in front; a value longer than [size]
    bytes throws [SizeExceedsPaddingSizeError], here [None]. *)
Definition pad (hex_ : string) (size : nat) : option string :=
  let hex := drop 2 (Js.chars hex_) in
  if (2 * size <? length hex)%nat then None
  else Some ("0x" +:+ Js.ofChars (padStart0 (2 * size) hex)).

End Viem.

(** ** The invoice protocol (shared/invoice.ts) *)

Module Invoice.

(** [createInvoiceMemo(invoiceId)]: [pad(stringToHex(invoiceId), { size: 32 })].
    The identifier is given by its UTF-16 code units; [None] is the
    [SizeExceedsPaddingSizeError] of [pad]. *)
Definition createInvoiceMemo (invoiceId : list Z) : option string :=
  Viem.pad (Viem.stringToHex invoiceId) 32.

(** [parseAmountString(value, field)]: [None] is the thrown
    [Invalid <field> format]. *)
Definition parseAmountString (value : string) : option Z :=
  if negb (Js.isDigits value) then None else Js.BigInt value.


(** *** Digit strings *)

(** The number a run of decimal digits denotes. *)
Definition decimalValue (l : list ascii) : Z :=
  fold_left (fun acc c => 10 * acc + (Js.code c - 48)) l 0.

Lemma digit_class (c : ascii) :
  Js.isDigit c = true ->
  Js.isWhiteSpace c = false
  /\ (Js.code c =? 43) = false /\ (Js.code c =? 45) = false
  /\ (Js.code c =? 120) || (Js.code c =? 88) = false
  /\ (Js.code c =? 111) || (Js.code c =? 79) = false
  /\ (Js.code c =? 98) || (Js.code c =? 66) = false
  /\ Js.digitValue 10 c = Some (Js.code c - 48).
Proof.
  destruct c as [[] [] [] [] [] [] [] []]; intros H; vm_compute in H; try discriminate H;
    vm_compute; repeat split; reflexivity.
Qed.

Lemma digit_range (c : ascii) : Js.isDigit c = true -> 0 <= Js.code c - 48 <= 9.
Proof.
  unfold Js.isDigit, Js.inRange. rewrite andb_true_iff, !Z.leb_le. lia.
Qed.

Lemma digitsValue_digits (l : list ascii) :
  forall acc,
    forallb Js.isDigit l = true ->
    Js.digitsValue 10 acc l = Some (fold_left (fun acc c => 10 * acc + (Js.code c - 48)) l acc).
Proof.
  induction l as [|c l IH]; simpl; intros acc Hall; [reflexivity|].
  apply andb_true_iff in Hall. destruct Hall as [Hc Hl].
  destruct (digit_class c Hc) as (_ & _ & _ & _ & _ & _ & Hvalue).
  rewrite Hvalue. apply IH. exact Hl.
Qed.

Lemma fold_digits_nonneg (l : list ascii) :
  forall acc,
    0 <= acc -> forallb Js.isDigit l = true ->
    0 <= fold_left (fun acc c => 10 * acc + (Js.code c - 48)) l acc.
Proof.
  induction l as [|c l IH]; simpl; intros acc Hacc Hall; [exact Hacc|].
  apply andb_true_iff in Hall. destruct Hall as [Hc Hl].
  apply IH; [|exact Hl]. pose proof (digit_range c Hc). lia.
Qed.

Lemma trimEndChars_digits (l : list ascii) :
  forallb Js.isDigit l = true -> Js.trimEndChars l = l.
Proof.
  induction l as [|c l IH]; simpl; [reflexivity|].
  intros Hall. apply andb_true_iff in Hall. destruct Hall as [Hc Hl].
  rewrite (IH Hl). destruct l as [|k l']; [|reflexivity].
  destruct (digit_class c Hc) as (Hws & _). rewrite Hws. reflexivity.
Qed.

Lemma ofChars_chars (s : string) : Js.ofChars (Js.chars s) = s.
Proof. induction s as [|c s IH]; simpl; [reflexivity | rewrite IH; reflexivity]. Qed.

(** [BigInt] of a digit string is the number its digits denote. *)
Lemma BigInt_digits (s : string) :
  Js.isDigits s = true -> Js.BigInt s = Some (decimalValue (Js.chars s)).
Proof.
  unfold Js.isDigits. rewrite andb_true_iff, negb_true_iff, bool_decide_eq_false.
  intros [Hne Hall]. destruct s as [|c0 s]; [congruence|].
  assert (Htrim : Js.trim (String c0 s) = String c0 s).
  { unfold Js.trim. simpl in Hall. apply andb_true_iff in Hall. destruct Hall as [Hc0 Hs].
    destruct (digit_class c0 Hc0) as (Hws & _).
    cbn [Js.trimStart]. rewrite Hws.
    rewrite trimEndChars_digits; [apply ofChars_chars|].
    simpl. rewrite Hc0, Hs. reflexivity. }
  unfold Js.BigInt. rewrite Htrim. cbn [Js.chars]. simpl in Hall.
  apply andb_true_iff in Hall. destruct Hall as [Hc0 Hs].
  destruct (digit_class c0 Hc0) as (_ & Hplus & Hminus & _).
  rewrite Hplus, Hminus.
  assert (Hparse : Js.parseDigits 10 (c0 :: Js.chars s)
                   = Some (decimalValue (c0 :: Js.chars s))).
  { unfold Js.parseDigits, decimalValue. apply digitsValue_digits.
    simpl. rewrite Hc0, Hs. reflexivity. }
  destruct (Js.chars s) as [|c1 digits] eqn:Hchars; [exact Hparse|].
  simpl in Hs. apply andb_true_iff in Hs. destruct Hs as [Hc1 _].
  destruct (digit_class c1 Hc1) as (_ & _ & _ & Hx & Ho & Hb & _).
  rewrite Hx, Ho, Hb, !andb_false_r. exact Hparse.
Qed.

(** X5.  [parseAmountString] accepts exactly the non-empty strings of
    decimal digits, and what it returns is the number they denote,
    which is never negative. *)
Theorem parseAmountString_accepts_digit_strings (value : string) :
  (Js.isDigits value = true ->
     parseAmountString value = Some (decimalValue (Js.chars value)))
  /\ (Js.isDigits value = false -> parseAmountString value = None)
  /\ (forall n, parseAmountString value = Some n -> 0 <= n).
Proof.
  unfold parseAmountString. destruct (Js.isDigits value) eqn:Hdigits; simpl.
  - rewrite (BigInt_digits _ Hdigits). split; [reflexivity|]. split; [discriminate|].
    intros n [= <-]. unfold decimalValue. apply fold_digits_nonneg; [lia|].
    unfold Js.isDigits in Hdigits. apply andb_true_iff in Hdigits. apply Hdigits.
  - split; [discriminate|]. split; [reflexivity | discriminate].
Qed.

Lemma parseAmountString_accepts_digit_strings_witness :
  parseAmountString "285000000" = Some (decimalValue (Js.chars "285000000"))
  /\ parseAmountString "12a" = None.
Proof.
  split.
  - apply (proj1 (parseAmountString_accepts_digit_strings "285000000")). reflexivity.
  - apply (proj1 (proj2 (parseAmountString_accepts_digit_strings "12a"))). reflexivity.
Defined.

Record InvoiceLineItemV1 := {
  itemId : option string;
  title : string;
  category : option string;
  quantity : option Z;
  unitAmount : option string;
  totalAmount : string
}.

(** [InvoiceV1]: the unsigned invoice and its [merchantSig]. *)
Record InvoiceV1 := {
  version : string;
  invoiceId : string;
  issuedAt : Z;
  dueAt : Z;
  chainId : Z;
  merchant : string;
  recipient : string;
  payer : option string;
  token : string;
  amount : string;
  memo : string;
  description : string;
  merchantReference : option string;
  purpose : option string;
  lineItems : option (list InvoiceLineItemV1);
  metadata : option (list (string * Canonical.Json));
  merchantSig : string
}.

(** *** Values of unknown type

    What [JSON.parse] (or a caller) hands to the validators: a
    [Canonical.Json]; [undefined], the value of a property that is
    absent, is [None]. *)

Import Canonical.

(** [typeof v === 'object' && v !== null]. *)
Definition isObject (v : Json) : bool :=
  match v with
  | JArray _ | JObject _ => true
  | _ => false
  end.

(** Truthiness of a value, and of a property that may be absent. *)
Definition truthyValue (v : Json) : bool :=
  match v with
  | JNull => false
  | JBool b => b
  | JNumber n => negb (n =? 0)
  | JString s => Js.truthy s
  | JArray _ | JObject _ => true
  end.

Definition truthyProp (v : option Json) : bool :=
  match v with
  | Some v => truthyValue v
  | None => false
  end.

Fixpoint lookupKey (name : string) (entries : list (string * Json)) : option Json :=
  match entries with
  | [] => None
  | (key, v) :: rest => if Js.strEq key name then Some v else lookupKey name rest
  end.

(** [v[name]] for a property name that is not an index or [length]. *)
Definition prop (v : Json) (name : string) : option Json :=
  match v with
  | JObject entries => lookupKey name entries
  | _ => None
  end.

(** [String(v)], the coercion a regular expression applies to the
    argument of [test]. *)
Fixpoint toStr (v : Json) : string :=
  match v with
  | JNull => "null"
  | JBool true => "true"
  | JBool false => "false"
  | JNumber n => stringifyNumber n
  | JString s => s
  | JArray items =>
      join "," (List.map (fun item => match item with
                                      | JNull => EmptyString
                                      | _ => toStr item
                                      end) items)
  | JObject _ => "[object Object]"
  end.

(** [/^[0-9]+$/.test(v)]. *)
Definition testDigits (v : Json) : bool := Js.isDigits (toStr v).

(** [parseAmountString(v, field)] on a value of unknown type: once the
    digits test has passed, [BigInt(v)] is the number the digits of
    [String(v)] denote (for a string, a number and an array alike). *)
Definition parseAmountValue (v : Json) : option Z :=
  if negb (testDigits v) then None else Js.BigInt (toStr v).

(** [sumLineItemTotals(lineItems)]: [None] when [parseAmountString]
    throws on an item. *)
Fixpoint sumLineItemTotals (lineItems : list Json) (total : Z) : option Z :=
  match lineItems with
  | [] => Some total
  | item :: rest =>
      match prop item "totalAmount" with
      | Some v =>
          match parseAmountValue v with
          | Some n => sumLineItemTotals rest (total + n)
          | None => None
          end
      | None => None
      end
  end.

(** [isPrimitiveMetadata(value)]. *)
Definition isPrimitiveMetadata (v : Json) : bool :=
  match v with
  | JString _ | JNumber _ | JBool _ => true
  | _ => false
  end.

(** [Object.values(v)] of an object or an array. *)
Definition objectValues (v : Json) : list Json :=
  match v with
  | JObject entries => List.map snd entries
  | JArray items => items
  | _ => []
  end.

(** The errors [assertInvoiceV1] throws, one constructor per [throw]. *)
Inductive InvoiceError :=
| NotAnObject
| MissingOrInvalidField (field : string)
| UnsupportedVersion
| InvalidTimestampsOrChainId
| DueAtNotAfterIssuedAt
| InvalidMerchantAddress
| InvalidRecipientAddress
| InvalidPayerAddress
| InvalidTokenAddress
| InvalidAmountFormat
| InvalidMemoFormat
| InvalidMerchantReference
| InvalidPurpose
| InvalidLineItems
| InvalidLineItemShape
| InvalidLineItemTitle
| InvalidLineItemTotalAmount
| InvalidLineItemUnitAmount
| InvalidLineItemQuantity
| AmountNotSumOfLineItems
| InvalidMetadata
| MetadataValueNotPrimitive.

Definition INVOICE_VERSION : string := "tempo.invoice.v1".

Definition requiredStringFields : list string :=
  ["version"; "invoiceId"; "merchant"; "recipient"; "token"; "amount"; "memo";
   "description"; "merchantSig"].

(** The loop over [requiredStringFields]: the first field that is not a
    non-empty string. *)
Fixpoint firstMissingField (invoice : Json) (fields : list string) : option string :=
  match fields with
  | [] => None
  | field :: rest =>
      match prop invoice field with
      | Some (JString s) =>
          if (String.length s =? 0)%nat then Some field else firstMissingField invoice rest
      | _ => Some field
      end
  end.

Lemma firstMissingField_None (invoice : Json) (fields : list string) :
  firstMissingField invoice fields = None ->
  forall field, field ∈ fields ->
    exists s, prop invoice field = Some (JString s) /\ s <> EmptyString.
Proof.
  induction fields as [|f fields IH]; simpl; intros Hnone field Hin.
  - inversion Hin.
  - destruct (prop invoice f) as [[| | |s| |]|] eqn:Hprop; try discriminate Hnone.
    destruct (String.length s =? 0)%nat eqn:Hlen; [discriminate Hnone|].
    apply elem_of_cons in Hin. destruct Hin as [-> | Hin]; [|apply IH; assumption].
    exists s. split; [exact Hprop|]. intros ->. discriminate Hlen.
Qed.

(** The text of a property that the loop has found to be a string. *)
Definition stringProp (invoice : Json) (field : string) : string :=
  match prop invoice field with
  | Some (JString s) => s
  | _ => EmptyString
  end.

(** The body of the loop over [invoice.lineItems], for one item. *)
Definition checkLineItem (lineItem : Json) : option InvoiceError :=
  if negb (isObject lineItem) then Some InvalidLineItemShape
  else if match prop lineItem "title" with
          | Some (JString s) => negb (Js.truthy s)
          | _ => true
          end
  then Some InvalidLineItemTitle
  else if match prop lineItem "totalAmount" with
          | Some v => negb (truthyValue v) || negb (testDigits v)
          | None => true
          end
  then Some InvalidLineItemTotalAmount
  else if match prop lineItem "unitAmount" with
          | Some v => truthyValue v && negb (testDigits v)
          | None => false
          end
  then Some InvalidLineItemUnitAmount
  else if match prop lineItem "quantity" with
          | Some (JNumber n) => n <=? 0
          | Some _ => true
          | None => false
          end
  then Some InvalidLineItemQuantity
  else None.

Fixpoint checkLineItems (lineItems : list Json) : option InvoiceError :=
  match lineItems with
  | [] => None
  | lineItem :: rest =>
      match checkLineItem lineItem with
      | Some e => Some e
      | None => checkLineItems rest
      end
  end.

Section Assert.

Variable checksumAddress : string -> string.

(** [!v || !isAddress(v)] for a property already known to be a string. *)
Definition badAddress (v : string) : bool :=
  negb (Js.truthy v) || negb (Viem.isAddress checksumAddress v).

(** [assertInvoiceV1(value)]: [inl] is the error thrown, [inr tt] the
    normal return.  A payer that is neither absent, falsy nor a string
    is rejected (by the payer error, or for an array by an error of the
    address library). *)
Definition assertInvoiceV1 (value : Json) : InvoiceError + unit :=
  if negb (isObject value) then inl NotAnObject
  else
    match firstMissingField value requiredStringFields with
    | Some field => inl (MissingOrInvalidField field)
    | None =>
        if negb (Js.strEq (stringProp value "version") INVOICE_VERSION)
        then inl UnsupportedVersion
        else
          match prop value "issuedAt", prop value "dueAt", prop value "chainId" with
          | Some (JNumber issuedAt_), Some (JNumber dueAt_), Some (JNumber _) =>
              if dueAt_ <=? issuedAt_ then inl DueAtNotAfterIssuedAt
              else if badAddress (stringProp value "merchant") then inl InvalidMerchantAddress
              else if badAddress (stringProp value "recipient")
              then inl InvalidRecipientAddress
              else if match prop value "payer" with
                      | Some (JString payer_) =>
                          Js.truthy payer_ && negb (Viem.isAddress checksumAddress payer_)
                      | Some v => truthyValue v
                      | None => false
                      end
              then inl InvalidPayerAddress
              else if badAddress (stringProp value "token") then inl InvalidTokenAddress
              else
                match Invoice.parseAmountString (stringProp value "amount") with
                | None => inl InvalidAmountFormat
                | Some amountValue =>
                    if negb (Js.isHexOfLength 64 (stringProp value "memo"))
                    then inl InvalidMemoFormat
                    else if match prop value "merchantReference" with
                            | Some (JString _) => false
                            | v => truthyProp v
                            end
                    then inl InvalidMerchantReference
                    else if match prop value "purpose" with
                            | Some (JString _) => false
                            | v => truthyProp v
                            end
                    then inl InvalidPurpose
                    else
                      let lineItemsError :=
                        match prop value "lineItems" with
                        | None => None
                        | Some (JArray lineItems_) =>
                            match checkLineItems lineItems_ with
                            | Some e => Some e
                            | None =>
                                if (0 <? length lineItems_)%nat
                                then
                                  match sumLineItemTotals lineItems_ 0 with
                                  | Some lineItemTotal =>
                                      if negb (lineItemTotal =? amountValue)
                                      then Some AmountNotSumOfLineItems
                                      else None
                                  | None => Some InvalidLineItemTotalAmount
                                  end
                                else None
                            end
                        | Some _ => Some InvalidLineItems
                        end in
                      match lineItemsError with
                      | Some e => inl e
                      | None =>
                          match prop value "metadata" with
                          | None => inr tt
                          | Some metadata_ =>
                              if negb (isObject metadata_) then inl InvalidMetadata
                              else if forallb isPrimitiveMetadata (objectValues metadata_)
                              then inr tt
                              else inl MetadataValueNotPrimitive
                          end
                      end
                end
          | _, _, _ => inl InvalidTimestampsOrChainId
          end
    end.

End Assert.

(** *** An invoice as a value

    The object a typed invoice is on the wire: optional fields that are
    absent are left out. *)

Definition optionalEntry {A : Type} (key : string) (f : A -> Json) (v : option A)
  : list (string * Json) :=
  match v with
  | Some a => [(key, f a)]
  | None => []
  end.

Definition lineItemJson (item : InvoiceLineItemV1) : Json :=
  JObject (optionalEntry "id" JString (itemId item)
           ++ [("title", JString (title item))]
           ++ optionalEntry "category" JString (category item)
           ++ optionalEntry "quantity" JNumber (quantity item)
           ++ optionalEntry "unitAmount" JString (unitAmount item)
           ++ [("totalAmount", JString (totalAmount item))]).

Definition invoiceJson (invoice : InvoiceV1) : Json :=
  JObject ([("version", JString (version invoice));
            ("invoiceId", JString (invoiceId invoice));
            ("issuedAt", JNumber (issuedAt invoice));
            ("dueAt", JNumber (dueAt invoice));
            ("chainId", JNumber (chainId invoice));
            ("merchant", JString (merchant invoice));
            ("recipient", JString (recipient invoice))]
           ++ optionalEntry "payer" JString (payer invoice)
           ++ [("token", JString (token invoice));
               ("amount", JString (amount invoice));
               ("memo", JString (memo invoice));
               ("description", JString (description invoice))]
           ++ optionalEntry "merchantReference" JString (merchantReference invoice)
           ++ optionalEntry "purpose" JString (purpose invoice)
           ++ optionalEntry "lineItems" (fun items => JArray (List.map lineItemJson items))
                (lineItems invoice)
           ++ optionalEntry "metadata" JObject (metadata invoice)
           ++ [("merchantSig", JString (merchantSig invoice))]).


(** *** The signed message *)

Section Message.

Variable localeCompare : string -> string -> Z.

(** [createInvoiceMessage(invoice)]: sixteen fields joined by [|]. *)
Definition createInvoiceMessage (invoice : InvoiceV1) : string :=
  join "|"
    [ version invoice;
      invoiceId invoice;
      stringifyNumber (issuedAt invoice);
      stringifyNumber (dueAt invoice);
      stringifyNumber (chainId invoice);
      Js.toLowerCase (merchant invoice);
      Js.toLowerCase (recipient invoice);
      Js.toLowerCase (default EmptyString (payer invoice));
      Js.toLowerCase (token invoice);
      amount invoice;
      Js.toLowerCase (memo invoice);
      description invoice;
      default EmptyString (merchantReference invoice);
      default EmptyString (purpose invoice);
      canonicalStringify localeCompare
        (JArray (List.map lineItemJson (default [] (lineItems invoice))));
      canonicalStringify localeCompare (JObject (default [] (metadata invoice))) ].

(** [verifyMessage({ address, message, signature })] of the signature
    library. *)
Variable verifyMessage : string -> string -> string -> bool.

(** [verifyInvoiceSignature(invoice)]. *)
Definition verifyInvoiceSignature (invoice : InvoiceV1) : bool :=
  verifyMessage (merchant invoice) (createInvoiceMessage invoice) (merchantSig invoice).

End Message.

(** The invoice with three of its text fields replaced. *)
Definition withTexts (invoice : InvoiceV1) (description_ : string)
    (merchantReference_ purpose_ : option string) : InvoiceV1 :=
  {| version := version invoice;
     invoiceId := invoiceId invoice;
     issuedAt := issuedAt invoice;
     dueAt := dueAt invoice;
     chainId := chainId invoice;
     merchant := merchant invoice;
     recipient := recipient invoice;
     payer := payer invoice;
     token := token invoice;
     amount := amount invoice;
     memo := memo invoice;
     description := description_;
     merchantReference := merchantReference_;
     purpose := purpose_;
     lineItems := lineItems invoice;
     metadata := metadata invoice;
     merchantSig := merchantSig invoice |}.

Lemma append_assoc (a b c : string) : (a +:+ b) +:+ c = a +:+ (b +:+ c).
Proof.
  induction a as [|x a IH]; [reflexivity|].
  change (String x ((a +:+ b) +:+ c) = String x (a +:+ (b +:+ c))). rewrite IH. reflexivity.
Qed.

Lemma append_longer (a b : string) : a +:+ "|" +:+ b <> a.
Proof.
  intros H. apply (f_equal String.length) in H.
  assert (Hlen : forall x y, String.length (x +:+ y) = (String.length x + String.length y)%nat).
  { intros x y. induction x as [|c0 x IH]; [reflexivity|].
    change (S (String.length (x +:+ y)) = S (String.length x + String.length y)).
    rewrite IH. reflexivity. }
  rewrite !Hlen in H. change (String.length "|") with 1%nat in H. lia.
Qed.

(** X9.  The fields of the signed message are joined by [|] without
    escaping, so the message does not determine the invoice: moving the
    text after a [|] of the description into the merchant reference, and
    the reference into the purpose, gives a different invoice with the
    same message, and signature verification answers the same for both. *)
Theorem createInvoiceMessage_not_injective
    (localeCompare : string -> string -> Z)
    (verifyMessage : string -> string -> string -> bool)
    (invoice : InvoiceV1) (a b c p : string) :
  let first := withTexts invoice (a +:+ "|" +:+ b) (Some c) (Some p) in
  let second := withTexts invoice a (Some b) (Some (c +:+ "|" +:+ p)) in
  first <> second
  /\ createInvoiceMessage localeCompare first = createInvoiceMessage localeCompare second
  /\ verifyInvoiceSignature localeCompare verifyMessage first
     = verifyInvoiceSignature localeCompare verifyMessage second.
Proof.
  intros first second.
  assert (Hmessage : createInvoiceMessage localeCompare first
                     = createInvoiceMessage localeCompare second).
  { unfold createInvoiceMessage, first, second, withTexts. cbn [description merchantReference
      purpose version invoiceId issuedAt dueAt chainId merchant recipient payer token amount
      memo lineItems metadata default from_option id join].
    rewrite !append_assoc. reflexivity. }
  split; [|split; [exact Hmessage|]].
  - intros Heq. apply (f_equal description) in Heq. simpl in Heq.
    exact (append_longer a b Heq).
  - unfold verifyInvoiceSignature. rewrite Hmessage. reflexivity.
Qed.

(** The invoice with its addresses and memo replaced. *)
Definition withAddresses (invoice : InvoiceV1) (merchant_ recipient_ token_ memo_ : string)
    (payer_ : option string) : InvoiceV1 :=
  {| version := version invoice;
     invoiceId := invoiceId invoice;
     issuedAt := issuedAt invoice;
     dueAt := dueAt invoice;
     chainId := chainId invoice;
     merchant := merchant_;
     recipient := recipient_;
     payer := payer_;
     token := token_;
     amount := amount invoice;
     memo := memo_;
     description := description invoice;
     merchantReference := merchantReference invoice;
     purpose := purpose invoice;
     lineItems := lineItems invoice;
     metadata := metadata invoice;
     merchantSig := merchantSig invoice |}.

Lemma lowerChar_twice (c : ascii) : Js.lowerChar (Js.lowerChar c) = Js.lowerChar c.
Proof. destruct c as [[] [] [] [] [] [] [] []]; reflexivity. Qed.

Lemma toLowerCase_twice (s : string) : Js.toLowerCase (Js.toLowerCase s) = Js.toLowerCase s.
Proof.
  induction s as [|c s IH]; simpl; [reflexivity|]. rewrite lowerChar_twice, IH. reflexivity.
Qed.

(** X10.  The signed message takes the merchant, recipient, payer and
    token addresses and the memo in lower case, and treats an absent
    payer as the empty one: an invoice and its copy with these five
    fields lower-cased (an absent payer made the empty string) have the
    same message. *)
Theorem createInvoiceMessage_ignores_address_case
    (localeCompare : string -> string -> Z) (invoice : InvoiceV1) :
  createInvoiceMessage localeCompare
    (withAddresses invoice
       (Js.toLowerCase (merchant invoice)) (Js.toLowerCase (recipient invoice))
       (Js.toLowerCase (token invoice)) (Js.toLowerCase (memo invoice))
       (Some (Js.toLowerCase (default EmptyString (payer invoice)))))
  = createInvoiceMessage localeCompare invoice.
Proof.
  unfold createInvoiceMessage, withAddresses.
  cbn [description merchantReference purpose version invoiceId issuedAt dueAt chainId
       merchant recipient payer token amount memo lineItems metadata].
  change (default EmptyString (Some (Js.toLowerCase (default EmptyString (payer invoice)))))
    with (Js.toLowerCase (default EmptyString (payer invoice))).
  rewrite !toLowerCase_twice. reflexivity.
Qed.
End Invoice.

(** ** The serverless handlers (api/invoices.ts, api/index.ts) *)

Module Serverless.

(** [createInvoiceMemo(invoiceId)]:
    [hex = Buffer.from(invoiceId, 'utf8').toString('hex')], then
    [(hex + '0'.repeat(64)).slice(0, 64)] after [0x]. *)
Definition createInvoiceMemo (invoiceId : list Z) : string :=
  let hex := Utf8.hexOfBytes (Utf8.encode invoiceId) in
  let padded := take 64 (hex ++ List.repeat "0"%char 64) in
  "0x" +:+ Js.ofChars padded.

End Serverless.

(** ** Memo derivation: the two implementations compared *)

Module Memo.

(** The identifier of the repository's invoice tests. *)
Definition testInvoiceId : list Z := Utf8.units "INV-TEST-1".

(** An identifier of 33 bytes. *)
Definition longInvoiceId : list Z := Utf8.units "INV-0123456789-0123456789-0123456".

(** C2 (the code at the failing input).  On the identifier [INV-TEST-1]
    the shared module puts the zero bytes in front of the UTF-8 bytes and
    the serverless handler puts them behind, so the two memos differ; on
    an identifier of 33 bytes the shared module throws where the
    serverless handler truncates. *)
Theorem createInvoiceMemo_implementations_disagree :
  Invoice.createInvoiceMemo testInvoiceId
    = Some "0x00000000000000000000000000000000000000000000494e562d544553542d31"
  /\ Serverless.createInvoiceMemo testInvoiceId
    = "0x494e562d544553542d3100000000000000000000000000000000000000000000"
  /\ Invoice.createInvoiceMemo testInvoiceId
    <> Some (Serverless.createInvoiceMemo testInvoiceId)
  /\ Invoice.createInvoiceMemo longInvoiceId = None
  /\ Serverless.createInvoiceMemo longInvoiceId
    = "0x494e562d303132333435363738392d303132333435363738392d303132333435".
Proof.
  repeat split; try (vm_compute; reflexivity).
  vm_compute. discriminate.
Qed.


Lemma length_ofChars (l : list ascii) : String.length (Js.ofChars l) = length l.
Proof. induction l as [|c l IH]; simpl; [reflexivity | rewrite IH; reflexivity]. Qed.

Lemma ofChars_inj (l1 l2 : list ascii) : Js.ofChars l1 = Js.ofChars l2 -> l1 = l2.
Proof.
  intros H. rewrite <- (RateLimit.chars_ofChars l1), <- (RateLimit.chars_ofChars l2), H.
  reflexivity.
Qed.

Lemma forallb_repeat_zero (n : nat) : forallb Js.isHexDigit (List.repeat "0"%char n) = true.
Proof. induction n as [|n IH]; simpl; [reflexivity | exact IH]. Qed.

Lemma forallb_take {A : Type} (f : A -> bool) (n : nat) (l : list A) :
  forallb f l = true -> forallb f (take n l) = true.
Proof.
  revert n. induction l as [|x l IH]; intros [|n]; simpl; try reflexivity.
  rewrite !andb_true_iff. intros [Hx Hl]. split; [exact Hx | apply IH; exact Hl].
Qed.

(** A [0x] string of 64 hexadecimal digits passes the memo pattern. *)
Lemma memo_pattern (digits : list ascii) :
  length digits = 64%nat -> forallb Js.isHexDigit digits = true ->
  Js.isHexOfLength 64 ("0x" +:+ Js.ofChars digits) = true.
Proof.
  intros Hlen Hhex.
  change ("0x" +:+ Js.ofChars digits) with (String "0" (String "x" (Js.ofChars digits))).
  cbv beta iota delta [Js.isHexOfLength].
  rewrite length_ofChars, Hlen, RateLimit.chars_ofChars, Hhex.
  reflexivity.
Qed.

(** X6.  The serverless memo of every invoice id is [0x] followed by
    exactly 64 hexadecimal digits: it passes the memo pattern of the
    invoice validator, however long the id is. *)
Theorem serverless_memo_is_32_bytes (invoiceId : list Z) :
  Forall Utf8.isCodeUnit invoiceId ->
  Js.isHexOfLength 64 (Serverless.createInvoiceMemo invoiceId) = true.
Proof.
  intros Hunits. unfold Serverless.createInvoiceMemo. apply memo_pattern.
  - rewrite length_take, length_app, repeat_length. lia.
  - apply forallb_take. rewrite forallb_app, forallb_repeat_zero, andb_true_r.
    apply Utf8.hexOfBytes_hex, Utf8.encode_bytes. exact Hunits.
Qed.

Lemma serverless_memo_is_32_bytes_witness :
  Js.isHexOfLength 64 (Serverless.createInvoiceMemo longInvoiceId) = true.
Proof.
  apply (serverless_memo_is_32_bytes longInvoiceId).
  unfold longInvoiceId, Utf8.isCodeUnit. repeat constructor; vm_compute; congruence.
Defined.

Lemma shared_memo_unfold (invoiceId : list Z) :
  Invoice.createInvoiceMemo invoiceId
  = let hex := Utf8.hexOfBytes (Utf8.encode invoiceId) in
    if (64 <? length hex)%nat then None
    else Some ("0x" +:+ Js.ofChars (List.repeat "0"%char (64 - length hex) ++ hex)).
Proof.
  unfold Invoice.createInvoiceMemo, Viem.pad, Viem.stringToHex, Viem.padStart0.
  set (hex := Utf8.hexOfBytes (Utf8.encode invoiceId)).
  change (drop 2 (Js.chars ("0x" +:+ Js.ofChars hex))) with (Js.chars (Js.ofChars hex)).
  rewrite RateLimit.chars_ofChars. reflexivity.
Qed.

(** X7.  The shared memo derivation throws exactly when the UTF-8
    encoding of the id is longer than 32 bytes; whenever it returns, the
    memo is [0x] followed by exactly 64 hexadecimal digits. *)
Theorem shared_memo_rejects_long_ids (invoiceId : list Z) :
  Forall Utf8.isCodeUnit invoiceId ->
  (Invoice.createInvoiceMemo invoiceId = None
     <-> (32 < length (Utf8.encode invoiceId))%nat)
  /\ (forall memo, Invoice.createInvoiceMemo invoiceId = Some memo ->
        Js.isHexOfLength 64 memo = true).
Proof.
  intros Hunits. rewrite shared_memo_unfold. cbv zeta.
  pose proof (Utf8.hexOfBytes_length (Utf8.encode invoiceId)) as Hlen.
  destruct (Nat.ltb_spec 64 (length (Utf8.hexOfBytes (Utf8.encode invoiceId)))) as [Hlong|Hfits].
  - split; [split; [intros _; lia | reflexivity] | discriminate].
  - split; [split; [discriminate | lia]|].
    intros memo [= <-]. apply memo_pattern.
    + rewrite length_app, repeat_length. lia.
    + rewrite forallb_app, forallb_repeat_zero. simpl.
      apply Utf8.hexOfBytes_hex, Utf8.encode_bytes. exact Hunits.
Qed.

Lemma shared_memo_rejects_long_ids_witness :
  (Invoice.createInvoiceMemo longInvoiceId = None
     <-> (32 < length (Utf8.encode longInvoiceId))%nat)
  /\ (forall memo, Invoice.createInvoiceMemo longInvoiceId = Some memo ->
        Js.isHexOfLength 64 memo = true).
Proof.
  apply (shared_memo_rejects_long_ids longInvoiceId).
  unfold longInvoiceId, Utf8.isCodeUnit. repeat constructor; vm_compute; congruence.
Defined.

(** X8.  The two memo derivations agree on every id whose UTF-8
    encoding is exactly 32 bytes; they differ on every id of fewer than
    32 bytes that starts with an ASCII character from code 16 up (every
    printable one), the ids the servers generate among them. *)
Theorem memo_implementations_agree_only_at_32_bytes (invoiceId : list Z) :
  (length (Utf8.encode invoiceId) = 32%nat ->
     Invoice.createInvoiceMemo invoiceId = Some (Serverless.createInvoiceMemo invoiceId))
  /\ (forall first rest,
        invoiceId = first :: rest -> 16 <= first < 128 ->
        (length (Utf8.encode invoiceId) < 32)%nat ->
        Invoice.createInvoiceMemo invoiceId
        <> Some (Serverless.createInvoiceMemo invoiceId)).
Proof.
  rewrite shared_memo_unfold. cbv zeta. unfold Serverless.createInvoiceMemo.
  pose proof (Utf8.hexOfBytes_length (Utf8.encode invoiceId)) as Hlen.
  split.
  - intros H32. rewrite H32 in Hlen. rewrite Hlen. simpl.
    rewrite take_app_length' by (symmetry; exact Hlen). reflexivity.
  - intros first rest -> Hfirst Hshort.
    assert (Hencode : Utf8.encode (first :: rest) = first :: Utf8.encode rest).
    { cbn [Utf8.encode]. unfold Utf8.isHighSurrogate, Utf8.isLowSurrogate, Utf8.encodeCodePoint.
      replace (55296 <=? first) with false by (symmetry; apply Z.leb_gt; lia).
      replace (56320 <=? first) with false by (symmetry; apply Z.leb_gt; lia).
      replace (first <? 128) with true by (symmetry; apply Z.ltb_lt; lia).
      reflexivity. }
    rewrite Hencode in *.
    set (tail := Utf8.encode rest) in *.
    replace (64 <? length (Utf8.hexOfBytes (first :: tail)))%nat with false
      by (symmetry; apply Nat.ltb_ge; lia).
    change (Utf8.hexOfBytes (first :: tail))
      with (Canonical.hexChar (first / 16) :: Canonical.hexChar (first mod 16)
            :: Utf8.hexOfBytes tail) in *.
    set (digits := Utf8.hexOfBytes tail) in *.
    intros Heq.
    assert (Hlists : List.repeat "0"%char
                       (64 - length (Canonical.hexChar (first / 16)
                                     :: Canonical.hexChar (first mod 16) :: digits))
                     ++ Canonical.hexChar (first / 16)
                        :: Canonical.hexChar (first mod 16) :: digits
                     = take 64 ((Canonical.hexChar (first / 16)
                                 :: Canonical.hexChar (first mod 16) :: digits)
                                ++ List.repeat "0"%char 64)).
    { apply ofChars_inj.
      apply (f_equal (fun memo => match memo with
                                  | Some (String _ (String _ digits)) => digits
                                  | _ => EmptyString
                                  end)) in Heq.
      exact Heq. }
    clear Heq.
    destruct (64 - length (Canonical.hexChar (first / 16)
                           :: Canonical.hexChar (first mod 16) :: digits))%nat
      as [|padding] eqn:Hpad; [lia|].
    cbn [List.repeat app take] in Hlists. injection Hlists as Hhead _.
    assert (Hhigh : 1 <= first / 16 < 8).
    { pose proof (Z.div_lt_upper_bound first 16 8 ltac:(lia) ltac:(lia)).
      pose proof (Z.div_le_lower_bound first 16 1 ltac:(lia) ltac:(lia)). lia. }
    assert (Hcases : first / 16 = 1 \/ first / 16 = 2 \/ first / 16 = 3 \/ first / 16 = 4
                     \/ first / 16 = 5 \/ first / 16 = 6 \/ first / 16 = 7) by lia.
    repeat (destruct Hcases as [Hc | Hcases]; [rewrite Hc in Hhead; discriminate Hhead|]).
    rewrite Hcases in Hhead. discriminate Hhead.
Qed.

Lemma memo_implementations_agree_only_at_32_bytes_witness :
  Invoice.createInvoiceMemo (Utf8.units "INV-0123456789-0123456789-012345")
    = Some (Serverless.createInvoiceMemo (Utf8.units "INV-0123456789-0123456789-012345"))
  /\ Invoice.createInvoiceMemo testInvoiceId
     <> Some (Serverless.createInvoiceMemo testInvoiceId).
Proof.
  split.
  - apply (proj1 (memo_implementations_agree_only_at_32_bytes
                    (Utf8.units "INV-0123456789-0123456789-012345"))).
    reflexivity.
  - apply (proj2 (memo_implementations_agree_only_at_32_bytes testInvoiceId)
             73 (Utf8.units "NV-TEST-1")).
    + reflexivity.
    + lia.
    + vm_compute. lia.
Defined.
End Memo.

(** ** The merchant SDK (sdk/merchant.ts): settlement matching *)

Module MerchantSdk.

(** A decoded [TransferWithMemo] event of the TIP-20 ABI: the emitting
    contract and the event's arguments. *)
Record TransferWithMemo := {
  address : string;
  args_from : string;
  args_to : string;
  args_amount : Z;
  args_memo : string
}.

(** A raw log of a receipt: one that decodes as [TransferWithMemo], or
    any other log. *)
Inductive Log :=
| TransferWithMemoLog (eventLog : TransferWithMemo)
| OtherLog.

(** [parseEventLogs({ abi: Abis.tip20, logs, eventName: 'TransferWithMemo' })]:
    the logs that decode as the event, in the order given. *)
Fixpoint parseEventLogs (logs : list Log) : list TransferWithMemo :=
  match logs with
  | [] => []
  | TransferWithMemoLog eventLog :: rest => eventLog :: parseEventLogs rest
  | OtherLog :: rest => parseEventLogs rest
  end.

(** The predicate handed to [find]. *)
Definition eventMatches (invoice : Invoice.InvoiceV1) (expectedAmount : Z)
    (eventLog : TransferWithMemo) : bool :=
  Js.strEq (Js.toLowerCase (address eventLog)) (Js.toLowerCase (Invoice.token invoice))
  && Js.strEq (Js.toLowerCase (args_to eventLog)) (Js.toLowerCase (Invoice.recipient invoice))
  && (args_amount eventLog =? expectedAmount)
  && Js.strEq (Js.toLowerCase (args_memo eventLog)) (Js.toLowerCase (Invoice.memo invoice))
  && match Invoice.payer invoice with
     | Some payer =>
         if Js.truthy payer
         then Js.strEq (Js.toLowerCase (args_from eventLog)) (Js.toLowerCase payer)
         else true
     | None => true
     end.

(** [matchSettlement(invoice, logs)]: the outer [None] is the
    [SyntaxError] of [BigInt(invoice.amount)]; the inner option is the
    result of [find] ([undefined] when no event matches). *)
Definition matchSettlement (invoice : Invoice.InvoiceV1) (logs : list Log)
  : option (option TransferWithMemo) :=
  let transferLogs := parseEventLogs logs in
  match Js.BigInt (Invoice.amount invoice) with
  | None => None
  | Some expectedAmount => Some (List.find (eventMatches invoice expectedAmount) transferLogs)
  end.

(** *** The matching rule as the specification words it *)

Definition sameIgnoringCase (a b : string) : Prop :=
  Js.toLowerCase a = Js.toLowerCase b.

(** The five conditions; the payer is set when the field is present and
    not the empty string. *)
Definition satisfies (invoice : Invoice.InvoiceV1) (amount : Z)
    (eventLog : TransferWithMemo) : Prop :=
  sameIgnoringCase (address eventLog) (Invoice.token invoice)
  /\ sameIgnoringCase (args_to eventLog) (Invoice.recipient invoice)
  /\ args_amount eventLog = amount
  /\ sameIgnoringCase (args_memo eventLog) (Invoice.memo invoice)
  /\ (forall payer, Invoice.payer invoice = Some payer -> payer <> EmptyString ->
        sameIgnoringCase (args_from eventLog) payer).

Definition sampleInvoice : Invoice.InvoiceV1 := {|
  Invoice.version := "tempo.invoice.v1";
  Invoice.invoiceId := "INV-TEST-1";
  Invoice.issuedAt := 1700000000;
  Invoice.dueAt := 1700000600;
  Invoice.chainId := 42431;
  Invoice.merchant := "0x1111111111111111111111111111111111111111";
  Invoice.recipient := "0x2222222222222222222222222222222222222222";
  Invoice.payer := Some "0x3333333333333333333333333333333333333abc";
  Invoice.token := "0x20c0000000000000000000000000000000000001";
  Invoice.amount := "285000000";
  Invoice.memo := "0x00000000000000000000000000000000000000000000494e562d544553542d31";
  Invoice.description := "Cozy Loft in Kreuzberg";
  Invoice.merchantReference := None;
  Invoice.purpose := None;
  Invoice.lineItems := None;
  Invoice.metadata := None;
  Invoice.merchantSig := "0x00"
|}.

Definition sampleEvent (sender : string) (value : Z) : TransferWithMemo := {|
  address := "0x20C0000000000000000000000000000000000001";
  args_from := sender;
  args_to := "0x2222222222222222222222222222222222222222";
  args_amount := value;
  args_memo := "0x00000000000000000000000000000000000000000000494E562D544553542D31"
|}.

Definition sampleLogs : list Log :=
  [ OtherLog;
    TransferWithMemoLog (sampleEvent "0x3333333333333333333333333333333333333ABC" 285000001);
    TransferWithMemoLog (sampleEvent "0x4444444444444444444444444444444444444444" 285000000);
    TransferWithMemoLog (sampleEvent "0x3333333333333333333333333333333333333ABC" 285000000);
    OtherLog;
    TransferWithMemoLog (sampleEvent "0x3333333333333333333333333333333333333abc" 285000000) ].

Example matchSettlement_sample :
  matchSettlement sampleInvoice sampleLogs
  = Some (Some (sampleEvent "0x3333333333333333333333333333333333333ABC" 285000000)).
Proof. vm_compute. reflexivity. Qed.

Lemma strEq_spec (a b : string) : Js.strEq a b = true <-> a = b.
Proof. unfold Js.strEq. rewrite bool_decide_eq_true. reflexivity. Qed.

Lemma eventMatches_spec invoice amount eventLog :
  eventMatches invoice amount eventLog = true <-> satisfies invoice amount eventLog.
Proof.
  unfold eventMatches, satisfies, sameIgnoringCase.
  rewrite !andb_true_iff, !strEq_spec, Z.eqb_eq.
  split.
  - intros [[[[Ht Hr] Ha] Hm] Hp]. repeat split; try assumption.
    intros payer Hset Hne. rewrite Hset in Hp.
    unfold Js.truthy in Hp. rewrite bool_decide_eq_false_2 in Hp by assumption.
    simpl in Hp. apply strEq_spec. exact Hp.
  - intros (Ht & Hr & Ha & Hm & Hp). repeat split; try assumption.
    destruct (Invoice.payer invoice) as [payer|]; [|reflexivity].
    unfold Js.truthy. destruct (decide (payer = EmptyString)) as [He|Hne].
    + rewrite bool_decide_eq_true_2 by assumption. reflexivity.
    + rewrite bool_decide_eq_false_2 by assumption. simpl.
      apply strEq_spec. apply Hp; [reflexivity | assumption].
Qed.

(** [find] returns the first element that passes the test. *)
Lemma find_first {A : Type} (f : A -> bool) (l : list A) (x : A) :
  List.find f l = Some x ->
  exists before after,
    l = before ++ x :: after /\ f x = true /\ Forall (fun y => f y = false) before.
Proof.
  induction l as [|y l IH]; simpl; [discriminate|].
  destruct (f y) eqn:Hy.
  - intros [= <-]. exists [], l. repeat split; [assumption | constructor].
  - intros Hfind. destruct (IH Hfind) as (before & after & -> & Hx & Hbefore).
    exists (y :: before), after. repeat split; [assumption | constructor; assumption].
Qed.

Lemma find_none_iff {A : Type} (f : A -> bool) (l : list A) :
  List.find f l = None <-> Forall (fun y => f y = false) l.
Proof.
  induction l as [|y l IH]; simpl.
  - split; [constructor | reflexivity].
  - destruct (f y) eqn:Hy.
    + split; [discriminate | intros H; inversion H; congruence].
    + rewrite IH. split; [intros H; constructor; assumption | intros H; inversion H; assumption].
Qed.

Lemma not_matches invoice amount eventLog :
  eventMatches invoice amount eventLog = false <-> ~ satisfies invoice amount eventLog.
Proof.
  rewrite <- eventMatches_spec. destruct (eventMatches invoice amount eventLog); split;
    congruence.
Qed.

(** C1.  When [invoice.amount] reads as the integer [amount], the
    matcher does not throw; it returns an event exactly when some decoded
    transfer event satisfies the five conditions; the event returned
    satisfies them and no earlier event of the list does; and it returns
    no match exactly when no event satisfies them. *)
Theorem matchSettlement_returns_first_matching_event
    (invoice : Invoice.InvoiceV1) (logs : list Log) (amount : Z) :
  Js.BigInt (Invoice.amount invoice) = Some amount ->
  exists result,
    matchSettlement invoice logs = Some result
    /\ ((exists eventLog, result = Some eventLog)
        <-> Exists (satisfies invoice amount) (parseEventLogs logs))
    /\ (forall eventLog, result = Some eventLog ->
          satisfies invoice amount eventLog
          /\ exists before after,
               parseEventLogs logs = before ++ eventLog :: after
               /\ Forall (fun earlier => ~ satisfies invoice amount earlier) before)
    /\ (result = None
        <-> Forall (fun eventLog => ~ satisfies invoice amount eventLog) (parseEventLogs logs)).
Proof.
  intros Hamount. unfold matchSettlement. rewrite Hamount.
  eexists. split; [reflexivity|].
  set (events := parseEventLogs logs).
  assert (Hfirst : forall eventLog,
    List.find (eventMatches invoice amount) events = Some eventLog ->
    satisfies invoice amount eventLog
    /\ exists before after, events = before ++ eventLog :: after
         /\ Forall (fun earlier => ~ satisfies invoice amount earlier) before).
  { intros eventLog Hfind.
    destruct (find_first _ _ _ Hfind) as (before & after & Hsplit & Hx & Hbefore).
    split; [apply eventMatches_spec; exact Hx|].
    exists before, after. split; [exact Hsplit|].
    eapply Forall_impl; [exact Hbefore|]. intros y Hy. apply not_matches. exact Hy. }
  assert (Hnone : List.find (eventMatches invoice amount) events = None
    <-> Forall (fun eventLog => ~ satisfies invoice amount eventLog) events).
  { rewrite find_none_iff. split; intros H; (eapply Forall_impl; [exact H|]);
      intros y Hy; apply not_matches; exact Hy. }
  split; [|split; [exact Hfirst | exact Hnone]].
  split.
  - intros [eventLog Hfind]. destruct (Hfirst _ Hfind) as [Hsat (before & after & Hsplit & _)].
    apply Exists_exists. exists eventLog. split; [|exact Hsat].
    rewrite Hsplit. apply elem_of_app. right. left.
  - intros Hex. destruct (List.find (eventMatches invoice amount) events) as [e|] eqn:Hfind.
    + exists e. reflexivity.
    + exfalso. destruct Hnone as [Hall _]. specialize (Hall eq_refl).
      apply Exists_exists in Hex. destruct Hex as (x & Hin & Hsat).
      rewrite Forall_forall in Hall. apply (Hall x); [exact Hin | exact Hsat].
Qed.

Lemma matchSettlement_returns_first_matching_event_witness :
  exists result,
    matchSettlement sampleInvoice sampleLogs = Some result
    /\ ((exists eventLog, result = Some eventLog)
        <-> Exists (satisfies sampleInvoice 285000000) (parseEventLogs sampleLogs))
    /\ (forall eventLog, result = Some eventLog ->
          satisfies sampleInvoice 285000000 eventLog
          /\ exists before after,
               parseEventLogs sampleLogs = before ++ eventLog :: after
               /\ Forall (fun earlier => ~ satisfies sampleInvoice 285000000 earlier) before)
    /\ (result = None
        <-> Forall (fun eventLog => ~ satisfies sampleInvoice 285000000 eventLog)
              (parseEventLogs sampleLogs)).
Proof.
  apply (matchSettlement_returns_first_matching_event sampleInvoice sampleLogs 285000000).
  reflexivity.
Defined.


(** *** Invoice creation input *)

Record MerchantInvoiceInput := {
  input_amount : string;
  input_description : string;
  input_dueAt : option Z;
  input_dueInSeconds : option Z;
  input_invoiceId : option string;
  input_issuedAt : option Z;
  input_merchantReference : option string;
  input_metadata : option (list (string * Canonical.Json));
  input_payer : option string;
  input_purpose : option string;
  input_recipient : option string;
  input_token : option string;
  input_lineItems : option (list Invoice.InvoiceLineItemV1)
}.


(** *** Further properties of the matcher *)

Lemma parseEventLogs_app (logs more : list Log) :
  parseEventLogs (logs ++ more) = parseEventLogs logs ++ parseEventLogs more.
Proof.
  induction logs as [|[eventLog|] logs IH]; simpl; [reflexivity | rewrite IH; reflexivity | exact IH].
Qed.

Lemma find_app_Some {A : Type} (f : A -> bool) (l more : list A) (x : A) :
  List.find f l = Some x -> List.find f (l ++ more) = Some x.
Proof.
  induction l as [|y l IH]; simpl; [discriminate|].
  destruct (f y); [intros H; exact H | exact IH].
Qed.

(** X14.  A match is stable under later logs: once the matcher has
    found an event among the logs of a receipt, it returns the same
    event for those logs followed by any others. *)
Theorem matchSettlement_stable_under_later_logs
    (invoice : Invoice.InvoiceV1) (logs more : list Log) (eventLog : TransferWithMemo) :
  matchSettlement invoice logs = Some (Some eventLog) ->
  matchSettlement invoice (logs ++ more) = Some (Some eventLog).
Proof.
  unfold matchSettlement. rewrite parseEventLogs_app.
  destruct (Js.BigInt (Invoice.amount invoice)) as [expectedAmount|]; [|discriminate].
  intros [= Hfind]. rewrite (find_app_Some _ _ _ _ Hfind). reflexivity.
Qed.

Lemma matchSettlement_stable_under_later_logs_witness :
  matchSettlement sampleInvoice
    (sampleLogs ++ [TransferWithMemoLog
                      (sampleEvent "0x3333333333333333333333333333333333333abc" 285000000)])
  = Some (Some (sampleEvent "0x3333333333333333333333333333333333333ABC" 285000000)).
Proof.
  apply (matchSettlement_stable_under_later_logs sampleInvoice sampleLogs
           [TransferWithMemoLog
              (sampleEvent "0x3333333333333333333333333333333333333abc" 285000000)]
           (sampleEvent "0x3333333333333333333333333333333333333ABC" 285000000)).
  vm_compute. reflexivity.
Defined.

(** The invoice with another payer. *)
Definition withPayer (invoice : Invoice.InvoiceV1) (payer_ : option string)
  : Invoice.InvoiceV1 :=
  Invoice.withAddresses invoice (Invoice.merchant invoice) (Invoice.recipient invoice)
    (Invoice.token invoice) (Invoice.memo invoice) payer_.

(** The event with another sender. *)
Definition withSender (eventLog : TransferWithMemo) (sender : string) : TransferWithMemo :=
  {| address := address eventLog;
     args_from := sender;
     args_to := args_to eventLog;
     args_amount := args_amount eventLog;
     args_memo := args_memo eventLog |}.

(** X15.  For an invoice that pins no payer (the field absent or
    empty) the sender of a transfer is not looked at: an event matches
    exactly when the same event from any other sender does. *)
Theorem eventMatches_ignores_sender_without_payer
    (invoice : Invoice.InvoiceV1) (expectedAmount : Z) (eventLog : TransferWithMemo)
    (sender : string) :
  Js.truthyOpt (Invoice.payer invoice) = false ->
  eventMatches invoice expectedAmount (withSender eventLog sender)
  = eventMatches invoice expectedAmount eventLog.
Proof.
  intros Hpayer. unfold eventMatches, withSender. simpl.
  destruct (Invoice.payer invoice) as [payer|]; [|reflexivity].
  simpl in Hpayer. rewrite Hpayer. reflexivity.
Qed.

Lemma eventMatches_ignores_sender_without_payer_witness :
  eventMatches (withPayer sampleInvoice None) 285000000
    (withSender (sampleEvent "0x4444444444444444444444444444444444444444" 285000000)
       "0x5555555555555555555555555555555555555555")
  = eventMatches (withPayer sampleInvoice None) 285000000
      (sampleEvent "0x4444444444444444444444444444444444444444" 285000000).
Proof.
  apply (eventMatches_ignores_sender_without_payer (withPayer sampleInvoice None) 285000000
           (sampleEvent "0x4444444444444444444444444444444444444444" 285000000)
           "0x5555555555555555555555555555555555555555").
  reflexivity.
Defined.

(** *** Issuing an invoice ([TempoMerchantSdk.createInvoice]) *)

Record MerchantSdkConfig := {
  baseUrl : string;
  chainId : Z;
  defaultRecipient : string;
  defaultToken : string;
  explorerUrl : string;
  merchantAddress : string;
  merchantName : string
}.

(** What [createInvoice] throws: the errors of its own checks, the size
    error of the memo padding, and the errors of [assertInvoiceV1]. *)
Inductive CreateInvoiceError :=
| InvalidAmount
| DescriptionRequired
| InvalidAddress (fieldName : string)
| IssuedAtNotPositive
| DueAtNotAfterIssuedAt
| SizeExceedsPaddingSize
| Rejected (e : Invoice.InvoiceError).

Section CreateInvoice.

Variable localeCompare : string -> string -> Z.
Variable checksumAddress : string -> string.

(** [signer.signMessage({ message })]. *)
Variable signMessage : string -> string.

Variable config : MerchantSdkConfig.

(** The clock, [Math.floor(Date.now() / 1000)], and what
    [createInvoiceId()] returns at this call. *)
Variables (now : Z) (generatedId : string).

(** A string property spread in only when truthy. *)
Definition whenTruthy (v : option string) : option string :=
  match v with
  | Some s => if Js.truthy s then Some s else None
  | None => None
  end.

(** [createInvoice(input)]: [inl] is the error thrown.  The
    configuration is the one the constructor was given; the constructor's
    own address checks are not repeated here. *)
Definition createInvoice (input : MerchantInvoiceInput)
  : CreateInvoiceError + Invoice.InvoiceV1 :=
  if negb (Js.isDigits (input_amount input)) then inl InvalidAmount
  else if negb (Js.truthy (Js.trim (input_description input))) then inl DescriptionRequired
  else
    let recipient := default (defaultRecipient config) (input_recipient input) in
    let token := default (defaultToken config) (input_token input) in
    if negb (Viem.isAddress checksumAddress recipient) then inl (InvalidAddress "recipient")
    else if negb (Viem.isAddress checksumAddress token) then inl (InvalidAddress "token")
    else if match whenTruthy (input_payer input) with
            | Some payer => negb (Viem.isAddress checksumAddress payer)
            | None => false
            end
    then inl (InvalidAddress "payer")
    else
      let issuedAt := default now (input_issuedAt input) in
      let dueAt :=
        default (issuedAt + default (10 * 60) (input_dueInSeconds input))
          (input_dueAt input) in
      if issuedAt <=? 0 then inl IssuedAtNotPositive
      else if dueAt <=? issuedAt then inl DueAtNotAfterIssuedAt
      else
        let invoiceId := default generatedId (input_invoiceId input) in
        match Invoice.createInvoiceMemo (Utf8.units invoiceId) with
        | None => inl SizeExceedsPaddingSize
        | Some memo =>
            let unsigned (merchantSig : string) : Invoice.InvoiceV1 :=
              {| Invoice.version := Invoice.INVOICE_VERSION;
                 Invoice.invoiceId := invoiceId;
                 Invoice.issuedAt := issuedAt;
                 Invoice.dueAt := dueAt;
                 Invoice.chainId := chainId config;
                 Invoice.merchant := merchantAddress config;
                 Invoice.recipient := recipient;
                 Invoice.payer := whenTruthy (input_payer input);
                 Invoice.token := token;
                 Invoice.amount := input_amount input;
                 Invoice.memo := memo;
                 Invoice.description := input_description input;
                 Invoice.merchantReference := whenTruthy (input_merchantReference input);
                 Invoice.purpose := whenTruthy (input_purpose input);
                 Invoice.lineItems := input_lineItems input;
                 Invoice.metadata := input_metadata input;
                 Invoice.merchantSig := merchantSig |} in
            let signed :=
              unsigned (signMessage
                          (Invoice.createInvoiceMessage localeCompare (unsigned EmptyString))) in
            match Invoice.assertInvoiceV1 checksumAddress (Invoice.invoiceJson signed) with
            | inl e => inl (Rejected e)
            | inr _ => inr signed
            end
        end.

End CreateInvoice.

Definition sampleConfig : MerchantSdkConfig := {|
  baseUrl := "http://localhost:3000";
  chainId := 42431;
  defaultRecipient := "0x1111111111111111111111111111111111111111";
  defaultToken := "0x20c0000000000000000000000000000000000001";
  explorerUrl := "https://explore.moderato.tempo.xyz";
  merchantAddress := "0x1111111111111111111111111111111111111111";
  merchantName := "Test Merchant"
|}.

(** The inputs of the SDK tests of the repository. *)
Definition sampleInput (amount_ : string) (issuedAt_ dueAt_ : option Z)
    (invoiceId_ : option string) (lineItems_ : option (list Invoice.InvoiceLineItemV1))
  : MerchantInvoiceInput := {|
  input_amount := amount_;
  input_description := "Airbnb rental for 3 nights in Mexico City";
  input_dueAt := dueAt_;
  input_dueInSeconds := None;
  input_invoiceId := invoiceId_;
  input_issuedAt := issuedAt_;
  input_merchantReference := None;
  input_metadata := None;
  input_payer := None;
  input_purpose := None;
  input_recipient := None;
  input_token := None;
  input_lineItems := lineItems_
|}.

Definition sampleSigner (message : string) : string := "0x" +:+ "5167".

Example createInvoice_tests :
  let create :=
    createInvoice Canonical.codeUnitCompare (fun a => a) sampleSigner sampleConfig
      1700000000 "INV-1700000000000-000042" in
  (exists invoice,
     create (sampleInput "150000000" None None None
               (Some [{| Invoice.itemId := None; Invoice.title := "Mexico City stay";
                         Invoice.category := None; Invoice.quantity := Some 3;
                         Invoice.unitAmount := Some "50000000";
                         Invoice.totalAmount := "150000000" |}])) = inr invoice)
  /\ create (sampleInput "1000" (Some 1000) (Some 1000) None None)
     = inl DueAtNotAfterIssuedAt
  /\ create (sampleInput "1500" None None None
               (Some [{| Invoice.itemId := None; Invoice.title := "x";
                         Invoice.category := None; Invoice.quantity := None;
                         Invoice.unitAmount := None; Invoice.totalAmount := "1400" |}]))
     = inl (Rejected Invoice.AmountNotSumOfLineItems)
  /\ create (sampleInput "1000" None None (Some "INV-0123456789-0123456789-0123456") None)
     = inl SizeExceedsPaddingSize.
Proof.
  cbv zeta. split; [eexists; vm_compute; reflexivity|].
  repeat split; vm_compute; reflexivity.
Qed.

(** X26.  Every invoice [createInvoice] returns passes
    [assertInvoiceV1], carries the version tag, the merchant address and
    the chain id of the configuration and the amount asked for, has
    [0 < issuedAt < dueAt], a memo that is the shared memo derivation of
    its id, and a signature that is the signer's signature of the
    invoice's own message. *)
Theorem createInvoice_issues_valid_signed_invoices
    (localeCompare : string -> string -> Z) (checksumAddress : string -> string)
    (signMessage : string -> string) (config : MerchantSdkConfig) (now : Z)
    (generatedId : string) (input : MerchantInvoiceInput) (invoice : Invoice.InvoiceV1) :
  createInvoice localeCompare checksumAddress signMessage config now generatedId input
    = inr invoice ->
  Invoice.assertInvoiceV1 checksumAddress (Invoice.invoiceJson invoice) = inr tt
  /\ Invoice.version invoice = Invoice.INVOICE_VERSION
  /\ Invoice.merchant invoice = merchantAddress config
  /\ Invoice.chainId invoice = chainId config
  /\ Invoice.amount invoice = input_amount input
  /\ 0 < Invoice.issuedAt invoice < Invoice.dueAt invoice
  /\ Invoice.createInvoiceMemo (Utf8.units (Invoice.invoiceId invoice))
     = Some (Invoice.memo invoice)
  /\ Invoice.merchantSig invoice
     = signMessage (Invoice.createInvoiceMessage localeCompare invoice).
Proof.
  unfold createInvoice.
  destruct (negb (Js.isDigits (input_amount input))); [discriminate|].
  destruct (negb (Js.truthy (Js.trim (input_description input)))); [discriminate|].
  destruct (negb (Viem.isAddress checksumAddress
                    (default (defaultRecipient config) (input_recipient input))));
    [discriminate|].
  destruct (negb (Viem.isAddress checksumAddress
                    (default (defaultToken config) (input_token input))));
    [discriminate|].
  destruct (match whenTruthy (input_payer input) with
            | Some payer => _ | None => false end); [discriminate|].
  destruct (Z.leb_spec (default now (input_issuedAt input)) 0) as [|Hissued];
    [discriminate|].
  destruct (Z.leb_spec
              (default (default now (input_issuedAt input)
                        + default (10 * 60) (input_dueInSeconds input)) (input_dueAt input))
              (default now (input_issuedAt input))) as [|Hdue]; [discriminate|].
  destruct (Invoice.createInvoiceMemo
              (Utf8.units (default generatedId (input_invoiceId input))))
    as [memo|] eqn:Hmemo; [|discriminate].
  destruct (Invoice.assertInvoiceV1 checksumAddress _) as [e|[]] eqn:Hgate; [discriminate|].
  intros [= <-]. cbn [Invoice.version Invoice.merchant Invoice.chainId Invoice.amount
                        Invoice.issuedAt Invoice.dueAt Invoice.invoiceId Invoice.memo
                        Invoice.merchantSig].
  split; [exact Hgate|]. repeat split; try assumption.
Qed.

Lemma createInvoice_issues_valid_signed_invoices_witness :
  let invoice :=
    match createInvoice Canonical.codeUnitCompare (fun a => a) sampleSigner sampleConfig
            1700000000 "INV-1700000000000-000042"
            (sampleInput "150000000" None None None None) with
    | inr invoice => invoice
    | inl _ => sampleInvoice
    end in
  Invoice.assertInvoiceV1 (fun a => a) (Invoice.invoiceJson invoice) = inr tt
  /\ Invoice.version invoice = Invoice.INVOICE_VERSION
  /\ Invoice.merchant invoice = merchantAddress sampleConfig
  /\ Invoice.chainId invoice = chainId sampleConfig
  /\ Invoice.amount invoice = input_amount (sampleInput "150000000" None None None None)
  /\ 0 < Invoice.issuedAt invoice < Invoice.dueAt invoice
  /\ Invoice.createInvoiceMemo (Utf8.units (Invoice.invoiceId invoice))
     = Some (Invoice.memo invoice)
  /\ Invoice.merchantSig invoice
     = sampleSigner (Invoice.createInvoiceMessage Canonical.codeUnitCompare invoice).
Proof.
  apply (createInvoice_issues_valid_signed_invoices Canonical.codeUnitCompare (fun a => a)
           sampleSigner sampleConfig 1700000000 "INV-1700000000000-000042"
           (sampleInput "150000000" None None None None)).
  vm_compute. reflexivity.
Defined.

(** X27.  An invoice id whose UTF-8 encoding is longer than 32 bytes
    cannot be issued: [createInvoice] throws for it, and it throws
    before the invoice is signed or handed to [assertInvoiceV1]. *)
Theorem createInvoice_refuses_long_ids
    (localeCompare : string -> string -> Z) (checksumAddress : string -> string)
    (signMessage : string -> string) (config : MerchantSdkConfig) (now : Z)
    (generatedId : string) (input : MerchantInvoiceInput) :
  (32 < length (Utf8.encode (Utf8.units (default generatedId (input_invoiceId input)))))%nat ->
  exists e,
    createInvoice localeCompare checksumAddress signMessage config now generatedId input
      = inl e
    /\ forall gateError, e <> Rejected gateError.
Proof.
  intros Hlong. unfold createInvoice.
  destruct (negb (Js.isDigits (input_amount input))); [eexists; split; [reflexivity | discriminate]|].
  destruct (negb (Js.truthy (Js.trim (input_description input))));
    [eexists; split; [reflexivity | discriminate]|].
  destruct (negb (Viem.isAddress checksumAddress
                    (default (defaultRecipient config) (input_recipient input))));
    [eexists; split; [reflexivity | discriminate]|].
  destruct (negb (Viem.isAddress checksumAddress
                    (default (defaultToken config) (input_token input))));
    [eexists; split; [reflexivity | discriminate]|].
  destruct (match whenTruthy (input_payer input) with
            | Some payer => _ | None => false end);
    [eexists; split; [reflexivity | discriminate]|].
  destruct (default now (input_issuedAt input) <=? 0);
    [eexists; split; [reflexivity | discriminate]|].
  destruct (_ <=? default now (input_issuedAt input));
    [eexists; split; [reflexivity | discriminate]|].
  rewrite Memo.shared_memo_unfold. cbv zeta.
  pose proof (Utf8.hexOfBytes_length
                (Utf8.encode (Utf8.units (default generatedId (input_invoiceId input)))))
    as Hlen.
  replace (64 <? length (Utf8.hexOfBytes _))%nat with true
    by (symmetry; apply Nat.ltb_lt; lia).
  eexists; split; [reflexivity | discriminate].
Qed.

Lemma createInvoice_refuses_long_ids_witness :
  exists e,
    createInvoice Canonical.codeUnitCompare (fun a => a) sampleSigner sampleConfig
      1700000000 "INV-1700000000000-000042"
      (sampleInput "1000" None None (Some "INV-0123456789-0123456789-0123456") None)
    = inl e
    /\ forall gateError, e <> Rejected gateError.
Proof.
  apply (createInvoice_refuses_long_ids Canonical.codeUnitCompare (fun a => a) sampleSigner
           sampleConfig 1700000000 "INV-1700000000000-000042"
           (sampleInput "1000" None None (Some "INV-0123456789-0123456789-0123456") None)).
  vm_compute. lia.
Defined.
End MerchantSdk.

(** ** The paying agent (agent.ts): policy enforcement *)

Module Agent.

(** [CHAIN_ID] of shared/constants.ts. *)
Definition CHAIN_ID : Z := 42431.

Record DelegationPolicy := {
  owner : string;
  maxAmount : string;
  allowedRecipients : list string;
  allowedTokens : list string;
  expiresAt : Z
}.

(** One constructor per [throw] of [validateInvoiceAgainstPolicy];
    [AmountSyntaxError] is the [SyntaxError] of a [BigInt] conversion. *)
Inductive PolicyError :=
| WrongChain
| InvoiceExpired
| PolicyExpired
| PayerMismatch
| AmountSyntaxError
| OverBudget
| RecipientNotAllowed
| TokenNotAllowed.

(** [list.some(entry => entry.toLowerCase() === value.toLowerCase())]. *)
Definition someSameLower (list_ : list string) (value : string) : bool :=
  existsb (fun entry => Js.strEq (Js.toLowerCase entry) (Js.toLowerCase value)) list_.

(** [validateInvoiceAgainstPolicy(invoice, policy, payer)] at the clock
    reading [now] (seconds): [inl] is the error thrown, [inr tt] the
    normal return. *)
Definition validateInvoiceAgainstPolicy (now : Z) (invoice : Invoice.InvoiceV1)
    (policy : DelegationPolicy) (payer : string) : PolicyError + unit :=
  if negb (Invoice.chainId invoice =? CHAIN_ID) then inl WrongChain
  else if Invoice.dueAt invoice <? now then inl InvoiceExpired
  else if expiresAt policy <? now then inl PolicyExpired
  else if match Invoice.payer invoice with
          | Some invoicePayer =>
              Js.truthy invoicePayer
              && negb (Js.strEq (Js.toLowerCase invoicePayer) (Js.toLowerCase payer))
          | None => false
          end
  then inl PayerMismatch
  else
    match Js.BigInt (Invoice.amount invoice) with
    | None => inl AmountSyntaxError
    | Some amount =>
        match Js.BigInt (maxAmount policy) with
        | None => inl AmountSyntaxError
        | Some maxAmount_ =>
            if amount >? maxAmount_ then inl OverBudget
            else if (0 <? length (allowedRecipients policy))%nat
                    && negb (someSameLower (allowedRecipients policy) (Invoice.recipient invoice))
            then inl RecipientNotAllowed
            else if (0 <? length (allowedTokens policy))%nat
                    && negb (someSameLower (allowedTokens policy) (Invoice.token invoice))
            then inl TokenNotAllowed
            else inr tt
        end
    end.

(** *** The seven checks as the specification lists them *)

Section Checks.

Variables (now : Z) (invoice : Invoice.InvoiceV1) (policy : DelegationPolicy)
  (payer : string) (amount limit : Z).

Definition sameIgnoringCase (a b : string) : Prop :=
  Js.toLowerCase a = Js.toLowerCase b.

Definition member (list_ : list string) (value : string) : Prop :=
  exists entry, entry ∈ list_ /\ sameIgnoringCase entry value.

(** Check number [k], for [k] from 1 to 7. *)
Definition holds (k : nat) : Prop :=
  match k with
  | 1%nat => Invoice.chainId invoice = CHAIN_ID
  | 2%nat => Invoice.dueAt invoice >= now
  | 3%nat => expiresAt policy >= now
  | 4%nat => forall invoicePayer,
               Invoice.payer invoice = Some invoicePayer -> invoicePayer <> EmptyString ->
               sameIgnoringCase invoicePayer payer
  | 5%nat => amount <= limit
  | 6%nat => allowedRecipients policy <> [] ->
             member (allowedRecipients policy) (Invoice.recipient invoice)
  | 7%nat => allowedTokens policy <> [] ->
             member (allowedTokens policy) (Invoice.token invoice)
  | _ => True
  end.

(** The violation reported when check [k] fails. *)
Definition reason (k : nat) : PolicyError :=
  match k with
  | 1%nat => WrongChain
  | 2%nat => InvoiceExpired
  | 3%nat => PolicyExpired
  | 4%nat => PayerMismatch
  | 5%nat => OverBudget
  | 6%nat => RecipientNotAllowed
  | _ => TokenNotAllowed
  end.

(** Check [k] is the earliest one that fails. *)
Definition earliestFailing (k : nat) : Prop :=
  (1 <= k <= 7)%nat /\ ~ holds k /\ forall j, (1 <= j < k)%nat -> holds j.

End Checks.

Lemma someSameLower_spec (list_ : list string) (value : string) :
  someSameLower list_ value = true <-> member list_ value.
Proof.
  unfold someSameLower, member, sameIgnoringCase. rewrite existsb_exists.
  split; intros (entry & Hin & Heq); exists entry.
  - split; [apply list_elem_of_In; exact Hin | apply bool_decide_eq_true in Heq; exact Heq].
  - split; [apply list_elem_of_In; exact Hin | apply bool_decide_eq_true; exact Heq].
Qed.

Lemma nonempty_length {A : Type} (l : list A) :
  (0 <? length l)%nat = true <-> l <> [].
Proof.
  destruct l; simpl; split; try congruence; try discriminate; intros _; reflexivity.
Qed.


Lemma payer_check_spec (invoice : Invoice.InvoiceV1) (payer : string) :
  match Invoice.payer invoice with
  | Some invoicePayer =>
      Js.truthy invoicePayer
      && negb (Js.strEq (Js.toLowerCase invoicePayer) (Js.toLowerCase payer))
  | None => false
  end = false
  <-> (forall invoicePayer,
         Invoice.payer invoice = Some invoicePayer -> invoicePayer <> EmptyString ->
         sameIgnoringCase invoicePayer payer).
Proof.
  unfold sameIgnoringCase, Js.truthy, Js.strEq.
  destruct (Invoice.payer invoice) as [p|].
  - destruct (decide (p = EmptyString)) as [He|Hne].
    + rewrite (bool_decide_eq_true_2 _ He). simpl.
      split; [intros _ q [= <-] Hq; contradiction | reflexivity].
    + rewrite (bool_decide_eq_false_2 _ Hne). simpl. rewrite negb_false_iff, bool_decide_eq_true.
      split; [intros H q [= <-] _; exact H | intros H; apply H; [reflexivity | exact Hne]].
  - split; [intros _ q Hq; discriminate | reflexivity].
Qed.

Lemma list_check_spec (list_ : list string) (value : string) :
  (0 <? length list_)%nat && negb (someSameLower list_ value) = false
  <-> (list_ <> [] -> member list_ value).
Proof.
  rewrite andb_false_iff, negb_false_iff, someSameLower_spec.
  rewrite <- not_true_iff_false, nonempty_length.
  split.
  - intros [H|H] Hne; [contradiction | exact H].
  - intros H. destruct list_ as [|x l]; [left; congruence | right; apply H; discriminate].
Qed.

(** The cases of a check number, one goal each. *)
Ltac each_check k :=
  destruct k as [|[|[|[|[|[|[|[|k]]]]]]]]; simpl in *.

(** C4.  When the invoice amount and the policy limit read as integers,
    enforcement returns normally exactly when the seven checks hold, and
    otherwise throws the violation of the earliest check that fails; with
    both allow-lists empty the recipient and the token are not looked at. *)
Theorem validateInvoiceAgainstPolicy_enforces_seven_checks
    (now : Z) (invoice : Invoice.InvoiceV1) (policy : DelegationPolicy)
    (payer : string) (amount limit : Z) :
  Js.BigInt (Invoice.amount invoice) = Some amount ->
  Js.BigInt (maxAmount policy) = Some limit ->
  (validateInvoiceAgainstPolicy now invoice policy payer = inr tt
     <-> forall k, holds now invoice policy payer amount limit k)
  /\ (forall violation,
        validateInvoiceAgainstPolicy now invoice policy payer = inl violation
        <-> exists k, earliestFailing now invoice policy payer amount limit k
                      /\ violation = reason k)
  /\ (allowedRecipients policy = [] -> allowedTokens policy = [] ->
      (forall k, (k <= 5)%nat -> holds now invoice policy payer amount limit k) ->
      validateInvoiceAgainstPolicy now invoice policy payer = inr tt).
Proof.
  intros Hamount Hlimit.
  assert (Hmain :
    (validateInvoiceAgainstPolicy now invoice policy payer = inr tt
       <-> forall k, holds now invoice policy payer amount limit k)
    /\ (forall violation,
          validateInvoiceAgainstPolicy now invoice policy payer = inl violation
          <-> exists k, earliestFailing now invoice policy payer amount limit k
                        /\ violation = reason k)).
  { unfold validateInvoiceAgainstPolicy. rewrite Hamount, Hlimit.
    assert (Hfail : forall k0,
      (1 <= k0 <= 7)%nat ->
      ~ holds now invoice policy payer amount limit k0 ->
      (forall j, (1 <= j < k0)%nat -> holds now invoice policy payer amount limit j) ->
      (@inl PolicyError unit (reason k0) = inr tt
         <-> forall k, holds now invoice policy payer amount limit k)
      /\ (forall violation,
            @inl PolicyError unit (reason k0) = inl violation
            <-> exists k, earliestFailing now invoice policy payer amount limit k
                          /\ violation = reason k)).
    { intros k0 Hrange Hnot Hbefore. split.
      - split; [discriminate | intros Hall; exfalso; apply Hnot, Hall].
      - intros violation. split.
        + intros [= <-]. exists k0. split; [|reflexivity]. repeat split; try lia; assumption.
        + intros (k & (Hk & Hnk & Hbk) & ->). f_equal. f_equal.
          destruct (lt_eq_lt_dec k k0) as [[Hlt|Heq]|Hgt].
          * exfalso. apply Hnk, Hbefore. lia.
          * congruence.
          * exfalso. apply Hnot, Hbk. lia. }
    destruct (Z.eqb_spec (Invoice.chainId invoice) CHAIN_ID) as [H1|H1]; simpl.
    2:{ apply (Hfail 1%nat); [lia | exact H1 | intros j Hj; lia]. }
    destruct (Z.ltb_spec (Invoice.dueAt invoice) now) as [H2|H2].
    { apply (Hfail 2%nat); [lia | simpl; lia | intros j Hj; each_check j; try lia; assumption]. }
    destruct (Z.ltb_spec (expiresAt policy) now) as [H3|H3].
    { apply (Hfail 3%nat); [lia | simpl; lia |
        intros j Hj; each_check j; try lia; try assumption]. }
    destruct (match Invoice.payer invoice with
              | Some invoicePayer => _ | None => false end) eqn:H4.
    { apply (Hfail 4%nat); [lia | simpl; rewrite <- payer_check_spec, H4; discriminate |
        intros j Hj; each_check j; try lia; try assumption]. }
    pose proof (proj1 (payer_check_spec invoice payer) H4) as H4'.
    rewrite Z.gtb_ltb. destruct (Z.ltb_spec limit amount) as [H5|H5].
    { apply (Hfail 5%nat); [lia | simpl; lia |
        intros j Hj; each_check j; try lia; try assumption]. }
    destruct ((0 <? length (allowedRecipients policy))%nat && _) eqn:H6.
    { apply (Hfail 6%nat); [lia | simpl; rewrite <- list_check_spec, H6; discriminate |
        intros j Hj; each_check j; try lia; try assumption]. }
    pose proof (proj1 (list_check_spec _ _) H6) as H6'.
    destruct ((0 <? length (allowedTokens policy))%nat && _) eqn:H7.
    { apply (Hfail 7%nat); [lia | simpl; rewrite <- list_check_spec, H7; discriminate |
        intros j Hj; each_check j; try lia; try assumption]. }
    pose proof (proj1 (list_check_spec _ _) H7) as H7'.
    assert (Hall : forall k, holds now invoice policy payer amount limit k).
    { intros k. each_check k; try lia; try assumption; exact I. }
    split.
    - split; [intros _; exact Hall | reflexivity].
    - intros violation. split; [discriminate|].
      intros (k & (_ & Hnk & _) & _). exfalso. apply Hnk, Hall. }
  destruct Hmain as [Hok Hviolation]. split; [exact Hok | split; [exact Hviolation|]].
  intros Hrecipients Htokens Hfirst. apply Hok. intros k.
  destruct (le_dec k 5) as [Hle|Hgt]; [apply Hfirst; exact Hle|].
  each_check k; try lia; try exact I; intros Hne; congruence.
Qed.

Definition samplePolicy : DelegationPolicy := {|
  owner := "0x3333333333333333333333333333333333333abc";
  maxAmount := "200000000";
  allowedRecipients := ["0x2222222222222222222222222222222222222222"];
  allowedTokens := [];
  expiresAt := 1700003600
|}.

(** The sample invoice asks for 285000000 and the policy allows
    200000000: the fifth check is the first to fail. *)
Example validateInvoiceAgainstPolicy_over_budget :
  validateInvoiceAgainstPolicy 1700000100 MerchantSdk.sampleInvoice samplePolicy
    "0x3333333333333333333333333333333333333ABC" = inl OverBudget.
Proof. vm_compute. reflexivity. Qed.

Lemma validateInvoiceAgainstPolicy_enforces_seven_checks_witness :
  (validateInvoiceAgainstPolicy 1700000100 MerchantSdk.sampleInvoice samplePolicy
     "0x3333333333333333333333333333333333333ABC" = inr tt
     <-> forall k, holds 1700000100 MerchantSdk.sampleInvoice samplePolicy
                     "0x3333333333333333333333333333333333333ABC" 285000000 200000000 k)
  /\ (forall violation,
        validateInvoiceAgainstPolicy 1700000100 MerchantSdk.sampleInvoice samplePolicy
          "0x3333333333333333333333333333333333333ABC" = inl violation
        <-> exists k,
              earliestFailing 1700000100 MerchantSdk.sampleInvoice samplePolicy
                "0x3333333333333333333333333333333333333ABC" 285000000 200000000 k
              /\ violation = reason k)
  /\ (allowedRecipients samplePolicy = [] -> allowedTokens samplePolicy = [] ->
      (forall k, (k <= 5)%nat ->
         holds 1700000100 MerchantSdk.sampleInvoice samplePolicy
           "0x3333333333333333333333333333333333333ABC" 285000000 200000000 k) ->
      validateInvoiceAgainstPolicy 1700000100 MerchantSdk.sampleInvoice samplePolicy
        "0x3333333333333333333333333333333333333ABC" = inr tt).
Proof.
  apply (validateInvoiceAgainstPolicy_enforces_seven_checks
           1700000100 MerchantSdk.sampleInvoice samplePolicy
           "0x3333333333333333333333333333333333333ABC" 285000000 200000000);
    reflexivity.
Defined.


(** *** Enforcement over time *)

(** X16.  Enforcement only gets stricter as the clock advances: an
    invoice that passes at some time passes at every earlier time (the
    two expiry checks are the only ones that read the clock). *)
Theorem validateInvoiceAgainstPolicy_earlier_passes
    (now earlier : Z) (invoice : Invoice.InvoiceV1) (policy : DelegationPolicy)
    (payer : string) :
  earlier <= now ->
  validateInvoiceAgainstPolicy now invoice policy payer = inr tt ->
  validateInvoiceAgainstPolicy earlier invoice policy payer = inr tt.
Proof.
  intros Hle. unfold validateInvoiceAgainstPolicy.
  destruct (negb (Invoice.chainId invoice =? CHAIN_ID)); [discriminate|].
  destruct (Z.ltb_spec (Invoice.dueAt invoice) now) as [|Hdue]; [discriminate|].
  destruct (Z.ltb_spec (expiresAt policy) now) as [|Hexpires]; [discriminate|].
  replace (Invoice.dueAt invoice <? earlier) with false by (symmetry; apply Z.ltb_ge; lia).
  replace (expiresAt policy <? earlier) with false by (symmetry; apply Z.ltb_ge; lia).
  intros H. exact H.
Qed.

Definition generousPolicy : DelegationPolicy := {|
  owner := "0x3333333333333333333333333333333333333abc";
  maxAmount := "300000000";
  allowedRecipients := ["0x2222222222222222222222222222222222222222"];
  allowedTokens := [];
  expiresAt := 1700003600
|}.

Lemma validateInvoiceAgainstPolicy_earlier_passes_witness :
  validateInvoiceAgainstPolicy 1700000000 MerchantSdk.sampleInvoice generousPolicy
    "0x3333333333333333333333333333333333333ABC" = inr tt.
Proof.
  apply (validateInvoiceAgainstPolicy_earlier_passes 1700000600 1700000000
           MerchantSdk.sampleInvoice generousPolicy
           "0x3333333333333333333333333333333333333ABC").
  - lia.
  - vm_compute. reflexivity.
Defined.

(** *** The local fallback lists ([parseAddressList]) *)

(** [s.split(',')]. *)
Fixpoint splitComma (s : string) : list string :=
  match s with
  | EmptyString => [EmptyString]
  | String c rest =>
      if Js.code c =? 44 then EmptyString :: splitComma rest
      else
        match splitComma rest with
        | piece :: pieces => String c piece :: pieces
        | [] => [String c EmptyString]
        end
  end.

(** [parseAddressList(value)], [value] being an environment variable. *)
Definition parseAddressList (value : option string) : list string :=
  match value with
  | Some value =>
      if negb (Js.truthy value) then []
      else List.filter (fun entry => (0 <? String.length entry)%nat)
             (List.map Js.trim (splitComma value))
  | None => []
  end.

Example parseAddressList_ex :
  parseAddressList (Some " 0xaa , ,0xbb,") = ["0xaa"; "0xbb"]
  /\ parseAddressList (Some " , ") = [].
Proof. split; vm_compute; reflexivity. Qed.

Lemma splitComma_no_comma (s : string) :
  Forall (fun piece => Forall (fun c => Js.code c <> 44) (Js.chars piece)) (splitComma s).
Proof.
  induction s as [|c s IH]; simpl; [repeat constructor|].
  destruct (Z.eqb_spec (Js.code c) 44) as [|Hc]; [constructor; [constructor | exact IH]|].
  destruct (splitComma s) as [|piece pieces]; [repeat constructor; exact Hc|].
  inversion IH; subst. constructor; [simpl; constructor; assumption | assumption].
Qed.

(** X17.  Every entry [parseAddressList] returns is non-empty, holds no
    comma and neither starts nor ends with white space; nothing else
    about an entry is checked. *)
Theorem parseAddressList_entries (value : option string) :
  Forall (fun entry =>
            entry <> EmptyString
            /\ Forall (fun c => Js.code c <> 44) (Js.chars entry)
            /\ (forall c rest, Js.chars entry = c :: rest -> Js.isWhiteSpace c = false)
            /\ (forall c front, Js.chars entry = front ++ [c] -> Js.isWhiteSpace c = false))
    (parseAddressList value).
Proof.
  unfold parseAddressList. destruct value as [value|]; [|constructor].
  destruct (negb (Js.truthy value)); [constructor|].
  pose proof (splitComma_no_comma value) as Hpieces.
  induction Hpieces as [|piece pieces Hpiece Hrest IH]; simpl; [constructor|].
  destruct (0 <? String.length (Js.trim piece))%nat eqn:Hlen; [|exact IH].
  constructor; [|exact IH].
  split; [intros Hempty; rewrite Hempty in Hlen; discriminate Hlen|].
  unfold Js.trim. rewrite RateLimit.chars_ofChars.
  split; [|split].
  - apply RateLimit.trimEndChars_Forall, RateLimit.trimStart_Forall. exact Hpiece.
  - intros c rest Hchars. destruct (RateLimit.trimEndChars_head _ _ _ Hchars) as [rest' Hstart].
    eapply RateLimit.trimStart_head. exact Hstart.
  - intros c front Hchars. eapply RateLimit.trimEndChars_last. exact Hchars.
Qed.
End Agent.

(** ** The merchant server (merchant/server.ts) *)

Module Merchant.

Inductive OrderStatus := pending | confirmed.

Record Order := {
  status : OrderStatus;
  listingId : option string;
  invoice : Invoice.InvoiceV1;
  txHash : option string;
  confirmedAt : option Z
}.

Record IdempotencyRecord := {
  requestHash : string;
  invoiceId : string;
  createdAt : Z
}.

(** What [persistMerchantState] writes to [MERCHANT_STATE_PATH]. *)
Record PersistedMerchantState := {
  persistedOrders : gmap string Order;
  persistedIdempotency : gmap string IdempotencyRecord
}.

(** The module-level state of the server: the two maps, the state file
    and the two rate limiters. *)
Record State := {
  orders : gmap string Order;
  invoicesByIdempotencyKey : gmap string IdempotencyRecord;
  stateFile : option PersistedMerchantState;
  invoiceRateLimiter : RateLimit.InMemoryRateLimiter;
  settlementRateLimiter : RateLimit.InMemoryRateLimiter
}.

Definition setOrders (s : State) (o : gmap string Order) : State :=
  {| orders := o;
     invoicesByIdempotencyKey := invoicesByIdempotencyKey s;
     stateFile := stateFile s;
     invoiceRateLimiter := invoiceRateLimiter s;
     settlementRateLimiter := settlementRateLimiter s |}.

Definition setIdempotency (s : State) (m : gmap string IdempotencyRecord) : State :=
  {| orders := orders s;
     invoicesByIdempotencyKey := m;
     stateFile := stateFile s;
     invoiceRateLimiter := invoiceRateLimiter s;
     settlementRateLimiter := settlementRateLimiter s |}.

Definition setInvoiceRateLimiter (s : State) (l : RateLimit.InMemoryRateLimiter) : State :=
  {| orders := orders s;
     invoicesByIdempotencyKey := invoicesByIdempotencyKey s;
     stateFile := stateFile s;
     invoiceRateLimiter := l;
     settlementRateLimiter := settlementRateLimiter s |}.

Definition setSettlementRateLimiter (s : State) (l : RateLimit.InMemoryRateLimiter) : State :=
  {| orders := orders s;
     invoicesByIdempotencyKey := invoicesByIdempotencyKey s;
     stateFile := stateFile s;
     invoiceRateLimiter := invoiceRateLimiter s;
     settlementRateLimiter := l |}.

(** [persistMerchantState()]: the file receives the two maps as they
    are; the write itself is taken to succeed. *)
Definition persistMerchantState (s : State) : State :=
  {| orders := orders s;
     invoicesByIdempotencyKey := invoicesByIdempotencyKey s;
     stateFile := Some {| persistedOrders := orders s;
                          persistedIdempotency := invoicesByIdempotencyKey s |};
     invoiceRateLimiter := invoiceRateLimiter s;
     settlementRateLimiter := settlementRateLimiter s |}.

(** The responses of the handlers: [errorResponse(c, status, code,
    message, details)] and the success bodies. *)
Inductive Response :=
| errorResponse (httpStatus : Z) (code message : string)
    (details : option (string * Canonical.Json))
| SettlementConfirmed (invoiceId_ txHash_ : string) (idempotentReplay : bool)
| DemoConfirmed (invoiceId_ : string) (txHash_ : option string) (idempotentReplay : bool)
| InvoiceCreated (invoice_ : Invoice.InvoiceV1) (idempotentReplay : bool)
| InvoiceFound (invoice_ : Invoice.InvoiceV1) (status_ : OrderStatus)
    (txHash_ : option string) (confirmedAt_ : option Z).

(** A transaction receipt of the ledger client. *)
Inductive ReceiptStatus := success | reverted.

Record TransactionReceipt := {
  receiptStatus : ReceiptStatus;
  logs : list MerchantSdk.Log
}.

(** The body of a confirmation request, at its declared type. *)
Record ConfirmBody := {
  body_invoiceId : option string;
  body_orderId : option string;
  body_txHash : option string
}.

(** [a ?? b]. *)
Definition nullish {A : Type} (a b : option A) : option A :=
  match a with
  | Some _ => a
  | None => b
  end.

Section ConfirmSettlement.

(** [publicClient.getTransactionReceipt({ hash })]: [None] when the call
    throws. *)
Variable getTransactionReceipt : string -> option TransactionReceipt.

(** The clock, [Math.floor(Date.now() / 1000)]. *)
Variable now : Z.

(** [confirmSettlement(c, body)]: the response and the state after. *)
Definition confirmSettlement (s : State) (body : ConfirmBody) : Response * State :=
  let invoiceId := nullish (body_invoiceId body) (body_orderId body) in
  match invoiceId, body_txHash body with
  | Some invoiceId, Some bodyTxHash =>
      if negb (Js.truthy invoiceId) || negb (Js.truthy bodyTxHash)
      then (errorResponse 400 "MISSING_CONFIRMATION_FIELDS"
              "Missing invoiceId/orderId or txHash" None, s)
      else
        match orders s !! invoiceId with
        | None => (errorResponse 404 "INVOICE_NOT_FOUND" "Invoice not found" None, s)
        | Some order =>
            match status order with
            | confirmed =>
                if bool_decide (txHash order = Some bodyTxHash)
                then (SettlementConfirmed invoiceId bodyTxHash true, s)
                else (errorResponse 409 "INVOICE_ALREADY_CONFIRMED"
                        "Invoice is already confirmed with a different transaction hash."
                        (Some ("existingTxHash",
                               Canonical.JString (default "unknown" (txHash order)))), s)
            | pending =>
                let notFound :=
                  (errorResponse 400 "TRANSACTION_NOT_FOUND_OR_INVALID"
                     "Transaction not found or invalid for this invoice" None, s) in
                match getTransactionReceipt bodyTxHash with
                | None => notFound
                | Some receipt =>
                    match receiptStatus receipt with
                    | reverted =>
                        (errorResponse 400 "TRANSACTION_FAILED" "Transaction failed" None, s)
                    | success =>
                        match MerchantSdk.matchSettlement (invoice order) (logs receipt) with
                        | None => notFound
                        | Some None =>
                            (errorResponse 400 "SETTLEMENT_MISMATCH"
                               "No matching TransferWithMemo event found for this invoice."
                               None, s)
                        | Some (Some _) =>
                            let order' :=
                              {| status := confirmed;
                                 listingId := listingId order;
                                 invoice := invoice order;
                                 txHash := Some bodyTxHash;
                                 confirmedAt := Some now |} in
                            (SettlementConfirmed (Invoice.invoiceId (invoice order))
                               bodyTxHash false,
                             persistMerchantState
                               (setOrders s (<[invoiceId := order']> (orders s))))
                        end
                    end
                end
            end
        end
  | _, _ =>
      (errorResponse 400 "MISSING_CONFIRMATION_FIELDS"
         "Missing invoiceId/orderId or txHash" None, s)
  end.

End ConfirmSettlement.


(** *** Confirmation is final *)

Definition sampleOrder (st : OrderStatus) (hash : option string) : Order := {|
  status := st;
  listingId := Some "cozy-loft";
  invoice := MerchantSdk.sampleInvoice;
  txHash := hash;
  confirmedAt := match hash with Some _ => Some 1700000200 | None => None end
|}.

Definition emptyState : State := {|
  orders := ∅;
  invoicesByIdempotencyKey := ∅;
  stateFile := None;
  invoiceRateLimiter := RateLimit.create 60 60000;
  settlementRateLimiter := RateLimit.create 30 60000
|}.

Definition sampleTxHash : string :=
  "0xaaaaaaaaaaaaaaaaaaaaaaaaaaaaaaaaaaaaaaaaaaaaaaaaaaaaaaaaaaaaaaaa".

Definition otherTxHash : string :=
  "0xbbbbbbbbbbbbbbbbbbbbbbbbbbbbbbbbbbbbbbbbbbbbbbbbbbbbbbbbbbbbbbbb".

Definition confirmedState : State :=
  setOrders emptyState {[ "INV-TEST-1" := sampleOrder confirmed (Some sampleTxHash) ]}.

Definition confirmRequest (hash : string) : ConfirmBody := {|
  body_invoiceId := Some "INV-TEST-1";
  body_orderId := None;
  body_txHash := Some hash
|}.

(** A ledger on which every transaction carries a matching transfer. *)
Definition sampleLedger (hash : string) : option TransactionReceipt :=
  Some {| receiptStatus := success; logs := MerchantSdk.sampleLogs |}.

Lemma truthy_true (s : string) : s <> EmptyString -> Js.truthy s = true.
Proof.
  intros H. unfold Js.truthy. rewrite bool_decide_eq_false_2 by exact H. reflexivity.
Qed.

(** C3.  For a stored order that is confirmed: no confirmation request,
    whatever invoice and transaction it names, changes that order; a
    request for it with the stored transaction hash is answered as
    confirmed with [idempotentReplay = true]; a request for it with any
    other transaction hash is answered 409; in both cases the whole state
    is as before. *)
Theorem confirmSettlement_confirmed_order_is_final
    (getTransactionReceipt : string -> option TransactionReceipt) (now : Z)
    (s : State) (body : ConfirmBody) (invoiceId : string) (order : Order) :
  orders s !! invoiceId = Some order ->
  status order = confirmed ->
  orders (confirmSettlement getTransactionReceipt now s body).2 !! invoiceId = Some order
  /\ (forall hash,
        nullish (body_invoiceId body) (body_orderId body) = Some invoiceId ->
        body_txHash body = Some hash ->
        invoiceId <> EmptyString -> hash <> EmptyString ->
        (txHash order = Some hash ->
           confirmSettlement getTransactionReceipt now s body
           = (SettlementConfirmed invoiceId hash true, s))
        /\ (txHash order <> Some hash ->
              confirmSettlement getTransactionReceipt now s body
              = (errorResponse 409 "INVOICE_ALREADY_CONFIRMED"
                   "Invoice is already confirmed with a different transaction hash."
                   (Some ("existingTxHash",
                          Canonical.JString (default "unknown" (txHash order)))), s))).
Proof.
  intros Hlookup Hconfirmed. split.
  - unfold confirmSettlement.
    destruct (nullish (body_invoiceId body) (body_orderId body)) as [requested|];
      [|exact Hlookup].
    destruct (body_txHash body) as [hash|]; [|exact Hlookup].
    destruct (negb (Js.truthy requested) || negb (Js.truthy hash)); [exact Hlookup|].
    destruct (orders s !! requested) as [found|] eqn:Hfound; [|exact Hlookup].
    destruct (status found) eqn:Hstatus.
    + destruct (getTransactionReceipt hash) as [receipt|]; [|exact Hlookup].
      destruct (receiptStatus receipt); [|exact Hlookup].
      destruct (MerchantSdk.matchSettlement (invoice found) (logs receipt)) as [[matched|]|];
        try exact Hlookup.
      simpl. rewrite lookup_insert_ne; [exact Hlookup|].
      intros ->. rewrite Hlookup in Hfound. injection Hfound as <-. congruence.
    + destruct (bool_decide (txHash found = Some hash)); exact Hlookup.
  - intros hash Hid Hhash Hne1 Hne2. unfold confirmSettlement.
    rewrite Hid, Hhash, (truthy_true _ Hne1), (truthy_true _ Hne2), Hlookup, Hconfirmed.
    simpl. split; intros Htx.
    + rewrite bool_decide_eq_true_2 by exact Htx. reflexivity.
    + rewrite bool_decide_eq_false_2 by exact Htx. reflexivity.
Qed.

Lemma confirmSettlement_confirmed_order_is_final_witness :
  orders (confirmSettlement sampleLedger 1700000300 confirmedState
            (confirmRequest otherTxHash)).2 !! "INV-TEST-1"
    = Some (sampleOrder confirmed (Some sampleTxHash))
  /\ (forall hash,
        nullish (body_invoiceId (confirmRequest otherTxHash))
                (body_orderId (confirmRequest otherTxHash)) = Some "INV-TEST-1" ->
        body_txHash (confirmRequest otherTxHash) = Some hash ->
        "INV-TEST-1" <> EmptyString -> hash <> EmptyString ->
        (txHash (sampleOrder confirmed (Some sampleTxHash)) = Some hash ->
           confirmSettlement sampleLedger 1700000300 confirmedState (confirmRequest otherTxHash)
           = (SettlementConfirmed "INV-TEST-1" hash true, confirmedState))
        /\ (txHash (sampleOrder confirmed (Some sampleTxHash)) <> Some hash ->
              confirmSettlement sampleLedger 1700000300 confirmedState
                (confirmRequest otherTxHash)
              = (errorResponse 409 "INVOICE_ALREADY_CONFIRMED"
                   "Invoice is already confirmed with a different transaction hash."
                   (Some ("existingTxHash",
                          Canonical.JString
                            (default "unknown"
                               (txHash (sampleOrder confirmed (Some sampleTxHash)))))),
                 confirmedState))).
Proof.
  apply (confirmSettlement_confirmed_order_is_final sampleLedger 1700000300 confirmedState
           (confirmRequest otherTxHash) "INV-TEST-1"
           (sampleOrder confirmed (Some sampleTxHash))).
  - reflexivity.
  - reflexivity.
Defined.

(** A pending order, the same ledger: the first request confirms, the
    same request again is a replay, another hash is a conflict. *)
Example confirmSettlement_sequence :
  let s0 := setOrders emptyState {[ "INV-TEST-1" := sampleOrder pending None ]} in
  let '(r1, s1) := confirmSettlement sampleLedger 1700000300 s0 (confirmRequest sampleTxHash) in
  let '(r2, s2) := confirmSettlement sampleLedger 1700000400 s1 (confirmRequest sampleTxHash) in
  let '(r3, s3) := confirmSettlement sampleLedger 1700000500 s2 (confirmRequest otherTxHash) in
  r1 = SettlementConfirmed "INV-TEST-1" sampleTxHash false
  /\ r2 = SettlementConfirmed "INV-TEST-1" sampleTxHash true
  /\ (exists details, r3 = errorResponse 409 "INVOICE_ALREADY_CONFIRMED"
        "Invoice is already confirmed with a different transaction hash." details)
  /\ s2 = s1 /\ s3 = s1
  /\ (txHash <$> orders s3 !! "INV-TEST-1") = Some (Some sampleTxHash).
Proof.
  vm_compute. repeat split. eexists. reflexivity.
Qed.

(** *** Requests, rate limiting and the settlement credential *)

(** A request as a handler reads it: [c.req.header(name)] and the
    outcome of [c.req.json()] at the type the handler gives it ([None]
    when the body is not valid JSON). *)
Record Request (B : Type) := {
  header : string -> option string;
  json : option B
}.

Arguments header {B} _ _.
Arguments json {B} _.

(** [rateLimitOrError(c, limiter, bucket)] at the clock reading [nowMs]
    (milliseconds): the error response, if any, and the limiter after. *)
Definition rateLimitOrError {B : Type} (req : Request B)
    (limiter : RateLimit.InMemoryRateLimiter) (bucket : string) (nowMs : Z)
  : option Response * RateLimit.InMemoryRateLimiter :=
  let key := bucket +:+ ":" +:+ RateLimit.getClientIp (header req) in
  let '(result, limiter') := RateLimit.check limiter key nowMs in
  if RateLimit.allowed result then (None, limiter')
  else (Some (errorResponse 429 "RATE_LIMITED" "Too many requests. Try again shortly."
                (Some ("retryAfterSeconds",
                       Canonical.JNumber (RateLimit.retryAfterSeconds result)))),
        limiter').

Section Confirm.

(** The environment variable [MERCHANT_CONFIRM_TOKEN], if set. *)
Variable env_MERCHANT_CONFIRM_TOKEN : option string.

(** [process.env.MERCHANT_CONFIRM_TOKEN?.trim()]. *)
Definition MERCHANT_CONFIRM_TOKEN : option string :=
  Js.trim <$> env_MERCHANT_CONFIRM_TOKEN.

(** [requireSettlementAuthOrError(c)]. *)
Definition requireSettlementAuthOrError {B : Type} (req : Request B) : option Response :=
  if negb (Js.truthyOpt MERCHANT_CONFIRM_TOKEN) then None
  else
    let provided := header req "x-merchant-confirm-token" in
    if bool_decide (provided = MERCHANT_CONFIRM_TOKEN) then None
    else Some (errorResponse 401 "UNAUTHORIZED_SETTLEMENT_CONFIRM"
                 "Missing or invalid x-merchant-confirm-token" None).

Variable getTransactionReceipt : string -> option TransactionReceipt.

(** The clock at the rate-limit check (milliseconds) and at the
    confirmation (seconds). *)
Variables (nowMs now : Z).

(** The handler of [POST /api/confirm]. *)
Definition postConfirm (s : State) (req : Request ConfirmBody) : Response * State :=
  let '(rateLimitError, limiter) :=
    rateLimitOrError req (settlementRateLimiter s) "confirm-settlement" nowMs in
  let s := setSettlementRateLimiter s limiter in
  match rateLimitError with
  | Some response => (response, s)
  | None =>
      match requireSettlementAuthOrError req with
      | Some response => (response, s)
      | None =>
          match json req with
          | None => (errorResponse 400 "BAD_JSON" "Request body must be valid JSON" None, s)
          | Some body => confirmSettlement getTransactionReceipt now s body
          end
      end
  end.

End Confirm.

(** *** The settlement credential is required only when configured *)

Definition pendingState : State :=
  setOrders emptyState {[ "INV-TEST-1" := sampleOrder pending None ]}.

(** A confirmation request from one client, with or without the
    credential header. *)
Definition confirmHttpRequest (credential : option string) : Request ConfirmBody := {|
  header := fun name =>
    if bool_decide (name = "x-merchant-confirm-token") then credential
    else if bool_decide (name = "x-real-ip") then Some "203.0.113.7"
    else None;
  json := Some (confirmRequest sampleTxHash)
|}.

Lemma rateLimitOrError_limiter_only {B : Type} (req : Request B) limiter bucket nowMs s :
  let s' := setSettlementRateLimiter s (rateLimitOrError req limiter bucket nowMs).2 in
  orders s' = orders s
  /\ invoicesByIdempotencyKey s' = invoicesByIdempotencyKey s
  /\ stateFile s' = stateFile s.
Proof. simpl. repeat split. Qed.

(** C8 (as amended).  With a confirmation token configured (not empty
    once trimmed), a request to [POST /api/confirm] whose
    [x-merchant-confirm-token] header is absent or differs from the token
    is answered 401, or 429 when the rate limit is hit, whatever the
    ledger holds, and orders, idempotency records and the state file are
    as before. *)
Theorem postConfirm_requires_credential_when_configured
    (env_token : option string) (token : string)
    (getTransactionReceipt : string -> option TransactionReceipt) (nowMs now : Z)
    (s : State) (req : Request ConfirmBody) :
  MERCHANT_CONFIRM_TOKEN env_token = Some token -> token <> EmptyString ->
  header req "x-merchant-confirm-token" <> Some token ->
  let result := postConfirm env_token getTransactionReceipt nowMs now s req in
  (result.1 = errorResponse 401 "UNAUTHORIZED_SETTLEMENT_CONFIRM"
                "Missing or invalid x-merchant-confirm-token" None
   \/ exists retryAfter,
        result.1 = errorResponse 429 "RATE_LIMITED" "Too many requests. Try again shortly."
                     (Some ("retryAfterSeconds", Canonical.JNumber retryAfter)))
  /\ orders result.2 = orders s
  /\ invoicesByIdempotencyKey result.2 = invoicesByIdempotencyKey s
  /\ stateFile result.2 = stateFile s.
Proof.
  intros Htoken Hne Hheader. simpl. unfold postConfirm, rateLimitOrError.
  destruct (RateLimit.check (settlementRateLimiter s) _ nowMs) as [checked limiter].
  destruct (RateLimit.allowed checked).
  - unfold requireSettlementAuthOrError. rewrite Htoken. simpl.
    rewrite (truthy_true _ Hne). simpl.
    rewrite bool_decide_eq_false_2 by exact Hheader.
    simpl. repeat split. left. reflexivity.
  - simpl. repeat split. right. eexists. reflexivity.
Qed.

Lemma postConfirm_requires_credential_when_configured_witness :
  let result :=
    postConfirm (Some " secret ") sampleLedger 1700000300000 1700000300 pendingState
      (confirmHttpRequest (Some "Secret")) in
  (result.1 = errorResponse 401 "UNAUTHORIZED_SETTLEMENT_CONFIRM"
                "Missing or invalid x-merchant-confirm-token" None
   \/ exists retryAfter,
        result.1 = errorResponse 429 "RATE_LIMITED" "Too many requests. Try again shortly."
                     (Some ("retryAfterSeconds", Canonical.JNumber retryAfter)))
  /\ orders result.2 = orders pendingState
  /\ invoicesByIdempotencyKey result.2 = invoicesByIdempotencyKey pendingState
  /\ stateFile result.2 = stateFile pendingState.
Proof.
  apply (postConfirm_requires_credential_when_configured (Some " secret ") "secret"
           sampleLedger 1700000300000 1700000300 pendingState
           (confirmHttpRequest (Some "Secret"))).
  - reflexivity.
  - discriminate.
  - simpl. discriminate.
Defined.

(** With no token configured, or an empty one, the credential check lets
    every request through. *)
Lemma requireSettlementAuthOrError_open {B : Type} (env_token : option string)
    (req : Request B) :
  Js.truthyOpt (MERCHANT_CONFIRM_TOKEN env_token) = false ->
  requireSettlementAuthOrError env_token req = None.
Proof.
  intros Hfalsy. unfold requireSettlementAuthOrError. rewrite Hfalsy. reflexivity.
Qed.

(** C8 (the claim as stated fails).  With no confirmation token
    configured the server serves confirmations, and a request that
    carries no credential at all is processed: the ledger is consulted,
    settlement matching runs and the pending order is confirmed. *)
Lemma postConfirm_open_without_token :
  MERCHANT_CONFIRM_TOKEN None = None
  /\ header (confirmHttpRequest None) "x-merchant-confirm-token" = None
  /\ (postConfirm None sampleLedger 1700000300000 1700000300 pendingState
        (confirmHttpRequest None)).1
     = SettlementConfirmed "INV-TEST-1" sampleTxHash false
  /\ (status <$> orders (postConfirm None sampleLedger 1700000300000 1700000300 pendingState
                           (confirmHttpRequest None)).2 !! "INV-TEST-1")
     = Some confirmed.
Proof. vm_compute. repeat split. Qed.

(** *** What a confirmation rests on *)

Definition confirmedWith (order : Order) (hash : string) (now : Z) : Order :=
  {| status := confirmed;
     listingId := listingId order;
     invoice := invoice order;
     txHash := Some hash;
     confirmedAt := Some now |}.

(** The shape of a call that confirms. *)
Lemma confirmSettlement_fresh_inv
    (getTransactionReceipt : string -> option TransactionReceipt) (now : Z)
    (s s' : State) (body : ConfirmBody) (id hash : string) :
  confirmSettlement getTransactionReceipt now s body = (SettlementConfirmed id hash false, s') ->
  exists key order receipt matched,
    nullish (body_invoiceId body) (body_orderId body) = Some key
    /\ body_txHash body = Some hash
    /\ key <> EmptyString /\ hash <> EmptyString
    /\ orders s !! key = Some order
    /\ status order = pending
    /\ getTransactionReceipt hash = Some receipt
    /\ receiptStatus receipt = success
    /\ MerchantSdk.matchSettlement (invoice order) (logs receipt) = Some (Some matched)
    /\ id = Invoice.invoiceId (invoice order)
    /\ s' = persistMerchantState
              (setOrders s (<[key := confirmedWith order hash now]> (orders s))).
Proof.
  unfold confirmSettlement.
  destruct (nullish (body_invoiceId body) (body_orderId body)) as [key|]; [|discriminate].
  destruct (body_txHash body) as [bodyTxHash|]; [|discriminate].
  destruct (Js.truthy key) eqn:Hkey; [|discriminate].
  destruct (Js.truthy bodyTxHash) eqn:Hhash; [|discriminate].
  cbn [negb orb].
  destruct (orders s !! key) as [order|] eqn:Horder; [|discriminate].
  destruct (status order) eqn:Hstatus.
  - destruct (getTransactionReceipt bodyTxHash) as [receipt|] eqn:Hreceipt; [|discriminate].
    destruct (receiptStatus receipt) eqn:Hsuccess; [|discriminate].
    destruct (MerchantSdk.matchSettlement (invoice order) (logs receipt))
      as [[matched|]|] eqn:Hmatch; try discriminate.
    intros [= <- <- <-]. exists key, order, receipt, matched.
    repeat split; try assumption; try reflexivity.
    + intros ->. discriminate Hkey.
    + intros ->. discriminate Hhash.
  - destruct (bool_decide (txHash order = Some bodyTxHash)); discriminate.
Qed.

(** X18.  A confirmation is only ever granted on evidence: when
    [confirmSettlement] answers confirmed with [idempotentReplay =
    false], the order was pending, the ledger returned a successful
    receipt for the transaction hash, one of its [TransferWithMemo]
    events satisfies the matching rule of the order's invoice, and the
    only change to the orders is that this order is now confirmed with
    that hash and the time of the call; the state file holds the new
    maps. *)
Theorem confirmSettlement_confirms_on_matching_event
    (getTransactionReceipt : string -> option TransactionReceipt) (now : Z)
    (s s' : State) (body : ConfirmBody) (id hash : string) :
  confirmSettlement getTransactionReceipt now s body = (SettlementConfirmed id hash false, s') ->
  exists key order receipt amount eventLog,
    orders s !! key = Some order
    /\ status order = pending
    /\ getTransactionReceipt hash = Some receipt
    /\ receiptStatus receipt = success
    /\ Js.BigInt (Invoice.amount (invoice order)) = Some amount
    /\ eventLog ∈ MerchantSdk.parseEventLogs (logs receipt)
    /\ MerchantSdk.satisfies (invoice order) amount eventLog
    /\ orders s' = <[key := confirmedWith order hash now]> (orders s)
    /\ invoicesByIdempotencyKey s' = invoicesByIdempotencyKey s
    /\ stateFile s' = Some {| persistedOrders := orders s';
                              persistedIdempotency := invoicesByIdempotencyKey s' |}.
Proof.
  intros Hcall.
  destruct (confirmSettlement_fresh_inv _ _ _ _ _ _ _ Hcall)
    as (key & order & receipt & matched & _ & _ & _ & _ & Horder & Hstatus & Hreceipt
        & Hsuccess & Hmatch & _ & ->).
  unfold MerchantSdk.matchSettlement in Hmatch.
  destruct (Js.BigInt (Invoice.amount (invoice order))) as [amount|] eqn:Hamount;
    [|discriminate].
  injection Hmatch as Hfind.
  destruct (MerchantSdk.find_first _ _ _ Hfind) as (before & after & Hsplit & Hmatches & _).
  exists key, order, receipt, amount, matched.
  split; [exact Horder|]. split; [exact Hstatus|]. split; [exact Hreceipt|].
  split; [exact Hsuccess|]. split; [exact Hamount|].
  split; [rewrite Hsplit; apply elem_of_app; right; left|].
  split; [apply MerchantSdk.eventMatches_spec; exact Hmatches|].
  repeat split.
Qed.

Lemma confirmSettlement_confirms_on_matching_event_witness :
  exists key order receipt amount eventLog,
    orders pendingState !! key = Some order
    /\ status order = pending
    /\ sampleLedger sampleTxHash = Some receipt
    /\ receiptStatus receipt = success
    /\ Js.BigInt (Invoice.amount (invoice order)) = Some amount
    /\ eventLog ∈ MerchantSdk.parseEventLogs (logs receipt)
    /\ MerchantSdk.satisfies (invoice order) amount eventLog
    /\ orders (confirmSettlement sampleLedger 1700000300 pendingState
                 (confirmRequest sampleTxHash)).2
       = <[key := confirmedWith order sampleTxHash 1700000300]> (orders pendingState)
    /\ invoicesByIdempotencyKey
         (confirmSettlement sampleLedger 1700000300 pendingState
            (confirmRequest sampleTxHash)).2
       = invoicesByIdempotencyKey pendingState
    /\ stateFile (confirmSettlement sampleLedger 1700000300 pendingState
                    (confirmRequest sampleTxHash)).2
       = Some {| persistedOrders :=
                   orders (confirmSettlement sampleLedger 1700000300 pendingState
                             (confirmRequest sampleTxHash)).2;
                 persistedIdempotency :=
                   invoicesByIdempotencyKey
                     (confirmSettlement sampleLedger 1700000300 pendingState
                        (confirmRequest sampleTxHash)).2 |}.
Proof.
  apply (confirmSettlement_confirms_on_matching_event sampleLedger 1700000300 pendingState
           (confirmSettlement sampleLedger 1700000300 pendingState
              (confirmRequest sampleTxHash)).2
           (confirmRequest sampleTxHash) "INV-TEST-1" sampleTxHash).
  vm_compute. reflexivity.
Defined.

(** X19.  Confirming twice: after a call that confirmed an order, the
    same request is answered as a replay with the same transaction hash,
    whatever the ledger then says and whenever it is made, and leaves
    the state as the first call left it. *)
Theorem confirmSettlement_then_replay
    (getTransactionReceipt getTransactionReceipt' : string -> option TransactionReceipt)
    (now now' : Z) (s s' : State) (body : ConfirmBody) (id hash : string) :
  confirmSettlement getTransactionReceipt now s body = (SettlementConfirmed id hash false, s') ->
  exists key,
    nullish (body_invoiceId body) (body_orderId body) = Some key
    /\ confirmSettlement getTransactionReceipt' now' s' body
       = (SettlementConfirmed key hash true, s').
Proof.
  intros Hcall.
  destruct (confirmSettlement_fresh_inv _ _ _ _ _ _ _ Hcall)
    as (key & order & receipt & matched & Hkey & Hhash & Hne1 & Hne2 & _ & _ & _ & _ & _
        & _ & ->).
  exists key. split; [exact Hkey|].
  unfold confirmSettlement. rewrite Hkey, Hhash, (truthy_true _ Hne1), (truthy_true _ Hne2).
  cbn [negb orb persistMerchantState setOrders orders].
  rewrite lookup_insert_eq. cbn [confirmedWith status txHash].
  rewrite bool_decide_eq_true_2 by reflexivity. reflexivity.
Qed.

Lemma confirmSettlement_then_replay_witness :
  exists key,
    nullish (body_invoiceId (confirmRequest sampleTxHash))
            (body_orderId (confirmRequest sampleTxHash)) = Some key
    /\ confirmSettlement (fun _ => None) 1700000999
         (confirmSettlement sampleLedger 1700000300 pendingState
            (confirmRequest sampleTxHash)).2
         (confirmRequest sampleTxHash)
       = (SettlementConfirmed key sampleTxHash true,
          (confirmSettlement sampleLedger 1700000300 pendingState
             (confirmRequest sampleTxHash)).2).
Proof.
  apply (confirmSettlement_then_replay sampleLedger (fun _ => None) 1700000300 1700000999
           pendingState
           (confirmSettlement sampleLedger 1700000300 pendingState
              (confirmRequest sampleTxHash)).2
           (confirmRequest sampleTxHash) "INV-TEST-1" sampleTxHash).
  vm_compute. reflexivity.
Defined.

(** X20.  A confirmation request that is answered with an error of any
    code other than [TRANSACTION_NOT_FOUND_OR_INVALID] leaves the whole
    state as it was: these answers are all given before the order is
    touched.  (That one code is also what the [catch] of the function
    answers when something throws after the order has been marked, such
    as the write of the state file, so it is left out here.)  And no
    confirmation request ever changes the idempotency records or the
    rate limiters. *)
Theorem confirmSettlement_errors_change_nothing
    (getTransactionReceipt : string -> option TransactionReceipt) (now : Z)
    (s : State) (body : ConfirmBody) :
  (forall httpStatus code message details,
     (confirmSettlement getTransactionReceipt now s body).1
     = errorResponse httpStatus code message details ->
     code <> "TRANSACTION_NOT_FOUND_OR_INVALID" ->
     (confirmSettlement getTransactionReceipt now s body).2 = s)
  /\ invoicesByIdempotencyKey (confirmSettlement getTransactionReceipt now s body).2
     = invoicesByIdempotencyKey s
  /\ invoiceRateLimiter (confirmSettlement getTransactionReceipt now s body).2
     = invoiceRateLimiter s
  /\ settlementRateLimiter (confirmSettlement getTransactionReceipt now s body).2
     = settlementRateLimiter s.
Proof.
  unfold confirmSettlement.
  destruct (nullish (body_invoiceId body) (body_orderId body)) as [key|];
    [|repeat split].
  destruct (body_txHash body) as [bodyTxHash|]; [|repeat split].
  destruct (negb (Js.truthy key) || negb (Js.truthy bodyTxHash)); [repeat split|].
  destruct (orders s !! key) as [order|]; [|repeat split].
  destruct (status order).
  - destruct (getTransactionReceipt bodyTxHash) as [receipt|]; [|repeat split].
    destruct (receiptStatus receipt); [|repeat split].
    destruct (MerchantSdk.matchSettlement (invoice order) (logs receipt)) as [[matched|]|];
      repeat split.
    intros httpStatus code message details Hresponse. discriminate Hresponse.
  - destruct (bool_decide (txHash order = Some bodyTxHash)); repeat split.
Qed.

(** *** Invoice creation and the idempotency key *)

Record ResolvedInvoiceInput := {
  resolved_listingId : option string;
  resolved_recipient : string;
  resolved_token : string;
  resolved_amount : string;
  resolved_description : string;
  resolved_dueAt : Z;
  resolved_merchantReference : option string;
  resolved_purpose : option string;
  resolved_lineItems : option (list Invoice.InvoiceLineItemV1);
  resolved_metadata : option (list (string * Canonical.Json))
}.

(** One character of the class [[A-Za-z0-9:._-]]. *)
Definition isIdempotencyKeyChar (c : ascii) : bool :=
  Js.inRange 65 90 c || Js.inRange 97 122 c || Js.isDigit c
  || (Js.code c =? 58) || (Js.code c =? 46) || (Js.code c =? 95) || (Js.code c =? 45).

(** The test [/^[A-Za-z0-9:._-]+$/.test(key)]. *)
Definition isIdempotencyKeyText (key : string) : bool :=
  Js.truthy key && forallb isIdempotencyKeyChar (Js.chars key).

Section CreateInvoice.

(** [merchantSdk.createInvoice(input)] as it would answer this request:
    the signed invoice, or the message of the error it throws. *)
Variable createInvoice : MerchantSdk.MerchantInvoiceInput -> string + Invoice.InvoiceV1.

(** The clock, [Math.floor(Date.now() / 1000)]. *)
Variable now : Z.

(** [issueInvoice(input, payer)]: [inl] is the message of the error
    thrown; on success the order is stored as pending. *)
Definition issueInvoice (s : State) (input : ResolvedInvoiceInput) (payer : option string)
  : string + (Invoice.InvoiceV1 * State) :=
  match createInvoice
          {| MerchantSdk.input_amount := resolved_amount input;
             MerchantSdk.input_description := resolved_description input;
             MerchantSdk.input_dueAt := Some (resolved_dueAt input);
             MerchantSdk.input_dueInSeconds := None;
             MerchantSdk.input_invoiceId := None;
             MerchantSdk.input_issuedAt := None;
             MerchantSdk.input_merchantReference := resolved_merchantReference input;
             MerchantSdk.input_metadata := resolved_metadata input;
             MerchantSdk.input_payer := payer;
             MerchantSdk.input_purpose := resolved_purpose input;
             MerchantSdk.input_recipient := Some (resolved_recipient input);
             MerchantSdk.input_token := Some (resolved_token input);
             MerchantSdk.input_lineItems := resolved_lineItems input |} with
  | inl message => inl message
  | inr invoice =>
      inr (invoice,
           setOrders s
             (<[Invoice.invoiceId invoice :=
                  {| status := pending;
                     listingId := resolved_listingId input;
                     invoice := invoice;
                     txHash := None;
                     confirmedAt := None |}]> (orders s)))
  end.

(** The last part of the handler of [POST /api/invoices], from the
    idempotency key on ([postInvoices] below is the whole handler):
    [idempotencyHeader] is [c.req.header('idempotency-key')],
    [requestHash_] is [hashInvoiceRequest(request, payer)], and [now] is
    the clock when the idempotency record is written. *)
Definition postInvoicesResolved (s : State) (idempotencyHeader : option string)
    (requestHash_ : string) (resolved : ResolvedInvoiceInput) (payer : option string)
  : Response * State :=
  let idempotencyKey := Js.trim <$> idempotencyHeader in
  if match idempotencyKey with
     | Some key =>
         Js.truthy key
         && ((128 <? String.length key)%nat || negb (isIdempotencyKeyText key))
     | None => false
     end
  then (errorResponse 400 "INVALID_IDEMPOTENCY_KEY"
          "Idempotency-Key must be <= 128 chars and use [A-Za-z0-9:._-]" None, s)
  else
    let existingRecord :=
      match idempotencyKey with
      | Some key => if Js.truthy key then invoicesByIdempotencyKey s !! key else None
      | None => None
      end in
    match existingRecord with
    | Some existingRecord =>
        if negb (Js.strEq (requestHash existingRecord) requestHash_)
        then (errorResponse 409 "IDEMPOTENCY_KEY_REUSED_WITH_DIFFERENT_PAYLOAD"
                "Idempotency-Key already used with different request payload." None, s)
        else
          match orders s !! invoiceId existingRecord with
          | None =>
              (errorResponse 500 "INVOICE_LOOKUP_FAILED"
                 "Stored invoice could not be loaded" None, s)
          | Some existingOrder => (InvoiceCreated (invoice existingOrder) true, s)
          end
    | None =>
        match issueInvoice s resolved payer with
        | inl message => (errorResponse 400 "INVALID_INVOICE_INPUT" message None, s)
        | inr (invoice, s) =>
            let s :=
              match idempotencyKey with
              | Some key =>
                  if Js.truthy key
                  then setIdempotency s
                         (<[key := {| requestHash := requestHash_;
                                      invoiceId := Invoice.invoiceId invoice;
                                      createdAt := now |}]> (invoicesByIdempotencyKey s))
                  else s
              | None => s
              end in
            (InvoiceCreated invoice false, persistMerchantState s)
        end
    end.

End CreateInvoice.






(** A malformed key is refused before anything is looked up or issued. *)
Lemma postInvoicesResolved_malformed_key
    (createInvoice : MerchantSdk.MerchantInvoiceInput -> string + Invoice.InvoiceV1)
    (now : Z) (s : State) (idempotencyHeader : option string) (key requestHash_ : string)
    (resolved : ResolvedInvoiceInput) (payer : option string) :
  Js.trim <$> idempotencyHeader = Some key ->
  key <> EmptyString ->
  (128 < String.length key)%nat \/ isIdempotencyKeyText key = false ->
  postInvoicesResolved createInvoice now s idempotencyHeader requestHash_ resolved payer
  = (errorResponse 400 "INVALID_IDEMPOTENCY_KEY"
       "Idempotency-Key must be <= 128 chars and use [A-Za-z0-9:._-]" None, s).
Proof.
  intros Hkey Hne Hbad. unfold postInvoicesResolved. rewrite Hkey, (truthy_true _ Hne).
  replace ((128 <? String.length key)%nat || negb (isIdempotencyKeyText key)) with true;
    [reflexivity|].
  symmetry. apply orb_true_iff. destruct Hbad as [Hlong | Htext].
  - left. apply Nat.ltb_lt. exact Hlong.
  - right. rewrite Htext. reflexivity.
Qed.

(** From the idempotency key on, no record is replaced or removed, and
    an error response comes with the state unchanged. *)
Lemma postInvoicesResolved_keeps_records
    (createInvoice : MerchantSdk.MerchantInvoiceInput -> string + Invoice.InvoiceV1)
    (now : Z) (s : State) (idempotencyHeader : option string) (requestHash_ : string)
    (resolved : ResolvedInvoiceInput) (payer : option string) :
  let result :=
    postInvoicesResolved createInvoice now s idempotencyHeader requestHash_ resolved payer in
  (forall key record,
     invoicesByIdempotencyKey s !! key = Some record ->
     invoicesByIdempotencyKey result.2 !! key = Some record)
  /\ (forall httpStatus code message details,
        result.1 = errorResponse httpStatus code message details -> result.2 = s).
Proof.
  cbv zeta. unfold postInvoicesResolved.
  destruct (match Js.trim <$> idempotencyHeader with
            | Some key => Js.truthy key && _
            | None => false
            end).
  { split; [intros key record H; exact H|]. intros ? ? ? ? _. reflexivity. }
  destruct (match Js.trim <$> idempotencyHeader with
            | Some key => if Js.truthy key then invoicesByIdempotencyKey s !! key else None
            | None => None
            end) as [existingRecord|] eqn:Hexisting.
  - destruct (negb (Js.strEq (requestHash existingRecord) requestHash_)).
    { split; [intros key record H; exact H|]. intros ? ? ? ? _. reflexivity. }
    destruct (orders s !! invoiceId existingRecord).
    + split; [intros key record H; exact H|]. intros ? ? ? ? [=].
    + split; [intros key record H; exact H|]. intros ? ? ? ? _. reflexivity.
  - unfold issueInvoice. destruct (createInvoice _) as [message|created].
    { split; [intros key record H; exact H|]. intros ? ? ? ? _. reflexivity. }
    split; [|intros httpStatus code message details Hresponse; discriminate Hresponse].
    intros key record Hrecord.
    destruct (Js.trim <$> idempotencyHeader) as [requestKey|]; [|exact Hrecord].
    destruct (Js.truthy requestKey); [|exact Hrecord].
    cbn [snd persistMerchantState setIdempotency setOrders invoicesByIdempotencyKey].
    rewrite lookup_insert_ne; [exact Hrecord|].
    intros ->. rewrite Hrecord in Hexisting. discriminate Hexisting.
Qed.

(** *** Normalisation of request fields *)

Definition MAX_LINE_ITEMS : nat := 50.

(** The three outcomes of a normaliser: [null] (the field is invalid),
    [undefined] (the field is absent) or the normalised value. *)
Inductive Normalized (A : Type) :=
| Invalid
| Absent
| Normal (a : A).

Arguments Invalid {A}.
Arguments Absent {A}.
Arguments Normal {A} _.

(** [isNonEmptyStringWithin(value, maxLength)]. *)
Definition isNonEmptyStringWithin (value : option Canonical.Json) (maxLength : nat) : bool :=
  match value with
  | Some (Canonical.JString s) =>
      (0 <? String.length s)%nat && (String.length s <=? maxLength)%nat
  | _ => false
  end.

(** [isAmountString(value)]. *)
Definition isAmountString (value : option Canonical.Json) : bool :=
  match value with
  | Some (Canonical.JString s) => Js.isDigits s
  | _ => false
  end.

Definition stringOf (value : option Canonical.Json) : string :=
  match value with
  | Some (Canonical.JString s) => s
  | _ => EmptyString
  end.

(** The string of an optional property, when it is a non-empty string. *)
Definition truthyString (value : option Canonical.Json) : option string :=
  match value with
  | Some (Canonical.JString s) => if Js.truthy s then Some s else None
  | _ => None
  end.

(** The body of the loop of [normalizeLineItems], for one raw item:
    [None] where the function returns [null]. *)
Definition normalizeLineItem (rawItem : Canonical.Json) : option Invoice.InvoiceLineItemV1 :=
  let item := Invoice.prop rawItem in
  if negb (Invoice.isObject rawItem) then None
  else if negb (isNonEmptyStringWithin (item "title") 256) then None
  else if negb (Invoice.truthyProp (item "totalAmount"))
          || negb (isAmountString (item "totalAmount")) then None
  else if match item "id" with
          | Some _ => negb (isNonEmptyStringWithin (item "id") 128)
          | None => false
          end then None
  else if match item "category" with
          | Some _ => negb (isNonEmptyStringWithin (item "category") 128)
          | None => false
          end then None
  else if match item "unitAmount" with
          | Some _ => negb (isAmountString (item "unitAmount"))
          | None => false
          end then None
  else
    match item "quantity" with
    | Some (Canonical.JNumber quantity) =>
        if quantity <=? 0 then None
        else if match item "unitAmount" with
                | Some (Canonical.JString unitAmount) =>
                    Js.truthy unitAmount
                    && negb (bool_decide
                               ((fun unit => unit * quantity) <$> Js.BigInt unitAmount
                                = Js.BigInt (stringOf (item "totalAmount"))))
                | _ => false
                end
        then None
        else Some {| Invoice.itemId := truthyString (item "id");
                     Invoice.title := stringOf (item "title");
                     Invoice.category := truthyString (item "category");
                     Invoice.quantity := Some quantity;
                     Invoice.unitAmount := truthyString (item "unitAmount");
                     Invoice.totalAmount := stringOf (item "totalAmount") |}
    | Some _ => None
    | None =>
        Some {| Invoice.itemId := truthyString (item "id");
                Invoice.title := stringOf (item "title");
                Invoice.category := truthyString (item "category");
                Invoice.quantity := None;
                Invoice.unitAmount := truthyString (item "unitAmount");
                Invoice.totalAmount := stringOf (item "totalAmount") |}
    end.

Fixpoint normalizeItems (rawItems : list Canonical.Json)
  : option (list Invoice.InvoiceLineItemV1) :=
  match rawItems with
  | [] => Some []
  | rawItem :: rest =>
      match normalizeLineItem rawItem with
      | None => None
      | Some item =>
          match normalizeItems rest with
          | None => None
          | Some items => Some (item :: items)
          end
      end
  end.

(** [normalizeLineItems(value)]. *)
Definition normalizeLineItems (value : option Canonical.Json)
  : Normalized (list Invoice.InvoiceLineItemV1) :=
  match value with
  | None => Absent
  | Some (Canonical.JArray rawItems) =>
      if (MAX_LINE_ITEMS <? length rawItems)%nat then Invalid
      else
        match normalizeItems rawItems with
        | Some items => Normal items
        | None => Invalid
        end
  | Some _ => Invalid
  end.


(** *** The request of [POST /api/invoices] *)

Definition MAX_DESCRIPTION_LENGTH : nat := 512.
Definition MAX_REFERENCE_LENGTH : nat := 128.
Definition MAX_PURPOSE_LENGTH : nat := 128.
Definition MAX_METADATA_FIELDS : nat := 50.
Definition MAX_METADATA_KEY_LENGTH : nat := 64.
Definition MAX_METADATA_STRING_VALUE_LENGTH : nat := 256.
Definition MAX_DUE_IN_SECONDS : Z := 30 * 24 * 60 * 60.

(** [ALPHA_USD] of the shared configuration. *)
Definition ALPHA_USD : string := "0x20c0000000000000000000000000000000000001".

(** A listing, with the fields the invoice handlers read. *)
Record Listing := {
  listing_id : string;
  listing_title : string;
  listing_priceUSDC : string;
  listing_nights : Z
}.

Definition LISTINGS : list Listing := [
  {| listing_id := "cozy-loft";
     listing_title := "Cozy Loft in Kreuzberg";
     listing_priceUSDC := "285000000";
     listing_nights := 3 |};
  {| listing_id := "modern-apt";
     listing_title := "Modern Apartment in Mitte";
     listing_priceUSDC := "420000000";
     listing_nights := 2 |};
  {| listing_id := "garden-studio";
     listing_title := "Garden Studio in Neukolln";
     listing_priceUSDC := "250000000";
     listing_nights := 1 |}
].

(** The properties of an object are kept in the order in which
    [Object.entries] lists them: the array indices (the canonical decimal
    texts of the integers below [2^32 - 1]) in ascending order, then the
    other keys in the order of their creation. *)
Definition arrayIndex (key : string) : option Z :=
  match key with
  | EmptyString => None
  | String c _ =>
      if Js.isDigits key && (negb (Js.code c =? 48) || Js.strEq key "0")
      then
        let index := Invoice.decimalValue (Js.chars key) in
        if index <? 4294967295 then Some index else None
      else None
  end.

Fixpoint insertIndexed (index : Z) (key : string) (value : Canonical.Json)
    (entries : list (string * Canonical.Json)) : list (string * Canonical.Json) :=
  match entries with
  | [] => [(key, value)]
  | (k, v) :: rest =>
      match arrayIndex k with
      | Some i =>
          if i <? index then (k, v) :: insertIndexed index key value rest
          else (key, value) :: entries
      | None => (key, value) :: entries
      end
  end.

Definition hasProperty (entries : list (string * Canonical.Json)) (key : string) : bool :=
  existsb (fun e => Js.strEq e.1 key) entries.

(** Defining the property [key] of an object: a property that exists
    keeps its place and takes the value, a new one is added in its
    place of the order. *)
Definition setProperty (entries : list (string * Canonical.Json)) (key : string)
    (value : Canonical.Json) : list (string * Canonical.Json) :=
  if hasProperty entries key
  then List.map (fun e => if Js.strEq e.1 key then (e.1, value) else e) entries
  else
    match arrayIndex key with
    | Some index => insertIndexed index key value entries
    | None => entries ++ [(key, value)]
    end.

(** [{ ...target, ...source }], [target] being the properties written
    so far. *)
Definition spread (target source : list (string * Canonical.Json))
  : list (string * Canonical.Json) :=
  fold_left (fun object e => setProperty object e.1 e.2) source target.

(** [Object.entries(v)] of a value that is an object. *)
Definition entriesOf (v : Canonical.Json) : list (string * Canonical.Json) :=
  match v with
  | Canonical.JObject entries => entries
  | _ => []
  end.

(** [typeof v === 'object' && v !== null && !Array.isArray(v)]. *)
Definition isPlainObject (v : Canonical.Json) : bool :=
  match v with
  | Canonical.JObject _ => true
  | _ => false
  end.

(** [undefined] for [Absent], the value otherwise. *)
Definition optional {A : Type} (n : Normalized A) : option A :=
  match n with
  | Normal a => Some a
  | _ => None
  end.

(** The value of a metadata entry: a string of at most 256 characters,
    a number or a boolean (the numbers of this model are all finite). *)
Definition isMetadataValue (rawValue : Canonical.Json) : bool :=
  match rawValue with
  | Canonical.JString text =>
      negb (MAX_METADATA_STRING_VALUE_LENGTH <? String.length text)%nat
  | Canonical.JNumber _ | Canonical.JBool _ => true
  | _ => false
  end.

(** The loop of [normalizeMetadata]; [None] where it returns [null].
    The assignment [normalized[key] = rawValue] under the key
    [__proto__] reaches the setter of [Object.prototype], which ignores a
    value that is not an object: no property is created. *)
Fixpoint normalizeEntries (entries normalized : list (string * Canonical.Json))
  : option (list (string * Canonical.Json)) :=
  match entries with
  | [] => Some normalized
  | (key, rawValue) :: rest =>
      if negb (isNonEmptyStringWithin (Some (Canonical.JString key)) MAX_METADATA_KEY_LENGTH)
      then None
      else if negb (isMetadataValue rawValue) then None
      else
        normalizeEntries rest
          (if Js.strEq key "__proto__" then normalized
           else setProperty normalized key rawValue)
  end.

(** [normalizeMetadata(value)]. *)
Definition normalizeMetadata (value : option Canonical.Json)
  : Normalized (list (string * Canonical.Json)) :=
  match value with
  | None => Absent
  | Some (Canonical.JObject entries) =>
      if (MAX_METADATA_FIELDS <? length entries)%nat then Invalid
      else
        match normalizeEntries entries [] with
        | Some normalized => Normal normalized
        | None => Invalid
        end
  | Some _ => Invalid
  end.

(** [LISTINGS.find((item) => item.id === listingId)]. *)
Definition findListing (listingId : option Canonical.Json) : option Listing :=
  match listingId with
  | Some (Canonical.JString id) =>
      List.find (fun item => Js.strEq (listing_id item) id) LISTINGS
  | _ => None
  end.

(** [`${listing.title} (${listing.nights} nights)`]. *)
Definition listingDescription (listing : Listing) : string :=
  listing_title listing +:+ " (" +:+ Canonical.stringifyNumber (listing_nights listing)
  +:+ " nights)".

(** The error of [resolveInvoiceInput]: status, code and message. *)
Definition ResolveError : Type := Z * string * string.

Section PostInvoices.

(** The host's [String.prototype.localeCompare] and viem's
    [checksumAddress]. *)
Variable localeCompare : string -> string -> Z.
Variable checksumAddress : string -> string.

(** [Number(text) > limit] for the text of a header. *)
Variable numberAbove : string -> Z -> bool.

(** The environment variable [MERCHANT_ADDRESS]. *)
Variable MERCHANT_ADDRESS : string.

(** [normalizeOptionalAddress(value)]. *)
Definition normalizeOptionalAddress (value : option Canonical.Json) : Normalized string :=
  match value with
  | None | Some Canonical.JNull => Absent
  | Some (Canonical.JString text) =>
      if negb (Js.truthy text) then Absent
      else if negb (Viem.isAddress checksumAddress text) then Invalid
      else Normal (Js.toLowerCase text)
  | Some _ => Invalid
  end.

(** [resolveInvoiceInput(input, payer)] at the clock reading [now]
    (seconds). *)
Definition resolveInvoiceInput (now : Z) (input : Canonical.Json) (payer : option string)
  : ResolveError + ResolvedInvoiceInput :=
  let field := Invoice.prop input in
  if match field "merchantReference" with
     | Some _ => negb (isNonEmptyStringWithin (field "merchantReference") MAX_REFERENCE_LENGTH)
     | None => false
     end
  then inl (400, "INVALID_MERCHANT_REFERENCE", "merchantReference must be 1-128 characters")
  else if match field "purpose" with
          | Some _ => negb (isNonEmptyStringWithin (field "purpose") MAX_PURPOSE_LENGTH)
          | None => false
          end
  then inl (400, "INVALID_PURPOSE", "purpose must be 1-128 characters")
  else
    match normalizeOptionalAddress (field "recipient") with
    | Invalid => inl (400, "INVALID_RECIPIENT_ADDRESS", "Invalid recipient address")
    | recipient =>
    match normalizeOptionalAddress (field "token") with
    | Invalid => inl (400, "INVALID_TOKEN_ADDRESS", "Invalid token address")
    | token =>
    match normalizeMetadata (field "metadata") with
    | Invalid =>
        inl (400, "INVALID_METADATA", "metadata must be an object with primitive values")
    | metadata =>
    match normalizeLineItems (field "lineItems") with
    | Invalid =>
        inl (400, "INVALID_LINE_ITEMS",
             "lineItems must be a valid array of invoice line items")
    | lineItems =>
        if match field "dueAt" with
           | Some (Canonical.JNumber dueAt) => dueAt <=? now
           | Some _ => true
           | None => false
           end
        then inl (400, "INVALID_DUE_AT", "dueAt must be a future unix timestamp (seconds)")
        else if match field "dueInSeconds" with
                | Some (Canonical.JNumber dueInSeconds) =>
                    (dueInSeconds <=? 0) || (dueInSeconds >? MAX_DUE_IN_SECONDS)
                | Some _ => true
                | None => false
                end
        then inl (400, "INVALID_DUE_IN_SECONDS",
                  "dueInSeconds must be a positive integer <= 2592000")
        else
          let dueAt :=
            match field "dueAt" with
            | Some (Canonical.JNumber dueAt) => dueAt
            | _ =>
                now + match field "dueInSeconds" with
                      | Some (Canonical.JNumber dueInSeconds) => dueInSeconds
                      | _ => 10 * 60
                      end
            end in
          let recipient := default MERCHANT_ADDRESS (optional recipient) in
          let token := default ALPHA_USD (optional token) in
          if Invoice.truthyProp (field "listingId") then
            match findListing (field "listingId") with
            | None => inl (404, "LISTING_NOT_FOUND", "Listing not found")
            | Some listing =>
                inr {| resolved_listingId := Some (listing_id listing);
                       resolved_recipient := recipient;
                       resolved_token := token;
                       resolved_amount := listing_priceUSDC listing;
                       resolved_description := listingDescription listing;
                       resolved_dueAt := dueAt;
                       resolved_merchantReference := truthyString (field "merchantReference");
                       resolved_purpose :=
                         Some (default "lodging_booking" (truthyString (field "purpose")));
                       resolved_lineItems :=
                         Some (default
                                 [{| Invoice.itemId := Some (listing_id listing);
                                     Invoice.title := listing_title listing;
                                     Invoice.category := Some "lodging";
                                     Invoice.quantity := Some (listing_nights listing);
                                     Invoice.unitAmount := None;
                                     Invoice.totalAmount := listing_priceUSDC listing |}]
                                 (optional lineItems));
                       resolved_metadata :=
                         Some (spread
                                 [("listingId", Canonical.JString (listing_id listing));
                                  ("nights", Canonical.JNumber (listing_nights listing));
                                  ("title", Canonical.JString (listing_title listing));
                                  ("checkoutType", Canonical.JString "lodging")]
                                 (default [] (optional metadata))) |}
            end
          else if negb (isAmountString (field "amount"))
          then inl (400, "MISSING_OR_INVALID_AMOUNT",
                    "amount is required and must be a numeric string")
          else
            match field "description" with
            | Some (Canonical.JString description) =>
                if negb (Js.truthy description)
                   || (String.length (Js.trim description) =? 0)%nat
                then inl (400, "MISSING_DESCRIPTION",
                          "description is required for generic invoices")
                else if (MAX_DESCRIPTION_LENGTH <? String.length description)%nat
                then inl (400, "DESCRIPTION_TOO_LONG",
                          "description must be <= 512 characters")
                else
                  inr {| resolved_listingId := None;
                         resolved_recipient := recipient;
                         resolved_token := token;
                         resolved_amount := stringOf (field "amount");
                         resolved_description := description;
                         resolved_dueAt := dueAt;
                         resolved_merchantReference :=
                           truthyString (field "merchantReference");
                         resolved_purpose := truthyString (field "purpose");
                         resolved_lineItems := optional lineItems;
                         resolved_metadata := optional metadata |}
            | _ => inl (400, "MISSING_DESCRIPTION",
                        "description is required for generic invoices")
            end
    end
    end
    end
    end.

(** [stableStringify(value)]: the text of [canonicalStringify] of the
    shared module, whose body it repeats. *)
Definition stableStringify (value : Canonical.Json) : string :=
  Canonical.canonicalStringify localeCompare value.

(** [hashInvoiceRequest(input, payer)]. *)
Definition hashInvoiceRequest (input : Canonical.Json) (payer : option string) : string :=
  stableStringify
    (Canonical.JObject
       (setProperty (spread [] (entriesOf input)) "payer"
          (Canonical.JString (default EmptyString payer)))).

(** The checks of the handler between the rate limiter and the
    idempotency key (the size of the body, the body, the payer and
    [resolveInvoiceInput]): the error response, or the request, its payer
    and its resolved input. *)
Definition readInvoiceRequest (now : Z) (req : Request Canonical.Json)
  : Response + (Canonical.Json * option string * ResolvedInvoiceInput) :=
  if match header req "content-length" with
     | Some contentLength => Js.truthy contentLength && numberAbove contentLength 100000
     | None => false
     end
  then inl (errorResponse 413 "REQUEST_TOO_LARGE" "Request body exceeds 100KB" None)
  else
    match json req with
    | None => inl (errorResponse 400 "BAD_JSON" "Request body must be valid JSON" None)
    | Some body =>
        if negb (isPlainObject body)
        then inl (errorResponse 400 "INVALID_BODY" "Request body must be an object" None)
        else
          match normalizeOptionalAddress (Invoice.prop body "payer") with
          | Invalid =>
              inl (errorResponse 400 "INVALID_PAYER_ADDRESS" "Invalid payer address" None)
          | payer =>
              match resolveInvoiceInput now body (optional payer) with
              | inl (httpStatus, code, message) =>
                  inl (errorResponse httpStatus code message None)
              | inr resolved => inr (body, optional payer, resolved)
              end
          end
    end.

(** [merchantSdk.createInvoice(input)] as it would answer this request. *)
Variable createInvoice : MerchantSdk.MerchantInvoiceInput -> string + Invoice.InvoiceV1.

(** The three clock readings of a request: [nowMs] (milliseconds) in
    the rate limiter, [now] (seconds) in [resolveInvoiceInput], and
    [createdNow] (seconds) when the idempotency record is written. *)
Variables (nowMs now createdNow : Z).

(** The handler of [POST /api/invoices]. *)
Definition postInvoices (s : State) (req : Request Canonical.Json) : Response * State :=
  let '(rateLimitError, limiter) :=
    rateLimitOrError req (invoiceRateLimiter s) "create-invoice" nowMs in
  let s := setInvoiceRateLimiter s limiter in
  match rateLimitError with
  | Some response => (response, s)
  | None =>
      match readInvoiceRequest now req with
      | inl response => (response, s)
      | inr (request, payer, resolved) =>
          postInvoicesResolved createInvoice createdNow s (header req "idempotency-key")
            (hashInvoiceRequest request payer) resolved payer
      end
  end.

End PostInvoices.

(** *** The idempotency key, for requests that pass the checks *)

Lemma postInvoices_unfold
    (localeCompare : string -> string -> Z) (checksumAddress : string -> string)
    (numberAbove : string -> Z -> bool) (MERCHANT_ADDRESS : string)
    (createInvoice : MerchantSdk.MerchantInvoiceInput -> string + Invoice.InvoiceV1)
    (nowMs now createdNow : Z) (s : State) (req : Request Canonical.Json) :
  let limited := rateLimitOrError req (invoiceRateLimiter s) "create-invoice" nowMs in
  let counted := setInvoiceRateLimiter s limited.2 in
  postInvoices localeCompare checksumAddress numberAbove MERCHANT_ADDRESS createInvoice
    nowMs now createdNow s req
  = match limited.1 with
    | Some response => (response, counted)
    | None =>
        match readInvoiceRequest checksumAddress numberAbove MERCHANT_ADDRESS now req with
        | inl response => (response, counted)
        | inr (request, payer, resolved) =>
            postInvoicesResolved createInvoice createdNow counted
              (header req "idempotency-key")
              (hashInvoiceRequest localeCompare request payer) resolved payer
        end
    end.
Proof.
  cbv zeta. unfold postInvoices.
  destruct (rateLimitOrError req (invoiceRateLimiter s) "create-invoice" nowMs)
    as [rateLimitError limiter].
  reflexivity.
Qed.


(** The configuration and the requests of the examples: the SDK of the
    SDK tests behind the handler, the collation of letters and digits,
    a checksum function that accepts every spelling, and a reading of
    [Number(text) > limit] for the texts of whole numbers. *)
Definition sampleMerchantAddress : string := "0x1111111111111111111111111111111111111111".

Definition sampleNumberAbove (text : string) (limit : Z) : bool :=
  match Js.BigInt text with
  | Some n => limit <? n
  | None => false
  end.

(** The SDK at the clock reading [now], [generatedId] being what
    [createInvoiceId()] returns; the texts of its errors are not spelled
    out. *)
Definition sdkCreateInvoice (now : Z) (generatedId : string)
    (input : MerchantSdk.MerchantInvoiceInput) : string + Invoice.InvoiceV1 :=
  match MerchantSdk.createInvoice Canonical.localeCompareAlnum (fun a => a)
          MerchantSdk.sampleSigner MerchantSdk.sampleConfig now generatedId input with
  | inl _ => inl "Could not create invoice"
  | inr invoice => inr invoice
  end.


Definition invoiceRequest (idempotencyKey : option string) (body : Canonical.Json)
  : Request Canonical.Json := {|
  header := fun name =>
    if bool_decide (name = "idempotency-key") then idempotencyKey
    else if bool_decide (name = "x-real-ip") then Some "203.0.113.7"
    else None;
  json := Some body
|}.

(** A generic invoice that is due at a fixed time, one minute after the
    first request. *)
Definition dueAtBody : Canonical.Json :=
  Canonical.JObject
    [("amount", Canonical.JString "1000");
     ("description", Canonical.JString "Consulting");
     ("dueAt", Canonical.JNumber 1700000060)].








(** *** Keys that are refused, records that stay *)

Lemma rateLimitOrError_response {B : Type} (req : Request B)
    (limiter : RateLimit.InMemoryRateLimiter) (bucket : string) (nowMs : Z)
    (response : Response) :
  (rateLimitOrError req limiter bucket nowMs).1 = Some response ->
  exists details,
    response = errorResponse 429 "RATE_LIMITED" "Too many requests. Try again shortly." details.
Proof.
  unfold rateLimitOrError.
  destruct (RateLimit.check limiter _ nowMs) as [result limiter'].
  destruct (RateLimit.allowed result); [discriminate|].
  intros [= <-]. eexists. reflexivity.
Qed.

Lemma readInvoiceRequest_error (checksumAddress : string -> string)
    (numberAbove : string -> Z -> bool) (MERCHANT_ADDRESS : string) (now : Z)
    (req : Request Canonical.Json) (response : Response) :
  readInvoiceRequest checksumAddress numberAbove MERCHANT_ADDRESS now req = inl response ->
  exists httpStatus code message, response = errorResponse httpStatus code message None.
Proof.
  unfold readInvoiceRequest.
  destruct (match header req "content-length" with
            | Some contentLength => _
            | None => false
            end); [intros [= <-]; eauto|].
  destruct (json req) as [body|]; [|intros [= <-]; eauto].
  destruct (negb (isPlainObject body)); [intros [= <-]; eauto|].
  destruct (normalizeOptionalAddress checksumAddress (Invoice.prop body "payer"))
    as [| |payer]; [intros [= <-]; eauto| |].
  - destruct (resolveInvoiceInput _ _ _ _ _) as [[[httpStatus code] message]|resolved];
      [intros [= <-]; eauto | discriminate].
  - destruct (resolveInvoiceInput _ _ _ _ _) as [[[httpStatus code] message]|resolved];
      [intros [= <-]; eauto | discriminate].
Qed.

(** X21.  A request whose idempotency key, once trimmed, is longer than
    128 characters or holds a character outside [[A-Za-z0-9:._-]] is
    always answered with an error, and no order, no idempotency record
    and no write of the state file comes of it; when the rate limiter
    admits it and it passes the request checks, the error is 400
    [INVALID_IDEMPOTENCY_KEY]. *)
Theorem postInvoices_rejects_malformed_key
    (localeCompare : string -> string -> Z) (checksumAddress : string -> string)
    (numberAbove : string -> Z -> bool) (MERCHANT_ADDRESS : string)
    (createInvoice : MerchantSdk.MerchantInvoiceInput -> string + Invoice.InvoiceV1)
    (nowMs now createdNow : Z) (s : State) (req : Request Canonical.Json) (key : string) :
  Js.trim <$> header req "idempotency-key" = Some key ->
  key <> EmptyString ->
  (128 < String.length key)%nat \/ isIdempotencyKeyText key = false ->
  let result :=
    postInvoices localeCompare checksumAddress numberAbove MERCHANT_ADDRESS createInvoice
      nowMs now createdNow s req in
  (exists httpStatus code message details,
     result.1 = errorResponse httpStatus code message details)
  /\ orders result.2 = orders s
  /\ invoicesByIdempotencyKey result.2 = invoicesByIdempotencyKey s
  /\ stateFile result.2 = stateFile s
  /\ ((rateLimitOrError req (invoiceRateLimiter s) "create-invoice" nowMs).1 = None ->
      forall request,
        readInvoiceRequest checksumAddress numberAbove MERCHANT_ADDRESS now req
        = inr request ->
        result.1 = errorResponse 400 "INVALID_IDEMPOTENCY_KEY"
                     "Idempotency-Key must be <= 128 chars and use [A-Za-z0-9:._-]" None).
Proof.
  intros Hkey Hne Hbad. cbv zeta. rewrite postInvoices_unfold. cbv zeta.
  destruct (rateLimitOrError req (invoiceRateLimiter s) "create-invoice" nowMs).1
    as [response|] eqn:Hlimited.
  { destruct (rateLimitOrError_response _ _ _ _ _ Hlimited) as [details ->].
    cbn. split; [eauto|]. repeat split. discriminate. }
  destruct (readInvoiceRequest checksumAddress numberAbove MERCHANT_ADDRESS now req)
    as [response|[[request payer] resolved]] eqn:Hread.
  { destruct (readInvoiceRequest_error _ _ _ _ _ _ Hread) as (httpStatus & code & message & ->).
    cbn. split; [eauto|]. repeat split. discriminate. }
  rewrite (postInvoicesResolved_malformed_key createInvoice createdNow _ _ key _ resolved payer
             Hkey Hne Hbad).
  cbn. split; [eauto|]. repeat split.
Qed.

Lemma postInvoices_rejects_malformed_key_witness :
  let result :=
    postInvoices Canonical.localeCompareAlnum (fun a => a) sampleNumberAbove
      sampleMerchantAddress (sdkCreateInvoice 1700000000 "INV-1700000000000-000042")
      1700000000000 1700000000 1700000000 emptyState
      (invoiceRequest (Some "order 42") dueAtBody) in
  (exists httpStatus code message details,
     result.1 = errorResponse httpStatus code message details)
  /\ orders result.2 = orders emptyState
  /\ invoicesByIdempotencyKey result.2 = invoicesByIdempotencyKey emptyState
  /\ stateFile result.2 = stateFile emptyState
  /\ ((rateLimitOrError (invoiceRequest (Some "order 42") dueAtBody)
         (invoiceRateLimiter emptyState) "create-invoice" 1700000000000).1 = None ->
      forall request,
        readInvoiceRequest (fun a => a) sampleNumberAbove sampleMerchantAddress 1700000000
          (invoiceRequest (Some "order 42") dueAtBody)
        = inr request ->
        result.1 = errorResponse 400 "INVALID_IDEMPOTENCY_KEY"
                     "Idempotency-Key must be <= 128 chars and use [A-Za-z0-9:._-]" None).
Proof.
  apply (postInvoices_rejects_malformed_key Canonical.localeCompareAlnum (fun a => a)
           sampleNumberAbove sampleMerchantAddress
           (sdkCreateInvoice 1700000000 "INV-1700000000000-000042")
           1700000000000 1700000000 1700000000 emptyState
           (invoiceRequest (Some "order 42") dueAtBody) "order 42").
  - reflexivity.
  - discriminate.
  - right. reflexivity.
Defined.

(** X22.  An idempotency record, once stored, is never replaced or
    removed by an invoice-creation request, whatever key, payload and
    outcome the request has; and a request that the handler answers with
    an error response (the rate limit, a failed check, a conflict, an
    issuance that fails) leaves the orders, the idempotency records and
    the state file as they were: a key whose issuance failed is not
    recorded.  Only the rate limiter has counted the request. *)
Theorem postInvoices_keeps_idempotency_records
    (localeCompare : string -> string -> Z) (checksumAddress : string -> string)
    (numberAbove : string -> Z -> bool) (MERCHANT_ADDRESS : string)
    (createInvoice : MerchantSdk.MerchantInvoiceInput -> string + Invoice.InvoiceV1)
    (nowMs now createdNow : Z) (s : State) (req : Request Canonical.Json) :
  let result :=
    postInvoices localeCompare checksumAddress numberAbove MERCHANT_ADDRESS createInvoice
      nowMs now createdNow s req in
  (forall key record,
     invoicesByIdempotencyKey s !! key = Some record ->
     invoicesByIdempotencyKey result.2 !! key = Some record)
  /\ (forall httpStatus code message details,
        result.1 = errorResponse httpStatus code message details ->
        orders result.2 = orders s
        /\ invoicesByIdempotencyKey result.2 = invoicesByIdempotencyKey s
        /\ stateFile result.2 = stateFile s
        /\ settlementRateLimiter result.2 = settlementRateLimiter s).
Proof.
  cbv zeta. rewrite postInvoices_unfold. cbv zeta.
  destruct (rateLimitOrError req (invoiceRateLimiter s) "create-invoice" nowMs).1
    as [response|].
  { cbn. split; [intros key record H; exact H | repeat split]. }
  destruct (readInvoiceRequest checksumAddress numberAbove MERCHANT_ADDRESS now req)
    as [response|[[request payer] resolved]].
  { cbn. split; [intros key record H; exact H | repeat split]. }
  destruct (postInvoicesResolved_keeps_records createInvoice createdNow
              (setInvoiceRateLimiter s
                 (rateLimitOrError req (invoiceRateLimiter s) "create-invoice" nowMs).2)
              (header req "idempotency-key")
              (hashInvoiceRequest localeCompare request payer) resolved payer)
    as [Hrecords Herrors].
  split; [exact Hrecords|].
  intros httpStatus code message details Hresponse.
  rewrite (Herrors _ _ _ _ Hresponse). repeat split.
Qed.

(** *** The demo confirmation ([POST /api/demo/confirm]) *)




Section DemoConfirm.

Variables (env_ALLOW_DEMO_CONFIRM env_NODE_ENV : option string).
Variable now : Z.


End DemoConfirm.


End Merchant.

(** ** Line items: the structural gate and the request normaliser compared *)

Module LineItems.

(** Two units at 5 each, billed 7. *)
Definition inconsistentItem : Invoice.InvoiceLineItemV1 := {|
  Invoice.itemId := None;
  Invoice.title := "x";
  Invoice.category := None;
  Invoice.quantity := Some 2;
  Invoice.unitAmount := Some "5";
  Invoice.totalAmount := "7"
|}.

Definition inconsistentInvoice : Invoice.InvoiceV1 := {|
  Invoice.version := "tempo.invoice.v1";
  Invoice.invoiceId := "INV-TEST-1";
  Invoice.issuedAt := 1700000000;
  Invoice.dueAt := 1700000600;
  Invoice.chainId := 42431;
  Invoice.merchant := "0x1111111111111111111111111111111111111111";
  Invoice.recipient := "0x2222222222222222222222222222222222222222";
  Invoice.payer := None;
  Invoice.token := "0x20c0000000000000000000000000000000000001";
  Invoice.amount := "7";
  Invoice.memo := "0x00000000000000000000000000000000000000000000494e562d544553542d31";
  Invoice.description := "bad unit price";
  Invoice.merchantReference := None;
  Invoice.purpose := None;
  Invoice.lineItems := Some [inconsistentItem];
  Invoice.metadata := None;
  Invoice.merchantSig := "0x00"
|}.

(** C6 (the code at the failing input).  [assertInvoiceV1] accepts an
    invoice whose only line item has [quantity] 2, [unitAmount] 5 and
    [totalAmount] 7, whatever the checksum function; the server's
    [normalizeLineItems] rejects the same line items. *)
Theorem assertInvoiceV1_accepts_inconsistent_line_item :
  (forall checksumAddress,
     Invoice.assertInvoiceV1 checksumAddress (Invoice.invoiceJson inconsistentInvoice)
     = inr tt)
  /\ Invoice.lineItems inconsistentInvoice = Some [inconsistentItem]
  /\ (Invoice.quantity inconsistentItem, Js.BigInt "5", Js.BigInt "7")
     = (Some 2, Some 5, Some 7)
  /\ 5 * 2 <> 7
  /\ Merchant.normalizeLineItems
       (Invoice.prop (Invoice.invoiceJson inconsistentInvoice) "lineItems")
     = Merchant.Invalid.
Proof.
  split; [intros checksumAddress; vm_compute; reflexivity|].
  split; [reflexivity|]. split; [vm_compute; reflexivity|].
  split; [lia | vm_compute; reflexivity].
Qed.

(** The same invoice with the line billed 10 passes both. *)
Example consistent_line_item_passes_both :
  let item := {| Invoice.itemId := None; Invoice.title := "x"; Invoice.category := None;
                 Invoice.quantity := Some 2; Invoice.unitAmount := Some "5";
                 Invoice.totalAmount := "10" |} in
  Merchant.normalizeLineItems (Some (Canonical.JArray [Invoice.lineItemJson item]))
  = Merchant.Normal [item].
Proof. vm_compute. reflexivity. Qed.


(** *** What the structural gate guarantees *)

(** X11.  Every value [assertInvoiceV1] accepts carries the version tag,
    integer [issuedAt], [dueAt] and [chainId] with [dueAt] after
    [issuedAt], a merchant, a recipient and a token that pass the address
    test, an amount of decimal digits, a memo of 32 bytes in
    hexadecimal, a non-empty signature, and, when it has line items, an
    amount equal to the sum of their totals. *)
Theorem assertInvoiceV1_accepted_invoice
    (checksumAddress : string -> string) (value : Canonical.Json) :
  Invoice.assertInvoiceV1 checksumAddress value = inr tt ->
  Invoice.stringProp value "version" = Invoice.INVOICE_VERSION
  /\ (exists issuedAt dueAt chainId,
        Invoice.prop value "issuedAt" = Some (Canonical.JNumber issuedAt)
        /\ Invoice.prop value "dueAt" = Some (Canonical.JNumber dueAt)
        /\ Invoice.prop value "chainId" = Some (Canonical.JNumber chainId)
        /\ issuedAt < dueAt)
  /\ Viem.isAddress checksumAddress (Invoice.stringProp value "merchant") = true
  /\ Viem.isAddress checksumAddress (Invoice.stringProp value "recipient") = true
  /\ Viem.isAddress checksumAddress (Invoice.stringProp value "token") = true
  /\ Js.isDigits (Invoice.stringProp value "amount") = true
  /\ Js.isHexOfLength 64 (Invoice.stringProp value "memo") = true
  /\ Invoice.stringProp value "merchantSig" <> EmptyString
  /\ (forall lineItems,
        Invoice.prop value "lineItems" = Some (Canonical.JArray lineItems) ->
        lineItems <> [] ->
        Invoice.sumLineItemTotals lineItems 0
        = Invoice.parseAmountString (Invoice.stringProp value "amount")).
Proof.
  unfold Invoice.assertInvoiceV1, Invoice.badAddress.
  destruct (negb (Invoice.isObject value)); [discriminate|].
  destruct (Invoice.firstMissingField value Invoice.requiredStringFields) eqn:Hfields;
    [discriminate|].
  destruct (negb (Js.strEq _ Invoice.INVOICE_VERSION)) eqn:Hversion; [discriminate|].
  destruct (Invoice.prop value "issuedAt") as [[| |issuedAt| | |]|]; try discriminate.
  destruct (Invoice.prop value "dueAt") as [[| |dueAt| | |]|]; try discriminate.
  destruct (Invoice.prop value "chainId") as [[| |chainId| | |]|]; try discriminate.
  destruct (Z.leb_spec dueAt issuedAt) as [|Hdue]; [discriminate|].
  destruct (negb (Js.truthy _) || negb (Viem.isAddress _ (Invoice.stringProp value "merchant")))
    eqn:Hmerchant; [discriminate|].
  destruct (negb (Js.truthy _) || negb (Viem.isAddress _ (Invoice.stringProp value "recipient")))
    eqn:Hrecipient; [discriminate|].
  destruct (match Invoice.prop value "payer" with Some _ => _ | None => false end);
    [discriminate|].
  destruct (negb (Js.truthy _) || negb (Viem.isAddress _ (Invoice.stringProp value "token")))
    eqn:Htoken; [discriminate|].
  destruct (Invoice.parseAmountString (Invoice.stringProp value "amount"))
    as [amountValue|] eqn:Hamount; [|discriminate].
  destruct (negb (Js.isHexOfLength 64 _)) eqn:Hmemo; [discriminate|].
  destruct (match Invoice.prop value "merchantReference" with Some _ => _ | None => _ end);
    [discriminate|].
  destruct (match Invoice.prop value "purpose" with Some _ => _ | None => _ end);
    [discriminate|].
  intros Haccepted.
  apply orb_false_iff in Hmerchant, Hrecipient, Htoken.
  rewrite !negb_false_iff in Hmerchant, Hrecipient, Htoken.
  apply negb_false_iff in Hversion, Hmemo. apply bool_decide_eq_true in Hversion.
  split; [exact Hversion|]. split; [exists issuedAt, dueAt, chainId; auto|].
  split; [apply Hmerchant|]. split; [apply Hrecipient|]. split; [apply Htoken|].
  split.
  { unfold Invoice.parseAmountString in Hamount.
    destruct (Js.isDigits (Invoice.stringProp value "amount")); [reflexivity | discriminate]. }
  split; [exact Hmemo|]. split.
  { destruct (Invoice.firstMissingField_None _ _ Hfields "merchantSig")
      as (s & Hprop & Hne); [unfold Invoice.requiredStringFields; repeat constructor|].
    unfold Invoice.stringProp. rewrite Hprop. exact Hne. }
  intros lineItems Hitems Hne. rewrite Hitems in Haccepted.
  destruct (Invoice.checkLineItems lineItems); [discriminate|].
  destruct lineItems as [|item rest]; [congruence|].
  cbn [length Nat.ltb Nat.leb] in Haccepted.
  destruct (Invoice.sumLineItemTotals (item :: rest) 0) as [total|]; [|discriminate].
  destruct (Z.eqb_spec total amountValue) as [Heq|Hneq]; [|discriminate].
  rewrite Heq. reflexivity.
Qed.

Lemma assertInvoiceV1_accepted_invoice_witness :
  Invoice.stringProp (Invoice.invoiceJson inconsistentInvoice) "version"
    = Invoice.INVOICE_VERSION
  /\ (exists issuedAt dueAt chainId,
        Invoice.prop (Invoice.invoiceJson inconsistentInvoice) "issuedAt"
          = Some (Canonical.JNumber issuedAt)
        /\ Invoice.prop (Invoice.invoiceJson inconsistentInvoice) "dueAt"
           = Some (Canonical.JNumber dueAt)
        /\ Invoice.prop (Invoice.invoiceJson inconsistentInvoice) "chainId"
           = Some (Canonical.JNumber chainId)
        /\ issuedAt < dueAt)
  /\ Viem.isAddress (fun a => a)
       (Invoice.stringProp (Invoice.invoiceJson inconsistentInvoice) "merchant") = true
  /\ Viem.isAddress (fun a => a)
       (Invoice.stringProp (Invoice.invoiceJson inconsistentInvoice) "recipient") = true
  /\ Viem.isAddress (fun a => a)
       (Invoice.stringProp (Invoice.invoiceJson inconsistentInvoice) "token") = true
  /\ Js.isDigits (Invoice.stringProp (Invoice.invoiceJson inconsistentInvoice) "amount") = true
  /\ Js.isHexOfLength 64
       (Invoice.stringProp (Invoice.invoiceJson inconsistentInvoice) "memo") = true
  /\ Invoice.stringProp (Invoice.invoiceJson inconsistentInvoice) "merchantSig" <> EmptyString
  /\ (forall lineItems,
        Invoice.prop (Invoice.invoiceJson inconsistentInvoice) "lineItems"
          = Some (Canonical.JArray lineItems) ->
        lineItems <> [] ->
        Invoice.sumLineItemTotals lineItems 0
        = Invoice.parseAmountString
            (Invoice.stringProp (Invoice.invoiceJson inconsistentInvoice) "amount")).
Proof.
  apply (assertInvoiceV1_accepted_invoice (fun a => a)
           (Invoice.invoiceJson inconsistentInvoice)).
  vm_compute. reflexivity.
Defined.

(** *** What the request normaliser guarantees *)

Definition consistentItem (item : Invoice.InvoiceLineItemV1) : Prop :=
  Invoice.title item <> EmptyString
  /\ Js.isDigits (Invoice.totalAmount item) = true
  /\ (forall quantity, Invoice.quantity item = Some quantity -> 0 < quantity)
  /\ (forall unitAmount, Invoice.unitAmount item = Some unitAmount ->
        Js.isDigits unitAmount = true)
  /\ (forall quantity unitAmount,
        Invoice.quantity item = Some quantity ->
        Invoice.unitAmount item = Some unitAmount ->
        Invoice.decimalValue (Js.chars unitAmount) * quantity
        = Invoice.decimalValue (Js.chars (Invoice.totalAmount item))).

Lemma isAmountString_inv (value : option Canonical.Json) :
  Merchant.isAmountString value = true ->
  exists s, value = Some (Canonical.JString s) /\ Js.isDigits s = true.
Proof.
  destruct value as [[| | |s| |]|]; simpl; try discriminate.
  intros H. exists s. split; [reflexivity | exact H].
Qed.

Lemma isNonEmptyStringWithin_inv (value : option Canonical.Json) (maxLength : nat) :
  Merchant.isNonEmptyStringWithin value maxLength = true ->
  exists s, value = Some (Canonical.JString s) /\ s <> EmptyString
            /\ (String.length s <= maxLength)%nat.
Proof.
  destruct value as [[| | |s| |]|]; simpl; try discriminate.
  rewrite andb_true_iff, Nat.ltb_lt, Nat.leb_le. intros [Hpos Hmax].
  exists s. repeat split; [|exact Hmax]. intros ->. simpl in Hpos. lia.
Qed.

Lemma truthyString_Some (value : option Canonical.Json) (s : string) :
  Merchant.truthyString value = Some s -> value = Some (Canonical.JString s).
Proof.
  destruct value as [[| | |s'| |]|]; simpl; try discriminate.
  destruct (Js.truthy s'); [intros [= ->]; reflexivity | discriminate].
Qed.

Lemma normalizeLineItem_consistent (rawItem : Canonical.Json)
    (item : Invoice.InvoiceLineItemV1) :
  Merchant.normalizeLineItem rawItem = Some item -> consistentItem item.
Proof.
  unfold Merchant.normalizeLineItem.
  destruct (negb (Invoice.isObject rawItem)); [discriminate|].
  destruct (Merchant.isNonEmptyStringWithin (Invoice.prop rawItem "title") 256) eqn:Htitle;
    [|discriminate].
  destruct (Merchant.isAmountString (Invoice.prop rawItem "totalAmount")) eqn:Htotal;
    [|rewrite orb_true_r; discriminate].
  destruct (negb (Invoice.truthyProp (Invoice.prop rawItem "totalAmount"))); [discriminate|].
  cbn [negb orb].
  destruct (match Invoice.prop rawItem "id" with Some _ => _ | None => false end);
    [discriminate|].
  destruct (match Invoice.prop rawItem "category" with Some _ => _ | None => false end);
    [discriminate|].
  destruct (isNonEmptyStringWithin_inv _ _ Htitle) as (title & Htitle' & Hne & _).
  destruct (isAmountString_inv _ Htotal) as (total & Htotal' & Hdigits).
  assert (Hunit : forall u, Merchant.truthyString (Invoice.prop rawItem "unitAmount") = Some u
                            -> match Invoice.prop rawItem "unitAmount" with
                               | Some _ =>
                                   negb (Merchant.isAmountString
                                           (Invoice.prop rawItem "unitAmount"))
                               | None => false
                               end = false
                            -> Js.isDigits u = true).
  { intros u Hu Hcheck. apply truthyString_Some in Hu. rewrite Hu in Hcheck.
    simpl in Hcheck. apply negb_false_iff in Hcheck. exact Hcheck. }
  destruct (match Invoice.prop rawItem "unitAmount" with Some _ => _ | None => false end)
    eqn:Hunitcheck; [discriminate|].
  rewrite Htitle', Htotal'. cbn [Merchant.stringOf].
  destruct (Invoice.prop rawItem "quantity") as [[| |quantity| | |]|]; try discriminate.
  - destruct (Z.leb_spec quantity 0) as [|Hpos]; [discriminate|].
    destruct (match Invoice.prop rawItem "unitAmount" with
              | Some (Canonical.JString unitAmount) => _
              | _ => false
              end) eqn:Hproduct; [discriminate|].
    intros [= <-]. unfold consistentItem. cbn.
    repeat split; try assumption.
    + intros q [= <-]. exact Hpos.
    + intros u Hu. apply Hunit; [exact Hu | reflexivity].
    + intros q u [= <-] Hu. pose proof (Hunit u Hu eq_refl) as Hudigits.
      apply truthyString_Some in Hu. rewrite Hu in Hproduct.
      assert (Htruthy : Js.truthy u = true).
      { unfold Js.truthy. apply negb_true_iff, bool_decide_eq_false. intros ->.
        discriminate Hudigits. }
      rewrite Htruthy in Hproduct. cbn [andb] in Hproduct.
      apply negb_false_iff, bool_decide_eq_true in Hproduct.
      rewrite (Invoice.BigInt_digits _ Hudigits), (Invoice.BigInt_digits _ Hdigits) in Hproduct.
      injection Hproduct as Hproduct. exact Hproduct.
  - intros [= <-]. unfold consistentItem. cbn.
    repeat split; try assumption; try discriminate.
    intros u Hu. apply Hunit; [exact Hu | reflexivity].
Qed.

Lemma normalizeItems_consistent (rawItems : list Canonical.Json) :
  forall items,
    Merchant.normalizeItems rawItems = Some items ->
    length items = length rawItems /\ Forall consistentItem items.
Proof.
  induction rawItems as [|rawItem rest IH]; simpl; intros items.
  - intros [= <-]. split; [reflexivity | constructor].
  - destruct (Merchant.normalizeLineItem rawItem) as [item|] eqn:Hitem; [|discriminate].
    destruct (Merchant.normalizeItems rest) as [items'|]; [|discriminate].
    intros [= <-]. destruct (IH items' eq_refl) as [Hlen Hall].
    split; [simpl; rewrite Hlen; reflexivity|].
    constructor; [eapply normalizeLineItem_consistent; exact Hitem | exact Hall].
Qed.

(** X12.  Whatever [normalizeLineItems] returns as line items has at
    most 50 entries, and each entry has a non-empty title, a total of
    decimal digits, a positive quantity and a unit amount of decimal
    digits where present, and, where both are present, a unit amount
    times quantity equal to the total. *)
Theorem normalizeLineItems_enforces_unit_price (value : option Canonical.Json)
    (items : list Invoice.InvoiceLineItemV1) :
  Merchant.normalizeLineItems value = Merchant.Normal items ->
  (length items <= 50)%nat /\ Forall consistentItem items.
Proof.
  unfold Merchant.normalizeLineItems.
  destruct value as [[| | | |rawItems|]|]; try discriminate.
  destruct (Nat.ltb_spec Merchant.MAX_LINE_ITEMS (length rawItems)) as [|Hmax];
    [discriminate|].
  destruct (Merchant.normalizeItems rawItems) as [items'|] eqn:Hitems; [|discriminate].
  intros [= <-]. destruct (normalizeItems_consistent _ _ Hitems) as [Hlen Hall].
  split; [unfold Merchant.MAX_LINE_ITEMS in Hmax; lia | exact Hall].
Qed.

Definition consistentLine : Invoice.InvoiceLineItemV1 := {|
  Invoice.itemId := None;
  Invoice.title := "x";
  Invoice.category := None;
  Invoice.quantity := Some 2;
  Invoice.unitAmount := Some "5";
  Invoice.totalAmount := "10"
|}.

Lemma normalizeLineItems_enforces_unit_price_witness :
  (length [consistentLine] <= 50)%nat /\ Forall consistentItem [consistentLine].
Proof.
  apply (normalizeLineItems_enforces_unit_price
           (Some (Canonical.JArray [Invoice.lineItemJson consistentLine])) [consistentLine]).
  vm_compute. reflexivity.
Defined.

Lemma digits_truthy (s : string) : Js.isDigits s = true -> Js.truthy s = true.
Proof.
  unfold Js.isDigits, Js.truthy. rewrite andb_true_iff. intros [H _]. exact H.
Qed.

(** A consistent item, written as a value, passes the loop body of the
    structural gate, and its total reads as a number. *)
Lemma consistentItem_passes_gate (item : Invoice.InvoiceLineItemV1) :
  consistentItem item ->
  Invoice.checkLineItem (Invoice.lineItemJson item) = None
  /\ Invoice.prop (Invoice.lineItemJson item) "totalAmount"
     = Some (Canonical.JString (Invoice.totalAmount item)).
Proof.
  destruct item as [itemId title category quantity unitAmount totalAmount].
  unfold consistentItem. cbn [Invoice.title Invoice.totalAmount Invoice.quantity
                              Invoice.unitAmount].
  intros (Htitle & Htotal & Hquantity & Hunit & _).
  assert (Htitle' : Js.truthy title = true).
  { unfold Js.truthy. apply negb_true_iff, bool_decide_eq_false. exact Htitle. }
  pose proof (digits_truthy _ Htotal) as Htotal'.
  unfold Invoice.checkLineItem, Invoice.lineItemJson, Invoice.testDigits.
  destruct itemId, category, quantity as [q|], unitAmount as [u|];
    cbn [Invoice.itemId Invoice.title Invoice.category Invoice.quantity Invoice.unitAmount
         Invoice.totalAmount Invoice.optionalEntry app Invoice.isObject negb
         Invoice.prop Invoice.lookupKey];
    repeat match goal with
           | |- context [Js.strEq ?a ?b] =>
               let v := eval vm_compute in (Js.strEq a b) in
               change (Js.strEq a b) with v; cbv iota
           end;
    cbn [Invoice.truthyValue Invoice.toStr];
    rewrite ?Htitle', ?Htotal', ?Htotal; cbn [negb orb andb];
    try (rewrite (Hunit u eq_refl); rewrite ?andb_false_r; cbn [negb andb]);
    try (pose proof (Hquantity q eq_refl);
         replace (q <=? 0) with false by (symmetry; apply Z.leb_gt; lia));
    split; reflexivity.
Qed.

Lemma consistentItems_pass_gate (items : list Invoice.InvoiceLineItemV1) :
  Forall consistentItem items ->
  Invoice.checkLineItems (List.map Invoice.lineItemJson items) = None
  /\ forall total, 0 <= total ->
       exists sum, Invoice.sumLineItemTotals (List.map Invoice.lineItemJson items) total
                   = Some sum /\ 0 <= sum.
Proof.
  induction 1 as [|item items Hitem Hitems [IHcheck IHsum]];
    cbn [List.map Invoice.checkLineItems Invoice.sumLineItemTotals].
  - split; [reflexivity|]. intros total Htotal. exists total. split; [reflexivity | exact Htotal].
  - destruct (consistentItem_passes_gate item Hitem) as [Hcheck Hprop].
    rewrite Hcheck. split; [exact IHcheck|].
    intros total Htotal. rewrite Hprop.
    destruct Hitem as (_ & Hdigits & _).
    unfold Invoice.parseAmountValue, Invoice.testDigits. cbn [Invoice.toStr].
    rewrite Hdigits. cbn [negb].
    rewrite (Invoice.BigInt_digits _ Hdigits).
    apply IHsum.
    assert (0 <= Invoice.decimalValue (Js.chars (Invoice.totalAmount item))).
    { unfold Invoice.decimalValue. apply Invoice.fold_digits_nonneg; [lia|].
      unfold Js.isDigits in Hdigits. apply andb_true_iff in Hdigits. apply Hdigits. }
    lia.
Qed.

(** X13.  Line items that come out of [normalizeLineItems] pass, once
    written back as values, every per-item check of [assertInvoiceV1],
    and [sumLineItemTotals] adds their totals to a number that is not
    negative: between the two validators only the comparison with the
    invoice amount is left to fail. *)
Theorem normalized_line_items_pass_gate (value : option Canonical.Json)
    (items : list Invoice.InvoiceLineItemV1) :
  Merchant.normalizeLineItems value = Merchant.Normal items ->
  Invoice.checkLineItems (List.map Invoice.lineItemJson items) = None
  /\ exists sum, Invoice.sumLineItemTotals (List.map Invoice.lineItemJson items) 0 = Some sum
                 /\ 0 <= sum.
Proof.
  unfold Merchant.normalizeLineItems.
  destruct value as [[| | | |rawItems|]|]; try discriminate.
  destruct (Merchant.MAX_LINE_ITEMS <? length rawItems)%nat; [discriminate|].
  destruct (Merchant.normalizeItems rawItems) as [items'|] eqn:Hitems; [|discriminate].
  intros [= <-]. destruct (normalizeItems_consistent _ _ Hitems) as [_ Hall].
  destruct (consistentItems_pass_gate _ Hall) as [Hcheck Hsum].
  split; [exact Hcheck | apply Hsum; lia].
Qed.

Lemma normalized_line_items_pass_gate_witness :
  Invoice.checkLineItems (List.map Invoice.lineItemJson [consistentLine]) = None
  /\ exists sum,
       Invoice.sumLineItemTotals (List.map Invoice.lineItemJson [consistentLine]) 0 = Some sum
       /\ 0 <= sum.
Proof.
  apply (normalized_line_items_pass_gate
           (Some (Canonical.JArray [Invoice.lineItemJson consistentLine])) [consistentLine]).
  vm_compute. reflexivity.
Defined.
End LineItems.

(** ** The guardian server (guardian/server.ts) *)

Module Guardian.

Import Canonical.

Record DelegationPolicy := {
  owner : string;
  maxAmount : string;
  allowedRecipients : list string;
  allowedTokens : list string;
  expiresAt : Z;
  updatedAt : Z
}.

Definition MAX_POLICY_LIST_ENTRIES : nat := 50.
Definition MAX_POLICY_DURATION_SECONDS : Z := 365 * 24 * 60 * 60.

(** [parsePositiveBigIntEnv(name, fallback)], [raw] being
    [process.env[name]]. *)
Definition parsePositiveBigIntEnv (raw : option string) (fallback : Z) : Z :=
  match raw with
  | Some raw =>
      if negb (Js.truthy raw) || negb (Js.isDigits raw) then fallback
      else
        match Js.BigInt raw with
        | Some parsed => if parsed <=? 0 then fallback else parsed
        | None => fallback
        end
  | None => fallback
  end.

(** The module-level state: the policies, the state file and the rate
    limiter of writes. *)
Record State := {
  policies : gmap string DelegationPolicy;
  stateFile : option (gmap string DelegationPolicy);
  writeRateLimiter : RateLimit.InMemoryRateLimiter
}.

(** The responses: [c.json({ error }, status)], the rate-limit body,
    [c.json(policy)], and the answer 500 that the framework gives when
    the handler throws. *)
Inductive Response :=
| ErrorJson (httpStatus : Z) (error : string)
| RateLimited (retryAfterSeconds : Z)
| PolicyJson (policy : DelegationPolicy)
| InternalServerError.

(** A write request: the header lookup and the outcome of
    [c.req.json()] ([None] when the body is not valid JSON). *)
Record Request := {
  header : string -> option string;
  json : option Json
}.

(** [body === null]: reading a property of it throws a [TypeError]. *)
Definition isNull (v : Json) : bool :=
  match v with
  | JNull => true
  | _ => false
  end.

(** [String(v)] of a property that may be absent. *)
Definition stringOfProp (v : option Json) : string :=
  match v with
  | Some v => Invoice.toStr v
  | None => "undefined"
  end.

Section Server.

Variable checksumAddress : string -> string.

(** [Number(v)] when the result is an integer, for a property that may
    be absent; [None] for every other result. *)
Variable integerOf : option Json -> option Z.

(** The environment: [DELEGATION_ADMIN_TOKEN] and
    [GUARDIAN_MAX_POLICY_AMOUNT]. *)
Variables (adminToken env_GUARDIAN_MAX_POLICY_AMOUNT : option string).

Definition MAX_POLICY_AMOUNT : Z :=
  parsePositiveBigIntEnv env_GUARDIAN_MAX_POLICY_AMOUNT 1000000000000.

(** [normalizeAddress(value)]: [None] is [null]. *)
Definition normalizeAddress (value : string) : option string :=
  if negb (Viem.isAddress checksumAddress value) then None
  else Some (Js.toLowerCase value).

(** [rateLimitOrError(req)] at the clock reading [nowMs]. *)
Definition rateLimitOrError (req : Request) (limiter : RateLimit.InMemoryRateLimiter)
    (nowMs : Z) : option Response * RateLimit.InMemoryRateLimiter :=
  let key := "write-policy:" +:+ RateLimit.getClientIp (header req) in
  let '(result, limiter') := RateLimit.check limiter key nowMs in
  if RateLimit.allowed result then (None, limiter')
  else (Some (RateLimited (RateLimit.retryAfterSeconds result)), limiter').

(** [requireAdmin(c)]: the message of the error thrown, if any. *)
Definition requireAdmin (req : Request) : option string :=
  if negb (Js.truthyOpt adminToken) then Some "Missing DELEGATION_ADMIN_TOKEN"
  else if negb (bool_decide (header req "x-admin-token" = adminToken))
  then Some "Unauthorized"
  else None.

(** The handler of [GET /api/delegations/:owner]. *)
Definition getDelegation (s : State) (ownerParam : string) : Response :=
  match normalizeAddress ownerParam with
  | None => ErrorJson 400 "Invalid owner address"
  | Some owner =>
      match policies s !! owner with
      | None => ErrorJson 404 "Policy not found"
      | Some policy => PolicyJson policy
      end
  end.

(** The loop of [parseAddressArray] over the entries, [deduped] being
    the set in insertion order; [None] when an entry is not an address. *)
Fixpoint addNormalized (entries : list Json) (deduped : list string) : option (list string) :=
  match entries with
  | [] => Some deduped
  | entry :: rest =>
      match normalizeAddress (Invoice.toStr entry) with
      | None => None
      | Some normalized =>
          addNormalized rest
            (if bool_decide (normalized ∈ deduped) then deduped else deduped ++ [normalized])
      end
  end.

(** [parseAddressArray(value, field)]: [inl] is the message of the
    error thrown. *)
Definition parseAddressArray (value : option Json) (field : string)
  : string + list string :=
  match value with
  | None => inr []
  | Some (JArray entries) =>
      if (MAX_POLICY_LIST_ENTRIES <? length entries)%nat
      then inl (field +:+ " allows at most 50 entries")
      else
        match addNormalized entries [] with
        | None => inl (field +:+ " contains invalid address")
        | Some deduped => inr deduped
        end
  | Some _ => inl (field +:+ " must be an array")
  end.

(** The handler of [POST /api/delegations], at its three clock
    readings: [nowMs] (milliseconds) in the rate limiter, [now] (seconds)
    for the checks of [expiresAt], and [updatedNow] (seconds), read again
    when the policy is built, for [updatedAt].  A body that parses to
    [null] makes [body.owner] throw outside every [try]. *)
Definition postDelegation (nowMs now updatedNow : Z) (s : State) (req : Request)
  : Response * State :=
  let '(rateLimitError, limiter) := rateLimitOrError req (writeRateLimiter s) nowMs in
  let s := {| policies := policies s; stateFile := stateFile s;
              writeRateLimiter := limiter |} in
  match rateLimitError with
  | Some response => (response, s)
  | None =>
      match requireAdmin req with
      | Some message =>
          if Js.strEq message "Missing DELEGATION_ADMIN_TOKEN"
          then (ErrorJson 500 "Guardian misconfigured: missing DELEGATION_ADMIN_TOKEN", s)
          else (ErrorJson 401 "Unauthorized", s)
      | None =>
          match json req with
          | None => (ErrorJson 400 "Request body must be valid JSON", s)
          | Some body =>
              if isNull body then (InternalServerError, s) else
              let owner := normalizeAddress (stringOfProp (Invoice.prop body "owner")) in
              let maxAmount := stringOfProp (Invoice.prop body "maxAmount") in
              if negb (Js.isDigits maxAmount)
                 || match Js.BigInt maxAmount with
                    | Some value => value <=? 0
                    | None => true
                    end
              then (ErrorJson 400 "maxAmount must be a positive numeric string", s)
              else if match Js.BigInt maxAmount with
                      | Some value => value >? MAX_POLICY_AMOUNT
                      | None => true
                      end
              then (ErrorJson 400
                      ("maxAmount exceeds guardian limit ("
                       +:+ stringifyNumber MAX_POLICY_AMOUNT +:+ ")"), s)
              else
                match parseAddressArray (Invoice.prop body "allowedRecipients")
                        "allowedRecipients" with
                | inl message => (ErrorJson 400 message, s)
                | inr allowedRecipients =>
                    match parseAddressArray (Invoice.prop body "allowedTokens")
                            "allowedTokens" with
                    | inl message => (ErrorJson 400 message, s)
                    | inr allowedTokens =>
                        match owner, integerOf (Invoice.prop body "expiresAt") with
                        | Some owner, Some expiresAt =>
                            if expiresAt <=? now
                            then (ErrorJson 400 "Missing required fields", s)
                            else if expiresAt >? now + MAX_POLICY_DURATION_SECONDS
                            then (ErrorJson 400
                                    "expiresAt must be within 31536000 seconds from now", s)
                            else
                              let policy :=
                                {| owner := owner;
                                   maxAmount := maxAmount;
                                   allowedRecipients := allowedRecipients;
                                   allowedTokens := allowedTokens;
                                   expiresAt := expiresAt;
                                   updatedAt := updatedNow |} in
                              let policies' := <[owner := policy]> (policies s) in
                              (PolicyJson policy,
                               {| policies := policies';
                                  stateFile := Some policies';
                                  writeRateLimiter := writeRateLimiter s |})
                        | _, _ => (ErrorJson 400 "Missing required fields", s)
                        end
                    end
                end
          end
      end
  end.

End Server.


(** *** Lower-case spellings *)

Lemma lowerChar_idempotent (c : ascii) : Js.lowerChar (Js.lowerChar c) = Js.lowerChar c.
Proof. destruct c as [[] [] [] [] [] [] [] []]; reflexivity. Qed.

Lemma toLowerCase_idempotent (s : string) :
  Js.toLowerCase (Js.toLowerCase s) = Js.toLowerCase s.
Proof.
  induction s as [|c s IH]; simpl; [reflexivity|].
  rewrite lowerChar_idempotent, IH. reflexivity.
Qed.

Lemma lowerChar_hex (c : ascii) :
  Js.isHexDigit c = true -> Js.isHexDigit (Js.lowerChar c) = true.
Proof. destruct c as [[] [] [] [] [] [] [] []]; simpl; intros H; try discriminate; reflexivity. Qed.

Lemma lowerChar_code (c : ascii) (n : Z) :
  (n = 48 \/ n = 120) -> (Js.code c =? n) = true -> (Js.code (Js.lowerChar c) =? n) = true.
Proof.
  intros [-> | ->]; destruct c as [[] [] [] [] [] [] [] []]; simpl; intros H;
    try discriminate; reflexivity.
Qed.

Lemma toLowerCase_length (s : string) :
  String.length (Js.toLowerCase s) = String.length s.
Proof. induction s as [|c s IH]; simpl; [reflexivity | rewrite IH; reflexivity]. Qed.

Lemma toLowerCase_hex (s : string) :
  forallb Js.isHexDigit (Js.chars s) = true ->
  forallb Js.isHexDigit (Js.chars (Js.toLowerCase s)) = true.
Proof.
  induction s as [|c s IH]; simpl; [reflexivity|].
  rewrite !andb_true_iff. intros [Hc Hs]. split; [apply lowerChar_hex; exact Hc | apply IH; exact Hs].
Qed.

Lemma isHexOfLength_lower (n : nat) (s : string) :
  Js.isHexOfLength n s = true -> Js.isHexOfLength n (Js.toLowerCase s) = true.
Proof.
  destruct s as [|c0 [|c1 rest]]; simpl; try discriminate.
  rewrite !andb_true_iff. intros [[[H0 H1] Hlen] Hhex].
  repeat split.
  - apply lowerChar_code; [left; reflexivity | exact H0].
  - apply lowerChar_code; [right; reflexivity | exact H1].
  - rewrite toLowerCase_length. exact Hlen.
  - apply toLowerCase_hex. exact Hhex.
Qed.

Section Facts.

Variable checksumAddress : string -> string.

(** The lower-case spelling of an accepted address is accepted. *)
Lemma isAddress_lower (a : string) :
  Viem.isAddress checksumAddress a = true ->
  Viem.isAddress checksumAddress (Js.toLowerCase a) = true.
Proof.
  unfold Viem.isAddress. destruct (Js.isHexOfLength 40 a) eqn:Hhex; simpl; [|discriminate].
  intros _. rewrite (isHexOfLength_lower _ _ Hhex). simpl.
  unfold Js.strEq. rewrite bool_decide_eq_true_2 by apply toLowerCase_idempotent.
  reflexivity.
Qed.

Lemma normalizeAddress_Some (value normalized : string) :
  normalizeAddress checksumAddress value = Some normalized ->
  Viem.isAddress checksumAddress value = true /\ normalized = Js.toLowerCase value.
Proof.
  unfold normalizeAddress. destruct (Viem.isAddress checksumAddress value); simpl;
    [intros [= <-]; split; reflexivity | discriminate].
Qed.

Lemma normalizeAddress_lower (value normalized : string) :
  normalizeAddress checksumAddress value = Some normalized ->
  Js.toLowerCase normalized = normalized.
Proof.
  intros H. apply normalizeAddress_Some in H. destruct H as [_ ->].
  apply toLowerCase_idempotent.
Qed.

Definition lowerCased (a : string) : Prop := Js.toLowerCase a = a.

Lemma addNormalized_lower (entries : list Json) (deduped result : list string) :
  Forall lowerCased deduped ->
  addNormalized checksumAddress entries deduped = Some result ->
  Forall lowerCased result.
Proof.
  revert deduped. induction entries as [|entry rest IH]; simpl; intros deduped Hall.
  - intros [= <-]. exact Hall.
  - destruct (normalizeAddress checksumAddress (Invoice.toStr entry)) as [normalized|] eqn:Hn;
      [|discriminate].
    apply IH. destruct (bool_decide (normalized ∈ deduped)); [exact Hall|].
    apply Forall_app. split; [exact Hall|].
    constructor; [|constructor]. eapply normalizeAddress_lower. exact Hn.
Qed.

Lemma parseAddressArray_lower (value : option Json) (field : string) (result : list string) :
  parseAddressArray checksumAddress value field = inr result ->
  Forall lowerCased result.
Proof.
  unfold parseAddressArray. destruct value as [[| | | |entries|]|]; try discriminate.
  - destruct (MAX_POLICY_LIST_ENTRIES <? length entries)%nat; [discriminate|].
    destruct (addNormalized checksumAddress entries []) as [deduped|] eqn:Hadd;
      [|discriminate].
    intros [= <-]. eapply addNormalized_lower; [constructor | exact Hadd].
  - intros [= <-]. constructor.
Qed.

Variable integerOf : option Json -> option Z.
Variables (adminToken env_GUARDIAN_MAX_POLICY_AMOUNT : option string).

(** What a successful write stores. *)
Lemma postDelegation_success (nowMs now updatedNow : Z) (s s' : State) (req : Request)
    (policy : DelegationPolicy) :
  postDelegation checksumAddress integerOf adminToken env_GUARDIAN_MAX_POLICY_AMOUNT
    nowMs now updatedNow s req = (PolicyJson policy, s') ->
  policies s' !! owner policy = Some policy
  /\ (exists value, normalizeAddress checksumAddress value = Some (owner policy))
  /\ Forall lowerCased (allowedRecipients policy)
  /\ Forall lowerCased (allowedTokens policy).
Proof.
  unfold postDelegation, rateLimitOrError.
  destruct (RateLimit.check (writeRateLimiter s) _ nowMs) as [checked limiter].
  destruct (RateLimit.allowed checked); [|discriminate].
  destruct (requireAdmin adminToken req) as [message|].
  { destruct (Js.strEq message _); discriminate. }
  destruct (json req) as [body|]; [|discriminate].
  destruct (isNull body); [discriminate|].
  destruct (negb (Js.isDigits _) || _); [discriminate|].
  destruct (match Js.BigInt _ with Some value => value >? _ | None => true end);
    [discriminate|].
  destruct (parseAddressArray checksumAddress (Invoice.prop body "allowedRecipients") _)
    as [message|recipients] eqn:Hrecipients; [discriminate|].
  destruct (parseAddressArray checksumAddress (Invoice.prop body "allowedTokens") _)
    as [message|tokens] eqn:Htokens; [discriminate|].
  destruct (normalizeAddress checksumAddress _) as [normalized|] eqn:Howner; [|discriminate].
  destruct (integerOf _) as [expires|]; [|discriminate].
  destruct (expires <=? now); [discriminate|].
  destruct (expires >? now + MAX_POLICY_DURATION_SECONDS); [discriminate|].
  intros [= <- <-]. simpl. split; [apply lookup_insert_eq|].
  split; [eexists; exact Howner|].
  split; [eapply parseAddressArray_lower; exact Hrecipients
         | eapply parseAddressArray_lower; exact Htokens].
Qed.

End Facts.

(** *** Reading a policy back *)

(** C9 (as amended).  After a successful write, a read under any
    spelling of the owner that the address test accepts (and that
    lower-cases to the stored owner) returns the stored policy; so does a
    read under the stored, lower-case owner; and the owner, the allowed
    recipients and the allowed tokens of the stored policy are all in
    lower case. *)
Theorem policy_reads_back_under_accepted_spellings
    (checksumAddress : string -> string) (integerOf : option Json -> option Z)
    (adminToken env_GUARDIAN_MAX_POLICY_AMOUNT : option string)
    (nowMs now updatedNow : Z)
    (s s' : State) (req : Request) (policy : DelegationPolicy) (spelling : string) :
  postDelegation checksumAddress integerOf adminToken env_GUARDIAN_MAX_POLICY_AMOUNT
    nowMs now updatedNow s req = (PolicyJson policy, s') ->
  Viem.isAddress checksumAddress spelling = true ->
  Js.toLowerCase spelling = owner policy ->
  getDelegation checksumAddress s' spelling = PolicyJson policy
  /\ getDelegation checksumAddress s' (owner policy) = PolicyJson policy
  /\ lowerCased (owner policy)
  /\ Forall lowerCased (allowedRecipients policy)
  /\ Forall lowerCased (allowedTokens policy).
Proof.
  intros Hwrite Haccepted Hsame.
  destruct (postDelegation_success _ _ _ _ _ _ _ _ _ _ _ Hwrite)
    as (Hstored & [value Hvalue] & Hrecipients & Htokens).
  assert (Hlower : lowerCased (owner policy)).
  { eapply normalizeAddress_lower. exact Hvalue. }
  assert (Hread : forall a, Viem.isAddress checksumAddress a = true ->
                            Js.toLowerCase a = owner policy ->
                            getDelegation checksumAddress s' a = PolicyJson policy).
  { intros a Ha Heq. unfold getDelegation, normalizeAddress.
    rewrite Ha. simpl. rewrite Heq, Hstored. reflexivity. }
  split; [apply Hread; assumption|].
  split; [|split; [exact Hlower | split; assumption]].
  apply Hread; [|exact Hlower].
  apply normalizeAddress_Some in Hvalue. destruct Hvalue as [Hv ->].
  apply isAddress_lower. exact Hv.
Qed.

(** A checksum function for the examples: it spells every address with
    the capital hexadecimal letters. *)
Fixpoint upperHex (s : string) : string :=
  match s with
  | EmptyString => EmptyString
  | String c rest =>
      String (if Js.isLowerHexLetter c then ascii_of_N (Z.to_N (Js.code c - 32)) else c)
        (upperHex rest)
  end.

Definition sampleChecksum (a : string) : string :=
  "0x" +:+ upperHex (Js.ofChars (drop 2 (Js.chars (Js.toLowerCase a)))).

Definition sampleIntegerOf (v : option Json) : option Z :=
  match v with
  | Some (JNumber n) => Some n
  | _ => None
  end.

Definition sampleOwner : string := "0xab00000000000000000000000000000000000000".

Definition writeRequest : Request := {|
  header := fun name => if bool_decide (name = "x-admin-token") then Some "admin" else None;
  json := Some (JObject
    [("owner", JString "0xAB00000000000000000000000000000000000000");
     ("maxAmount", JString "200000000");
     ("allowedRecipients",
      JArray [JString "0x2222222222222222222222222222222222222222";
              JString "0x2222222222222222222222222222222222222222"]);
     ("expiresAt", JNumber 1700003600)])
|}.

Definition emptyState : State := {|
  policies := ∅;
  stateFile := None;
  writeRateLimiter := RateLimit.create 30 60000
|}.

Definition storedPolicy : DelegationPolicy := {|
  owner := sampleOwner;
  maxAmount := "200000000";
  allowedRecipients := ["0x2222222222222222222222222222222222222222"];
  allowedTokens := [];
  expiresAt := 1700003600;
  updatedAt := 1700000001
|}.

Definition writtenState : State :=
  (postDelegation sampleChecksum sampleIntegerOf (Some "admin") None
     1700000000000 1700000000 1700000001 emptyState writeRequest).2.

Example postDelegation_sample :
  (postDelegation sampleChecksum sampleIntegerOf (Some "admin") None
     1700000000000 1700000000 1700000001 emptyState writeRequest).1
  = PolicyJson storedPolicy.
Proof. vm_compute. reflexivity. Qed.

Lemma policy_reads_back_under_accepted_spellings_witness :
  getDelegation sampleChecksum writtenState "0xAB00000000000000000000000000000000000000"
    = PolicyJson storedPolicy
  /\ getDelegation sampleChecksum writtenState (owner storedPolicy) = PolicyJson storedPolicy
  /\ lowerCased (owner storedPolicy)
  /\ Forall lowerCased (allowedRecipients storedPolicy)
  /\ Forall lowerCased (allowedTokens storedPolicy).
Proof.
  apply (policy_reads_back_under_accepted_spellings sampleChecksum sampleIntegerOf
           (Some "admin") None 1700000000000 1700000000 1700000001 emptyState writtenState
           writeRequest storedPolicy "0xAB00000000000000000000000000000000000000").
  - vm_compute. reflexivity.
  - vm_compute. reflexivity.
  - reflexivity.
Defined.

(** *** Spellings the address test refuses *)

(** The checksum spelling of an address does not depend on the case it
    is given in. *)
Definition caseBlind (checksumAddress : string -> string) : Prop :=
  forall a, checksumAddress a = checksumAddress (Js.toLowerCase a).

(** The claim as stated: after a successful write, every spelling that
    lower-cases to the stored owner reads the policy back. *)
Definition readsBackUnderEverySpelling (checksumAddress : string -> string) : Prop :=
  forall integerOf adminToken env_GUARDIAN_MAX_POLICY_AMOUNT nowMs now updatedNow s s' req
         policy spelling,
    postDelegation checksumAddress integerOf adminToken env_GUARDIAN_MAX_POLICY_AMOUNT
      nowMs now updatedNow s req = (PolicyJson policy, s') ->
    Js.toLowerCase spelling = owner policy ->
    getDelegation checksumAddress s' spelling = PolicyJson policy.

Definition lowerCaseWrite : Request := {|
  header := fun name => if bool_decide (name = "x-admin-token") then Some "admin" else None;
  json := Some (JObject
    [("owner", JString sampleOwner);
     ("maxAmount", JString "200000000");
     ("expiresAt", JNumber 1700003600)])
|}.

Lemma getDelegation_accepts (checksumAddress : string -> string) (s : State)
    (spelling : string) (policy : DelegationPolicy) :
  getDelegation checksumAddress s spelling = PolicyJson policy ->
  Viem.isAddress checksumAddress spelling = true.
Proof.
  unfold getDelegation, normalizeAddress.
  destruct (Viem.isAddress checksumAddress spelling); [reflexivity | discriminate].
Qed.

(** C9 (the claim as stated fails).  Under no checksum function that is
    blind to case does every case variant read the policy back: of the
    two spellings [0xAb00...] and [0xaB00...] of a stored owner, the
    address test refuses at least one, and the read answers 400. *)
Lemma not_every_spelling_reads_back :
  ~ exists checksumAddress,
      caseBlind checksumAddress /\ readsBackUnderEverySpelling checksumAddress.
Proof.
  intros (checksumAddress & Hblind & Hclaim).
  pose (result := postDelegation checksumAddress sampleIntegerOf (Some "admin") None
                    1700000000000 1700000000 1700000000 emptyState lowerCaseWrite).
  assert (Hwrite : result.1 = PolicyJson
            {| owner := sampleOwner; maxAmount := "200000000"; allowedRecipients := [];
               allowedTokens := []; expiresAt := 1700003600; updatedAt := 1700000000 |}).
  { vm_compute. reflexivity. }
  assert (Hpair : result = (result.1, result.2)) by (destruct result; reflexivity).
  rewrite Hwrite in Hpair.
  pose (v1 := "0xAb00000000000000000000000000000000000000").
  pose (v2 := "0xaB00000000000000000000000000000000000000").
  assert (H1 := Hclaim _ _ _ _ _ _ _ _ _ _ v1 Hpair eq_refl).
  assert (H2 := Hclaim _ _ _ _ _ _ _ _ _ _ v2 Hpair eq_refl).
  apply getDelegation_accepts in H1. apply getDelegation_accepts in H2.
  unfold Viem.isAddress in H1, H2.
  change (Js.isHexOfLength 40 v1) with true in H1.
  change (Js.isHexOfLength 40 v2) with true in H2.
  change (Js.strEq (Js.toLowerCase v1) v1) with false in H1.
  change (Js.strEq (Js.toLowerCase v2) v2) with false in H2.
  simpl in H1, H2. unfold Js.strEq in H1, H2.
  apply bool_decide_eq_true in H1. apply bool_decide_eq_true in H2.
  rewrite (Hblind v1) in H1. rewrite (Hblind v2) in H2.
  change (Js.toLowerCase v1) with sampleOwner in H1.
  change (Js.toLowerCase v2) with sampleOwner in H2.
  rewrite H1 in H2. discriminate H2.
Qed.


(** *** Who may write, and what a write may hold *)

(** X23.  The guardian fails closed: with [DELEGATION_ADMIN_TOKEN]
    unset or empty, every write request, whatever header and body it
    carries, is answered 500 (or 429 when rate-limited), and the
    policies and the state file are unchanged. *)
Theorem postDelegation_fails_closed_without_admin_token
    (checksumAddress : string -> string) (integerOf : option Json -> option Z)
    (adminToken env_GUARDIAN_MAX_POLICY_AMOUNT : option string)
    (nowMs now updatedNow : Z)
    (s : State) (req : Request) :
  Js.truthyOpt adminToken = false ->
  let result :=
    postDelegation checksumAddress integerOf adminToken env_GUARDIAN_MAX_POLICY_AMOUNT
      nowMs now updatedNow s req in
  (result.1 = ErrorJson 500 "Guardian misconfigured: missing DELEGATION_ADMIN_TOKEN"
   \/ exists retryAfter, result.1 = RateLimited retryAfter)
  /\ policies result.2 = policies s
  /\ stateFile result.2 = stateFile s.
Proof.
  intros Hunset. cbv zeta. unfold postDelegation, rateLimitOrError.
  destruct (RateLimit.check (writeRateLimiter s) _ nowMs) as [checked limiter].
  destruct (RateLimit.allowed checked).
  - unfold requireAdmin. rewrite Hunset. cbn. repeat split. left. reflexivity.
  - cbn. repeat split. right. eexists. reflexivity.
Qed.

Lemma postDelegation_fails_closed_without_admin_token_witness :
  let result :=
    postDelegation sampleChecksum sampleIntegerOf (Some "") None
      1700000000000 1700000000 1700000000 emptyState writeRequest in
  (result.1 = ErrorJson 500 "Guardian misconfigured: missing DELEGATION_ADMIN_TOKEN"
   \/ exists retryAfter, result.1 = RateLimited retryAfter)
  /\ policies result.2 = policies emptyState
  /\ stateFile result.2 = stateFile emptyState.
Proof.
  apply (postDelegation_fails_closed_without_admin_token sampleChecksum sampleIntegerOf
           (Some "") None 1700000000000 1700000000 1700000000 emptyState writeRequest).
  reflexivity.
Defined.

Lemma addNormalized_NoDup (checksumAddress : string -> string) (entries : list Json) :
  forall deduped result,
    NoDup deduped ->
    addNormalized checksumAddress entries deduped = Some result ->
    NoDup result /\ (length result <= length deduped + length entries)%nat.
Proof.
  induction entries as [|entry rest IH]; simpl; intros deduped result Hnodup.
  - intros [= <-]. split; [exact Hnodup | lia].
  - destruct (normalizeAddress checksumAddress (Invoice.toStr entry)) as [normalized|];
      [|discriminate].
    destruct (bool_decide (normalized ∈ deduped)) eqn:Hseen; intros Hadd.
    + destruct (IH _ _ Hnodup Hadd) as [Hresult Hlen]. split; [exact Hresult | lia].
    + apply bool_decide_eq_false in Hseen.
      assert (Hnodup' : NoDup (deduped ++ [normalized])).
      { apply NoDup_app. split; [exact Hnodup|]. split; [|apply NoDup_singleton].
        intros x Hx Hin. apply list_elem_of_singleton in Hin. subst. contradiction. }
      destruct (IH _ _ Hnodup' Hadd) as [Hresult Hlen]. split; [exact Hresult|].
      rewrite length_app in Hlen. simpl in Hlen. lia.
Qed.

Lemma parseAddressArray_bounds (checksumAddress : string -> string) (value : option Json)
    (field : string) (result : list string) :
  parseAddressArray checksumAddress value field = inr result ->
  NoDup result /\ (length result <= MAX_POLICY_LIST_ENTRIES)%nat.
Proof.
  unfold parseAddressArray. destruct value as [[| | | |entries|]|]; try discriminate.
  - destruct (Nat.ltb_spec MAX_POLICY_LIST_ENTRIES (length entries)); [discriminate|].
    destruct (addNormalized checksumAddress entries []) as [deduped|] eqn:Hadd;
      [|discriminate].
    intros [= <-]. destruct (addNormalized_NoDup _ _ _ _ (NoDup_nil_2) Hadd) as [Hn Hlen].
    split; [exact Hn | simpl in Hlen; lia].
  - intros [= <-]. split; [constructor | unfold MAX_POLICY_LIST_ENTRIES; simpl; lia].
Qed.

(** X24.  Every policy a write stores was written by the holder of the
    admin token, has a maximum amount that is a digit string denoting a
    positive number not above the guardian limit, expires after the clock
    reading [now] of the expiry checks and at most 365 days after it,
    carries as [updatedAt] the later clock reading [updatedNow] taken
    when the policy is built (which the expiry was not checked against),
    and has allow-lists without duplicates of at most 50 addresses
    each. *)
Theorem postDelegation_stores_bounded_policies
    (checksumAddress : string -> string) (integerOf : option Json -> option Z)
    (adminToken env_GUARDIAN_MAX_POLICY_AMOUNT : option string)
    (nowMs now updatedNow : Z)
    (s s' : State) (req : Request) (policy : DelegationPolicy) :
  postDelegation checksumAddress integerOf adminToken env_GUARDIAN_MAX_POLICY_AMOUNT
    nowMs now updatedNow s req = (PolicyJson policy, s') ->
  header req "x-admin-token" = adminToken
  /\ Js.truthyOpt adminToken = true
  /\ Js.isDigits (maxAmount policy) = true
  /\ (exists amount, Js.BigInt (maxAmount policy) = Some amount
                     /\ 0 < amount <= MAX_POLICY_AMOUNT env_GUARDIAN_MAX_POLICY_AMOUNT)
  /\ now < expiresAt policy <= now + 365 * 24 * 60 * 60
  /\ updatedAt policy = updatedNow
  /\ NoDup (allowedRecipients policy) /\ (length (allowedRecipients policy) <= 50)%nat
  /\ NoDup (allowedTokens policy) /\ (length (allowedTokens policy) <= 50)%nat.
Proof.
  unfold postDelegation, rateLimitOrError.
  destruct (RateLimit.check (writeRateLimiter s) _ nowMs) as [checked limiter].
  destruct (RateLimit.allowed checked); [|discriminate].
  unfold requireAdmin.
  destruct (Js.truthyOpt adminToken) eqn:Htoken; cbn [negb]; [|discriminate].
  destruct (bool_decide (header req "x-admin-token" = adminToken)) eqn:Hheader; cbn [negb];
    [|discriminate].
  apply bool_decide_eq_true in Hheader.
  destruct (json req) as [body|]; [|discriminate].
  destruct (isNull body); [discriminate|].
  destruct (Js.isDigits (stringOfProp (Invoice.prop body "maxAmount"))) eqn:Hdigits;
    cbn [negb orb]; [|discriminate].
  destruct (Js.BigInt (stringOfProp (Invoice.prop body "maxAmount"))) as [amount|] eqn:Hamount;
    [|discriminate].
  destruct (Z.leb_spec amount 0) as [|Hpositive]; [discriminate|].
  destruct (Z.gtb_spec amount (MAX_POLICY_AMOUNT env_GUARDIAN_MAX_POLICY_AMOUNT))
    as [|Hlimit]; [discriminate|].
  destruct (parseAddressArray checksumAddress (Invoice.prop body "allowedRecipients") _)
    as [message|recipients] eqn:Hrecipients; [discriminate|].
  destruct (parseAddressArray checksumAddress (Invoice.prop body "allowedTokens") _)
    as [message|tokens] eqn:Htokens; [discriminate|].
  destruct (normalizeAddress checksumAddress _) as [normalized|]; [|discriminate].
  destruct (integerOf _) as [expires|]; [|discriminate].
  destruct (Z.leb_spec expires now) as [|Hfuture]; [discriminate|].
  destruct (Z.gtb_spec expires (now + MAX_POLICY_DURATION_SECONDS)) as [|Hwithin];
    [discriminate|].
  intros [= <- <-]. cbn [maxAmount expiresAt updatedAt allowedRecipients allowedTokens].
  destruct (parseAddressArray_bounds _ _ _ _ Hrecipients) as [Hr1 Hr2].
  destruct (parseAddressArray_bounds _ _ _ _ Htokens) as [Ht1 Ht2].
  unfold MAX_POLICY_DURATION_SECONDS in Hwithin. unfold MAX_POLICY_LIST_ENTRIES in Hr2, Ht2.
  split; [exact Hheader|]. split; [reflexivity|]. split; [exact Hdigits|].
  split; [exists amount; split; [exact Hamount | lia]|].
  split; [lia|]. split; [reflexivity|]. repeat split; assumption.
Qed.

(** The two readings apart: a policy accepted at time 1700000000 as
    expiring one second later, and stamped at that very second. *)
Example postDelegation_updatedAt_second_reading :
  exists policy,
    (postDelegation sampleChecksum sampleIntegerOf (Some "admin") None
       1700000000000 1700003599 1700003600 emptyState writeRequest).1 = PolicyJson policy
    /\ updatedAt policy = expiresAt policy.
Proof. eexists. vm_compute. split; reflexivity. Qed.

Lemma postDelegation_stores_bounded_policies_witness :
  header writeRequest "x-admin-token" = Some "admin"
  /\ Js.truthyOpt (Some "admin") = true
  /\ Js.isDigits (maxAmount storedPolicy) = true
  /\ (exists amount, Js.BigInt (maxAmount storedPolicy) = Some amount
                     /\ 0 < amount <= MAX_POLICY_AMOUNT None)
  /\ 1700000000 < expiresAt storedPolicy <= 1700000000 + 365 * 24 * 60 * 60
  /\ updatedAt storedPolicy = 1700000001
  /\ NoDup (allowedRecipients storedPolicy)
  /\ (length (allowedRecipients storedPolicy) <= 50)%nat
  /\ NoDup (allowedTokens storedPolicy) /\ (length (allowedTokens storedPolicy) <= 50)%nat.
Proof.
  apply (postDelegation_stores_bounded_policies sampleChecksum sampleIntegerOf
           (Some "admin") None 1700000000000 1700000000 1700000001 emptyState writtenState
           writeRequest storedPolicy).
  vm_compute. reflexivity.
Defined.

End Guardian.

(** ** The serverless demo confirmation (api/invoices.ts, [handleDemoConfirm]) *)

Module ServerlessApi.

Import Canonical.

(** The responses of the handler: a failure with its status and code, or
    the confirmation. *)
Inductive Response :=
| Failure (httpStatus : Z) (code : string)
| Confirmed (txHash_ : string) (confirmedAt_ : Z).

(** [typeof v === 'string' ? v : undefined] for a property. *)
Definition stringOrUndefined (v : option Json) : option string :=
  match v with
  | Some (JString s) => Some s
  | _ => None
  end.

(** [handleDemoConfirm(req, res)] at the clock reading [now] (seconds):
    [body] is what [readJsonBody] returns, [orders] the map of the
    store (its orders have the shape of the merchant server's). *)
Definition handleDemoConfirm (now : Z) (orders : gmap string Merchant.Order)
    (body : option Json) : Response * gmap string Merchant.Order :=
  match body with
  | Some (JObject entries) =>
      let payload := JObject entries in
      let invoiceId := stringOrUndefined (Invoice.prop payload "invoiceId") in
      let txHash := stringOrUndefined (Invoice.prop payload "txHash") in
      match invoiceId with
      | Some invoiceId =>
          if negb (Js.truthy invoiceId) then (Failure 400 "MISSING_INVOICE_ID", orders)
          else
            match txHash with
            | Some txHash =>
                if negb (Js.truthy txHash) || negb (Js.isHexOfLength 64 txHash)
                then (Failure 400 "INVALID_TX_HASH", orders)
                else
                  match orders !! invoiceId with
                  | None => (Failure 404 "NOT_FOUND", orders)
                  | Some existing =>
                      (Confirmed txHash now,
                       <[invoiceId := Merchant.confirmedWith existing txHash now]> orders)
                  end
            | None => (Failure 400 "INVALID_TX_HASH", orders)
            end
      | None => (Failure 400 "MISSING_INVOICE_ID", orders)
      end
  | _ => (Failure 400 "BAD_JSON", orders)
  end.

Definition demoRequest (invoiceId txHash : string) : option Json :=
  Some (JObject [("invoiceId", JString invoiceId); ("txHash", JString txHash)]).

(** X29.  The serverless demo confirmation is not final: for an order
    of the store and a transaction hash of the right shape it answers
    confirmed and stores that hash and the time of the call, whatever
    the status and the hash stored before; a second request with another
    hash replaces the first one's hash. *)
Theorem handleDemoConfirm_overwrites_confirmation
    (now later : Z) (orders : gmap string Merchant.Order) (invoiceId txHash otherHash : string)
    (existing : Merchant.Order) :
  orders !! invoiceId = Some existing ->
  invoiceId <> EmptyString ->
  Js.isHexOfLength 64 txHash = true ->
  Js.isHexOfLength 64 otherHash = true ->
  let first := handleDemoConfirm now orders (demoRequest invoiceId txHash) in
  let second := handleDemoConfirm later first.2 (demoRequest invoiceId otherHash) in
  first = (Confirmed txHash now,
           <[invoiceId := Merchant.confirmedWith existing txHash now]> orders)
  /\ second.1 = Confirmed otherHash later
  /\ second.2 !! invoiceId = Some (Merchant.confirmedWith existing otherHash later).
Proof.
  intros Hexisting Hne Hshape Hother.
  assert (Hstep : forall at_ store order hash,
    store !! invoiceId = Some order -> Js.isHexOfLength 64 hash = true ->
    handleDemoConfirm at_ store (demoRequest invoiceId hash)
    = (Confirmed hash at_, <[invoiceId := Merchant.confirmedWith order hash at_]> store)).
  { intros at_ store order hash Hstore Hhash. unfold handleDemoConfirm, demoRequest.
    cbn [Invoice.prop Invoice.lookupKey].
    change (Js.strEq "invoiceId" "invoiceId") with true.
    change (Js.strEq "invoiceId" "txHash") with false.
    change (Js.strEq "txHash" "txHash") with true.
    cbn [stringOrUndefined]. rewrite (Merchant.truthy_true _ Hne). cbn [negb].
    assert (Htruthy : Js.truthy hash = true).
    { destruct hash; [discriminate Hhash | reflexivity]. }
    rewrite Htruthy, Hhash, Hstore. reflexivity. }
  cbv zeta. rewrite (Hstep now orders existing txHash Hexisting Hshape).
  cbn [fst snd].
  rewrite (Hstep later _ (Merchant.confirmedWith existing txHash now) otherHash
             (lookup_insert_eq _ _ _) Hother).
  cbn [fst snd]. split; [reflexivity|]. split; [reflexivity|].
  rewrite lookup_insert_eq. reflexivity.
Qed.

Lemma handleDemoConfirm_overwrites_confirmation_witness :
  let orders : gmap string Merchant.Order :=
    {[ "INV-TEST-1" := Merchant.sampleOrder Merchant.confirmed (Some Merchant.sampleTxHash) ]} in
  let first :=
    handleDemoConfirm 1700000300 orders (demoRequest "INV-TEST-1" Merchant.otherTxHash) in
  let second :=
    handleDemoConfirm 1700000400 first.2 (demoRequest "INV-TEST-1" Merchant.sampleTxHash) in
  first = (Confirmed Merchant.otherTxHash 1700000300,
           <["INV-TEST-1" :=
               Merchant.confirmedWith
                 (Merchant.sampleOrder Merchant.confirmed (Some Merchant.sampleTxHash))
                 Merchant.otherTxHash 1700000300]> orders)
  /\ second.1 = Confirmed Merchant.sampleTxHash 1700000400
  /\ second.2 !! "INV-TEST-1"
     = Some (Merchant.confirmedWith
               (Merchant.sampleOrder Merchant.confirmed (Some Merchant.sampleTxHash))
               Merchant.sampleTxHash 1700000400).
Proof.
  apply (handleDemoConfirm_overwrites_confirmation 1700000300 1700000400
           {[ "INV-TEST-1" :=
                Merchant.sampleOrder Merchant.confirmed (Some Merchant.sampleTxHash) ]}
           "INV-TEST-1" Merchant.otherTxHash Merchant.sampleTxHash
           (Merchant.sampleOrder Merchant.confirmed (Some Merchant.sampleTxHash))).
  - reflexivity.
  - discriminate.
  - reflexivity.
  - reflexivity.
Defined.

End ServerlessApi.

(** ** From the agent's payment to the merchant's confirmation *)

Module Flow.

Lemma find_exists {A : Type} (f : A -> bool) (l : list A) (x : A) :
  x ∈ l -> f x = true -> exists y, List.find f l = Some y.
Proof.
  induction l as [|z l IH]; intros Hin Hx; [inversion Hin|].
  simpl. destruct (f z) eqn:Hz; [eexists; reflexivity|].
  apply elem_of_cons in Hin. destruct Hin as [-> | Hin]; [congruence | apply IH; assumption].
Qed.

(** The event of the transfer the agent submits for an invoice:
    [transferSync({ amount: BigInt(invoice.amount), to: invoice.recipient,
    token: invoice.token, memo: invoice.memo })] from its account. *)
Definition paymentEvent (invoice : Invoice.InvoiceV1) (amount : Z) (account : string)
  : MerchantSdk.TransferWithMemo :=
  {| MerchantSdk.address := Invoice.token invoice;
     MerchantSdk.args_from := account;
     MerchantSdk.args_to := Invoice.recipient invoice;
     MerchantSdk.args_amount := amount;
     MerchantSdk.args_memo := Invoice.memo invoice |}.

(** X30.  The payment the agent makes after policy enforcement has
    passed is recognised by the merchant: whatever other logs the
    receipt holds, the matcher finds an event, and a confirmation
    request for the pending order of that invoice with the hash of that
    transaction is answered confirmed. *)
Theorem agent_payment_is_confirmed
    (now confirmNow : Z) (invoice : Invoice.InvoiceV1) (policy : Agent.DelegationPolicy)
    (account : string) (amount : Z) (before after : list MerchantSdk.Log)
    (getTransactionReceipt : string -> option Merchant.TransactionReceipt)
    (s : Merchant.State) (key hash : string) (order : Merchant.Order) :
  Agent.validateInvoiceAgainstPolicy now invoice policy account = inr tt ->
  Js.BigInt (Invoice.amount invoice) = Some amount ->
  let logs :=
    before ++ MerchantSdk.TransferWithMemoLog (paymentEvent invoice amount account) :: after in
  Merchant.orders s !! key = Some order ->
  Merchant.status order = Merchant.pending ->
  Merchant.invoice order = invoice ->
  key <> EmptyString -> hash <> EmptyString ->
  getTransactionReceipt hash
    = Some {| Merchant.receiptStatus := Merchant.success; Merchant.logs := logs |} ->
  (exists matched, MerchantSdk.matchSettlement invoice logs = Some (Some matched))
  /\ (Merchant.confirmSettlement getTransactionReceipt confirmNow s
        {| Merchant.body_invoiceId := Some key; Merchant.body_orderId := None;
           Merchant.body_txHash := Some hash |}).1
     = Merchant.SettlementConfirmed (Invoice.invoiceId invoice) hash false.
Proof.
  intros Hvalid Hamount logs Horder Hstatus Hinvoice Hne1 Hne2 Hreceipt.
  assert (Hmatches : MerchantSdk.eventMatches invoice amount
                       (paymentEvent invoice amount account) = true).
  { apply MerchantSdk.eventMatches_spec. unfold MerchantSdk.satisfies, paymentEvent,
      MerchantSdk.sameIgnoringCase. cbn.
    repeat split.
    intros payer Hpayer Hset.
    unfold Agent.validateInvoiceAgainstPolicy in Hvalid.
    destruct (negb (Invoice.chainId invoice =? Agent.CHAIN_ID)); [discriminate|].
    destruct (Invoice.dueAt invoice <? now); [discriminate|].
    destruct (Agent.expiresAt policy <? now); [discriminate|].
    rewrite Hpayer in Hvalid. rewrite (Merchant.truthy_true _ Hset) in Hvalid.
    cbn [andb] in Hvalid.
    destruct (Js.strEq (Js.toLowerCase payer) (Js.toLowerCase account)) eqn:Hsame;
      [|discriminate].
    apply bool_decide_eq_true in Hsame. symmetry. exact Hsame. }
  assert (Hfound : exists matched,
            MerchantSdk.matchSettlement invoice logs = Some (Some matched)).
  { unfold MerchantSdk.matchSettlement. rewrite Hamount.
    destruct (find_exists (MerchantSdk.eventMatches invoice amount)
                (MerchantSdk.parseEventLogs logs) (paymentEvent invoice amount account))
      as [matched Hfind]; [|exact Hmatches|exists matched; rewrite Hfind; reflexivity].
    unfold logs. rewrite MerchantSdk.parseEventLogs_app. apply elem_of_app. right.
    simpl. left. }
  split; [exact Hfound|].
  destruct Hfound as [matched Hfound].
  unfold Merchant.confirmSettlement. cbn [Merchant.nullish Merchant.body_invoiceId
    Merchant.body_orderId Merchant.body_txHash].
  rewrite (Merchant.truthy_true _ Hne1), (Merchant.truthy_true _ Hne2). cbn [negb orb].
  rewrite Horder, Hstatus, Hreceipt. cbn [Merchant.receiptStatus Merchant.logs].
  rewrite Hinvoice, Hfound. reflexivity.
Qed.

Lemma agent_payment_is_confirmed_witness :
  (exists matched,
     MerchantSdk.matchSettlement MerchantSdk.sampleInvoice
       ([MerchantSdk.OtherLog]
        ++ MerchantSdk.TransferWithMemoLog
             (paymentEvent MerchantSdk.sampleInvoice 285000000
                "0x3333333333333333333333333333333333333ABC") :: [])
     = Some (Some matched))
  /\ (Merchant.confirmSettlement
        (fun _ => Some {| Merchant.receiptStatus := Merchant.success;
                          Merchant.logs :=
                            [MerchantSdk.OtherLog]
                            ++ MerchantSdk.TransferWithMemoLog
                                 (paymentEvent MerchantSdk.sampleInvoice 285000000
                                    "0x3333333333333333333333333333333333333ABC") :: [] |})
        1700000300 Merchant.pendingState
        {| Merchant.body_invoiceId := Some "INV-TEST-1"; Merchant.body_orderId := None;
           Merchant.body_txHash := Some Merchant.sampleTxHash |}).1
     = Merchant.SettlementConfirmed (Invoice.invoiceId MerchantSdk.sampleInvoice)
         Merchant.sampleTxHash false.
Proof.
  apply (agent_payment_is_confirmed 1700000000 1700000300 MerchantSdk.sampleInvoice
           Agent.generousPolicy "0x3333333333333333333333333333333333333ABC" 285000000
           [MerchantSdk.OtherLog] []
           (fun _ => Some {| Merchant.receiptStatus := Merchant.success;
                             Merchant.logs :=
                               [MerchantSdk.OtherLog]
                               ++ MerchantSdk.TransferWithMemoLog
                                    (paymentEvent MerchantSdk.sampleInvoice 285000000
                                       "0x3333333333333333333333333333333333333ABC") :: [] |})
           Merchant.pendingState "INV-TEST-1" Merchant.sampleTxHash
           (Merchant.sampleOrder Merchant.pending None)).
  - vm_compute. reflexivity.
  - reflexivity.
  - reflexivity.
  - reflexivity.
  - reflexivity.
  - discriminate.
  - discriminate.
  - reflexivity.
Defined.

End Flow.
